(** * mxmauro/logger: the syslog engine, the file engine and the dispatcher

    A shallow embedding of the Go sources
      - engines/syslog  (bounded queue, formatter, connection handling, the
                         inner loop of the worker, shutdown),
      - engines/file    (construction clamps, rotation, writing, vault purge),
      - engines/console (level tags, output streams),
      - the logger      (construction, engines, levels, [parseObj] / [log]
                         dispatch, shutdown),
    followed by the properties established about them.

    Conventions.  Go [int]/[int64] values are [Z] with the two's complement
    wrap written out ([wrap64]); [uint]/[uint64] option fields are [N];
    strings are [string]; the operating system (network, directory, clock) is
    an explicit state threaded through every function that touches it, and
    every system call leaves an event in a trace.  The model is sequential:
    the mutexes are left out, and of the worker goroutine of the syslog engine
    ([messengerWorker]) only the inner loop is part of it. *)

From Stdlib Require Import ZArith NArith Lia Bool List Ascii String.
From Stdlib Require Import Numbers.DecimalString Sorting.Permutation Sorting.Sorted.
Import ListNotations.

Open Scope Z_scope.

(* ===================================================================== *)
(** * The fragment of the Go runtime the engines rely on *)
(* ===================================================================== *)

Module Go.

(** ** Machine integers *)

Definition MaxInt64 : Z := 9223372036854775807.

(** Two's complement wrap of a mathematical integer into [int64]. *)
Definition wrap64 (x : Z) : Z := (x + 2 ^ 63) mod 2 ^ 64 - 2 ^ 63.

Definition add64 (a b : Z) : Z := wrap64 (a + b).
Definition sub64 (a b : Z) : Z := wrap64 (a - b).
Definition mul64 (a b : Z) : Z := wrap64 (a * b).
Definition neg64 (a : Z) : Z := wrap64 (- a).

Definition in_int64 (x : Z) : Prop := - 2 ^ 63 <= x <= MaxInt64.

(** ** Strings *)

Definition nl : ascii := "010"%char.
Definition NL : string := String nl EmptyString.

(** [strings.HasSuffix]: [len(s) >= len(suffix) && s[len(s)-len(suffix):] == suffix]. *)
Definition HasSuffix (s suffix : string) : bool :=
  (String.length suffix <=? String.length s)%nat &&
  String.eqb
    (substring (String.length s - String.length suffix) (String.length suffix) s)
    suffix.

(** [strings.TrimSuffix]: drops the suffix once when it is there. *)
Definition TrimSuffix (s suffix : string) : string :=
  if HasSuffix s suffix
  then substring 0 (String.length s - String.length suffix) s
  else s.

(** [s[i:]]. *)
Definition sliceFrom (i : nat) (s : string) : string :=
  substring i (String.length s - i) s.

(** [strconv.Itoa]. *)
Definition Itoa (x : Z) : string := NilZero.string_of_int (Z.to_int x).

Fixpoint zeros (n : nat) : string :=
  match n with
  | O => EmptyString
  | S k => String "0"%char (zeros k)
  end.

(** [time.appendInt]: sign, zero padding up to [width], decimal digits. *)
Definition appendInt (x : Z) (width : nat) : string :=
  let digits := NilZero.string_of_uint (N.to_uint (Z.abs_N x)) in
  let sign := if (x <? 0)%Z then "-"%string else EmptyString in
  (sign ++ zeros (width - String.length digits) ++ digits)%string.

(** ** time.Time

    A [Time] carries what the accessors of a Go [time.Time] return: the
    instant (nanoseconds since the Unix epoch) and the civil fields in the
    value's location.  The calendar computations of the runtime are not
    re-implemented. *)

Record Time : Type := mkTime {
  UnixNano : Z;
  Year : Z;
  Month : Z;
  Day : Z;
  Hour : Z;
  Minute : Z;
  Second : Z;
  Nanosecond : Z
}.

Definition nsPerSecond : Z := 1000000000.
Definition nsPerDay : Z := 86400 * nsPerSecond.

(** [time.Month.String]. *)
Definition monthName (m : Z) : string :=
  match m with
  | 1 => "January" | 2 => "February" | 3 => "March" | 4 => "April"
  | 5 => "May" | 6 => "June" | 7 => "July" | 8 => "August"
  | 9 => "September" | 10 => "October" | 11 => "November" | 12 => "December"
  | _ => ("%!Month(" ++ Itoa m ++ ")")%string
  end.

(** The layout elements of [time.Format] that read only the civil fields
    above.  Zone, weekday, 12-hour and two-digit-year elements do not occur
    in the layouts of this repository and are left out. *)
Inductive chunk : Type :=
| stdLongMonth | stdMonth | stdNumMonth | stdZeroMonth
| stdDay | stdUnderDay | stdZeroDay
| stdHour | stdMinute | stdZeroMinute | stdSecond | stdZeroSecond
| stdLongYear
| stdFracSecond0 (digits : nat)
| literal (c : ascii).

Fixpoint countLeading (c : ascii) (s : string) : nat :=
  match s with
  | String d r => if Ascii.eqb c d then S (countLeading c r) else O
  | EmptyString => O
  end.

Definition isDigitAt (s : string) : bool :=
  match s with
  | String d _ => (48 <=? nat_of_ascii d)%nat && (nat_of_ascii d <=? 57)%nat
  | EmptyString => false
  end.

Definition startsWithLowerCase (s : string) : bool :=
  match s with
  | String d _ => (97 <=? nat_of_ascii d)%nat && (nat_of_ascii d <=? 122)%nat
  | EmptyString => false
  end.

(** [time.nextStdChunk] at the head of [layout]: the element found and the
    number of layout bytes it spans. *)
Definition nextStdChunk (layout : string) : chunk * nat :=
  match layout with
  | EmptyString => (literal "000"%char, O)
  | String c rest =>
    if prefix "January" layout then (stdLongMonth, 7%nat)
    else if prefix "Jan" layout && negb (startsWithLowerCase (sliceFrom 3 layout))
    then (stdMonth, 3%nat)
    else if prefix "01" layout then (stdZeroMonth, 2%nat)
    else if prefix "02" layout then (stdZeroDay, 2%nat)
    else if prefix "04" layout then (stdZeroMinute, 2%nat)
    else if prefix "05" layout then (stdZeroSecond, 2%nat)
    else if prefix "15" layout then (stdHour, 2%nat)
    else if prefix "1" layout then (stdNumMonth, 1%nat)
    else if prefix "2006" layout then (stdLongYear, 4%nat)
    else if prefix "2" layout then (stdDay, 1%nat)
    else if prefix "_2006" layout then (literal c, 1%nat)
    else if prefix "_2" layout then (stdUnderDay, 2%nat)
    else if prefix "4" layout then (stdMinute, 1%nat)
    else if prefix "5" layout then (stdSecond, 1%nat)
    else if prefix ".0" layout then
      let n := countLeading "0"%char rest in
      if isDigitAt (sliceFrom n rest) then (literal c, 1%nat)
      else (stdFracSecond0 n, S n)
    else (literal c, 1%nat)
  end.

(** What [Time.appendFormat] appends for one element. *)
Definition renderChunk (t : Time) (k : chunk) : string :=
  match k with
  | stdLongMonth => monthName (Month t)
  | stdMonth => substring 0 3 (monthName (Month t))
  | stdNumMonth => appendInt (Month t) 0
  | stdZeroMonth => appendInt (Month t) 2
  | stdDay => appendInt (Day t) 0
  | stdUnderDay =>
      let pad := if (Day t <? 10)%Z then " "%string else EmptyString in
      (pad ++ appendInt (Day t) 0)%string
  | stdZeroDay => appendInt (Day t) 2
  | stdHour => appendInt (Hour t) 2
  | stdMinute => appendInt (Minute t) 0
  | stdZeroMinute => appendInt (Minute t) 2
  | stdSecond => appendInt (Second t) 0
  | stdZeroSecond => appendInt (Second t) 2
  | stdLongYear => appendInt (Year t) 4
  | stdFracSecond0 n =>
      ("." ++ substring 0 n (appendInt (Nanosecond t) 9))%string
  | literal c => String c EmptyString
  end.

Fixpoint formatLoop (fuel : nat) (t : Time) (layout : string) : string :=
  match fuel with
  | O => EmptyString
  | S fuel' =>
    match layout with
    | EmptyString => EmptyString
    | _ =>
      let '(k, n) := nextStdChunk layout in
      (renderChunk t k ++ formatLoop fuel' t (sliceFrom n layout))%string
    end
  end.

(** [Time.Format]: every element spans at least one byte, so the length of
    the layout is fuel enough. *)
Definition Format (t : Time) (layout : string) : string :=
  formatLoop (String.length layout) t layout.

(** [Time.Before] and [Time.Compare], on the instants of the two times. *)
Definition Before (a b : Z) : bool := a <? b.
Definition Compare (a b : Z) : comparison := a ?= b.

End Go.

(* ===================================================================== *)
(** * engines/syslog *)
(* ===================================================================== *)

Module Syslog.
Import Go.

Definition severityError : Z := 3.
Definition severityWarning : Z := 4.
Definition severityInformational : Z := 6.
Definition severityDebug : Z := 7.
Definition facilityUser : Z := 1.
Definition defaultMaxMessageQueueSize : N := 1024.
Definition flushTimeout : Z := 5 * nsPerSecond.

(** ** The network, as the engine sees it

    Every [Dial] and [Write] asks the environment for its outcome: whether
    it succeeds and how long it takes.  The clock is the wall clock in
    nanoseconds.  A connection is named by a number; [nextConn] is the next
    unused one. *)

Inductive error : Type := Canceled | DeadlineExceeded | NetError.

Inductive context : Type :=
| Background
| WithCancel (cancelled : bool)
| WithDeadline (deadline : Z).

Record outcome : Type := mkOutcome { ok : bool; took : Z }.

Inductive event : Type :=
| EvDial (proto addr : string) (tls : bool) (res : option nat)
| EvWrite (c : nat) (b : string) (res : bool)
| EvClose (c : nat).

Record network : Type := mkNetwork {
  clock : Z;
  oracle : nat -> outcome;
  calls : nat;
  nextConn : nat;
  trace : list event
}.

(** [ctx.Err()] at a given instant. *)
Definition ctxErr (ctx : context) (now : Z) : option error :=
  match ctx with
  | Background => None
  | WithCancel c => if c then Some Canceled else None
  | WithDeadline d => if d <=? now then Some DeadlineExceeded else None
  end.

Definition logEvent (e : event) (n : network) : network :=
  mkNetwork (clock n) (oracle n) (calls n) (nextConn n) (trace n ++ [e]).

(** [Dialer.DialContext]: fails at once under a finished context, is cut
    short when the deadline falls before the dial would complete, and
    otherwise succeeds or fails as the environment decides. *)
Definition DialContext (ctx : context) (proto addr : string) (tls : bool)
           (n : network) : (nat + error) * network :=
  match ctxErr ctx (clock n) with
  | Some e => (inr e, logEvent (EvDial proto addr tls None) n)
  | None =>
    let o := oracle n (calls n) in
    let finish := clock n + took o in
    match ctxErr ctx finish, ctx with
    | Some e, WithDeadline d =>
        (inr e, mkNetwork d (oracle n) (S (calls n)) (nextConn n)
                          (trace n ++ [EvDial proto addr tls None]))
    | _, _ =>
      if ok o
      then (inl (nextConn n),
            mkNetwork finish (oracle n) (S (calls n)) (S (nextConn n))
                      (trace n ++ [EvDial proto addr tls (Some (nextConn n))]))
      else (inr NetError,
            mkNetwork finish (oracle n) (S (calls n)) (nextConn n)
                      (trace n ++ [EvDial proto addr tls None]))
    end
  end.

(** [net.Conn.Write]: takes no context. *)
Definition connWrite (c : nat) (b : string) (n : network) : option error * network :=
  let o := oracle n (calls n) in
  (if ok o then None else Some NetError,
   mkNetwork (clock n + took o) (oracle n) (S (calls n)) (nextConn n)
             (trace n ++ [EvWrite c b (ok o)])).

Definition connClose (c : nat) (n : network) : network :=
  logEvent (EvClose c) n.

(** ** The engine *)

Record tlsConfigT : Type := mkTlsConfig { MinVersion : Z }.

Record Options : Type := mkOptions {
  AppName : string;
  Host : string;
  Port : N;
  UseTcp : bool;
  UseTls : bool;
  UseRFC5424 : bool;
  MaxMessageQueueSize : N;
  TlsConfig : option tlsConfigT
}.

(** [queueAvailEv] is the state of the auto-reset event (signalled or not),
    [shutdownOnce] whether the [sync.Once] has fired, [workerCtx] the
    worker's cancellation context ([None] for Go's [nil]). *)
Record engine : Type := mkEngine {
  conn : option nat;
  appName : string;
  serverAddress : string;
  useTcp : bool;
  tlsConfig : option tlsConfigT;
  useRFC5424 : bool;
  hostname : string;
  pid : Z;
  queue : list string;
  queueAvailEv : bool;
  maxQueueSize : N;
  shutdownOnce : bool;
  workerCtx : option context
}.

Definition setConn (c : option nat) (lg : engine) : engine :=
  mkEngine c (appName lg) (serverAddress lg) (useTcp lg) (tlsConfig lg)
           (useRFC5424 lg) (hostname lg) (pid lg) (queue lg) (queueAvailEv lg)
           (maxQueueSize lg) (shutdownOnce lg) (workerCtx lg).

Definition setQueue (q : list string) (ev : bool) (lg : engine) : engine :=
  mkEngine (conn lg) (appName lg) (serverAddress lg) (useTcp lg) (tlsConfig lg)
           (useRFC5424 lg) (hostname lg) (pid lg) q ev
           (maxQueueSize lg) (shutdownOnce lg) (workerCtx lg).

Definition setShutdown (once : bool) (ctx : option context) (lg : engine) : engine :=
  mkEngine (conn lg) (appName lg) (serverAddress lg) (useTcp lg) (tlsConfig lg)
           (useRFC5424 lg) (hostname lg) (pid lg) (queue lg) (queueAvailEv lg)
           (maxQueueSize lg) once ctx.

(** What [NewEngine] reads from the process: [os.Executable] (which may
    fail), [filepath.Base], [filepath.Ext], [os.Getpid], [os.Hostname]. *)
Record process : Type := mkProcess {
  Executable : option string;
  Base : string -> string;
  Ext : string -> string;
  Getpid : Z;
  Hostname : string
}.

Definition defaultAppName (p : process) : option string :=
  match Executable p with
  | None => None
  | Some exe =>
    let name := Base p exe in
    let extLen := String.length (Ext p name) in
    Some (if (extLen <? String.length name)%nat
          then substring 0 (String.length name - extLen) name
          else name)
  end.

(** [NewEngine]; the worker goroutine it starts is not part of the state. *)
Definition NewEngine (p : process) (opts : Options) : option engine :=
  match (if (String.length (AppName opts) =? 0)%nat
         then defaultAppName p else Some (AppName opts)) with
  | None => None
  | Some app =>
    let port : N :=
      if (Port opts =? 0)%N
      then (if UseTcp opts then (if UseTls opts then 6514 else 1468) else 514)%N
      else Port opts in
    let host :=
      if (0 <? String.length (Host opts))%nat then Host opts else "127.0.0.1"%string in
    Some (mkEngine None app
            (host ++ ":" ++ Itoa (Z.of_N port))%string
            (UseTcp opts)
            (if UseTls opts
             then match TlsConfig opts with
                  | Some c => Some c
                  | None => Some (mkTlsConfig 2)
                  end
             else None)
            (UseRFC5424 opts) (Hostname p) (Getpid p) [] false
            (if (MaxMessageQueueSize opts =? 0)%N
             then defaultMaxMessageQueueSize else MaxMessageQueueSize opts)
            false (Some (WithCancel false)))
  end.

(** ** Queue *)

(** [queueMessage]: [Len()] is never negative, so its conversion to [uint]
    is the identity. *)
Definition queueMessage (msg : string) (lg : engine) : engine :=
  let q := if (maxQueueSize lg <? N.of_nat (List.length (queue lg)))%N
           then List.tl (queue lg)
           else queue lg in
  setQueue (q ++ [msg]) true lg.

Definition dequeueMessage (lg : engine) : (string * bool) * engine :=
  match queue lg with
  | [] => ((EmptyString, false), lg)
  | m :: q => ((m, true), setQueue q (queueAvailEv lg) lg)
  end.

(** The message most recently placed on the queue. *)
Definition emitted (lg : engine) : string := List.last (queue lg) EmptyString.

(** [enqueueAll msgs lg]: [queueMessage] for each message in turn. *)
Definition enqueueAll (msgs : list string) (lg : engine) : engine :=
  List.fold_left (fun lg m => queueMessage m lg) msgs lg.

(** ** Formatter *)

Definition normalizeLine (tcp : bool) (msg : string) : string :=
  if tcp
  then (if negb (HasSuffix msg NL) then (msg ++ NL)%string else msg)
  else TrimSuffix msg NL.

Definition writeString (facility severity : Z) (now : Time) (msg : string)
           (raw : bool) (lg : engine) : engine :=
  let priority := add64 (mul64 facility 8) severity in
  let msg := normalizeLine (useTcp lg) msg in
  if negb (useRFC5424 lg)
  then queueMessage ("<" ++ Itoa priority ++ ">" ++ Format now "Jan _2 15:04:05" ++ " " ++
                     hostname lg ++ " " ++ msg)%string lg
  else queueMessage ("<" ++ Itoa priority ++ ">1 " ++ Format now "2006-02-01T15:04:05Z" ++ " " ++
                     hostname lg ++ " " ++ appName lg ++ " " ++ Itoa (pid lg) ++ " - - " ++
                     msg)%string lg.

Definition Success (now : Time) (msg : string) (raw sendSuccessAtErrorLogLevel : bool)
           (lg : engine) : engine :=
  if sendSuccessAtErrorLogLevel
  then writeString facilityUser severityError now msg raw lg
  else writeString facilityUser severityInformational now msg raw lg.

Definition Error (now : Time) (msg : string) (raw : bool) (lg : engine) : engine :=
  writeString facilityUser severityError now msg raw lg.

Definition Warning (now : Time) (msg : string) (raw : bool) (lg : engine) : engine :=
  writeString facilityUser severityWarning now msg raw lg.

Definition Info (now : Time) (msg : string) (raw : bool) (lg : engine) : engine :=
  writeString facilityUser severityInformational now msg raw lg.

Definition Debug (now : Time) (msg : string) (raw : bool) (lg : engine) : engine :=
  writeString facilityUser severityDebug now msg raw lg.

(** ** Connection *)

Definition disconnect (lg : engine) (n : network) : engine * network :=
  match conn lg with
  | Some c => (setConn None lg, connClose c n)
  | None => (lg, n)
  end.

Definition connect (ctx : context) (lg : engine) (n : network)
  : option error * engine * network :=
  let '(lg, n) := disconnect lg n in
  let proto := if useTcp lg then "tcp"%string else "udp"%string in
  let tls := useTcp lg && match tlsConfig lg with Some _ => true | None => false end in
  match DialContext ctx proto (serverAddress lg) tls n with
  | (inl c, n) => (None, setConn (Some c) lg, n)
  | (inr e, n) => (Some e, setConn None lg, n)
  end.

Definition writeBytes (ctx : context) (b : string) (lg : engine) (n : network)
  : option error * engine * network :=
  let retry (lg : engine) (n : network) :=
    match connect ctx lg n with
    | (Some e, lg, n) => (Some e, lg, n)
    | (None, lg, n) =>
      match conn lg with
      | Some c =>
        match connWrite c b n with
        | (Some e, n) => let '(lg, n) := disconnect lg n in (Some e, lg, n)
        | (None, n) => (None, lg, n)
        end
      | None => (None, lg, n) (* not reached: a [connect] without error leaves a connection *)
      end
    end in
  match conn lg with
  | Some c =>
    match connWrite c b n with
    | (None, n) => (None, lg, n)
    | (Some _, n) => retry lg n
    end
  | None => retry lg n
  end.

(** ** Shutdown *)

(** The loop of [flushQueue].  [q] is the queue of [lg], on which the loop
    recurses; [Front]/[Remove] is the step from [m :: q'] to [q'].  Next to
    the state the model returns the calls of [writeBytes] the loop made,
    each with the error it returned. *)
Fixpoint flushLoop (ctx : context) (q : list string) (lg : engine) (n : network)
  : list (string * option error) * engine * network :=
  match q with
  | [] => ([], lg, n)
  | m :: q' =>
    let lg := setQueue q' (queueAvailEv lg) lg in
    match writeBytes ctx m lg n with
    | (Some e, lg, n) => ([(m, Some e)], lg, n)
    | (None, lg, n) =>
      let '(log, lg, n) := flushLoop ctx q' lg n in ((m, None) :: log, lg, n)
    end
  end.

Definition flushQueue (lg : engine) (n : network)
  : list (string * option error) * engine * network :=
  let ctx := WithDeadline (clock n + flushTimeout) in
  flushLoop ctx (queue lg) lg n.

(** [Destroy].  The worker goroutine is not part of the state: [wg.Wait]
    is taken to return with the state the worker left.  Calling the cancel
    function of an engine whose [workerCancelCtx] is [nil] is a run-time
    panic, here [None]. *)
Definition Destroy (lg : engine) (n : network) : option (engine * network) :=
  if shutdownOnce lg then Some (lg, n)
  else
    match workerCtx lg with
    | None => None
    | Some _ =>
      let lg := setShutdown true (Some (WithCancel true)) lg in
      let lg := setShutdown true None lg in
      let '(_, lg, n) := flushQueue lg n in
      Some (disconnect lg n)
    end.

(** The connections closed so far, in the order of their [Close]. *)
Fixpoint closed (tr : list event) : list nat :=
  match tr with
  | [] => []
  | EvClose c :: tr => c :: closed tr
  | _ :: tr => closed tr
  end.

End Syslog.

(* ===================================================================== *)
(** * engines/file *)
(* ===================================================================== *)

Module File.
Import Go.

Definition minFileSize : Z := 10 * 1024.
Definition minFileVaultSize : Z := 100 * 1024.

Record Options : Type := mkOptions {
  Prefix : string;
  Directory : string;
  DaysToKeep : N;
  MaxFileSize : N;
  MaxFileVaultSize : N
}.

(** [fd] is the number of the open file, [None] for Go's [nil]. *)
Record engine : Type := mkEngine {
  fd : option nat;
  lastWasError : Z;
  directory : string;
  daysToKeep : N;
  maxFileSize : Z;
  maxFileVaultSize : Z;
  prefix : string;
  subFileIndex : Z;
  dayOfFile : Z;
  currentFileSize : Z;
  currentFileVaultSize : Z
}.

(** The local type [LogFile] of [purgeFileVault]; the creation time is an
    instant in nanoseconds. *)
Record LogFile : Type := mkLogFile {
  Name : string;
  FileSize : Z;
  CreatedAt : Z
}.

(** The order of the comparison function given to [slices.SortFunc]:
    [a.CreatedAt.Compare(b.CreatedAt)] is not positive. *)
Definition olderOrSame (a b : LogFile) : Prop :=
  Compare (CreatedAt a) (CreatedAt b) <> Gt.

(** What the build target and the Go library fix: the line ending of the
    target, the [path/filepath] and [strings] functions used by [NewEngine],
    and [slices.SortFunc] under the comparison by creation time, of which
    only the contract is assumed (the order it gives to files of equal
    creation time is its own). *)
Class Platform : Type := {
  newLine : string;
  newLineLen : Z;
  Separator : string;
  ToSlash : string -> string;
  IsAbs : string -> bool;
  Join : string -> string -> string;
  Clean : string -> string;
  Base : string -> string;
  Ext : string -> string;
  ToLower : string -> string;
  SortFunc : list LogFile -> list LogFile;
  SortFunc_perm : forall l, Permutation (SortFunc l) l;
  SortFunc_sorted : forall l, StronglySorted olderOrSame (SortFunc l)
}.

(** ** The operating system, as the engine sees it

    [dir] is what [os.ReadDir] returns for the engine's directory ([None]
    when it fails: the directory is not there); an entry whose [Info] fails
    has [deInfo = None], otherwise its size ([fi.Size()]) and the time
    [getFileCreationTime(fi)] returns for it.  [Now] is [time.Now()].

    Every system call is numbered ([calls]); whether the call with a given
    number succeeds, were it an [os.Remove], an [os.MkdirAll] of a missing
    directory, an [os.OpenFile] or a [WriteString], is for the environment to
    say ([removeOk], [mkdirOk], [openOk], [writeOk], and [shortWrite] for the
    bytes a failing write still writes).  The directory follows
    what the calls do: a removed file leaves the listing, a created file
    enters it, and bytes written to an open file of the directory add to its
    size ([fdNames] tells which entry an open file is). *)

Record DirEntry : Type := mkDirEntry {
  deName : string;
  deIsDir : bool;
  deInfo : option (Z * Z)
}.

Inductive event : Type :=
| EvSync (f : nat)
| EvClose (f : nat)
| EvRemove (path : string)
| EvMkdirAll (path : string) (res : bool)
| EvOpenFile (path : string) (res : option nat)
| EvWriteString (f : nat) (s : string) (res : bool).

Record world : Type := mkWorld {
  Now : Time;
  Executable : option string;
  Getwd : option string;
  dir : option (list DirEntry);
  removeOk : nat -> bool;
  mkdirOk : nat -> bool;
  openOk : nat -> bool;
  writeOk : nat -> bool;
  shortWrite : nat -> nat;
  calls : nat;
  fdNames : list (nat * string);
  nextFd : nat;
  trace : list event
}.

(** The world after one more system call. *)
Definition setWorld (d : option (list DirEntry)) (names : list (nat * string))
           (next : nat) (tr : list event) (w : world) : world :=
  mkWorld (Now w) (Executable w) (Getwd w) d (removeOk w) (mkdirOk w)
          (openOk w) (writeOk w) (shortWrite w) (S (calls w)) names next tr.

Definition logEvent (e : event) (w : world) : world :=
  setWorld (dir w) (fdNames w) (nextFd w) (trace w ++ [e]) w.

Definition fileSync (f : nat) (w : world) : world := logEvent (EvSync f) w.

Definition fileClose (f : nat) (w : world) : world :=
  setWorld (dir w) (List.filter (fun p => negb (Nat.eqb (fst p) f)) (fdNames w))
           (nextFd w) (trace w ++ [EvClose f]) w.

(** [os.Remove] of a file of the directory; its error is never looked at. *)
Definition osRemove (dirpath name : string) (w : world) : world :=
  let d := if removeOk w (calls w)
           then option_map
                  (List.filter (fun e => negb (String.eqb (deName e) name)))
                  (dir w)
           else dir w in
  setWorld d (fdNames w) (nextFd w) (trace w ++ [EvRemove (dirpath ++ name)]) w.

Definition osMkdirAll (path : string) (w : world) : bool * world :=
  match dir w with
  | Some _ => (true, logEvent (EvMkdirAll path true) w)
  | None =>
    if mkdirOk w (calls w)
    then (true, setWorld (Some []) (fdNames w) (nextFd w)
                         (trace w ++ [EvMkdirAll path true]) w)
    else (false, logEvent (EvMkdirAll path false) w)
  end.

(** [strings.Contains]. *)
Fixpoint Contains (s substr : string) : bool :=
  String.prefix substr s ||
  match s with
  | EmptyString => false
  | String _ rest => Contains rest substr
  end.

Definition isDirNamed (name : string) (e : DirEntry) : bool :=
  String.eqb (deName e) name && deIsDir e.

Definition isNamed (name : string) (e : DirEntry) : bool :=
  String.eqb (deName e) name.

(** [os.OpenFile(dirpath + name, O_WRONLY|O_APPEND|O_CREATE, 0644)], [sep]
    being the path separator: it fails when the directory is not there or
    [name] is a directory of it; a [name] that holds a separator is a file
    further down, which the listing of the directory does not show; a file
    that is not there yet is created, empty. *)
Definition osOpenFile (sep dirpath name : string) (w : world) : option nat * world :=
  let path := (dirpath ++ name)%string in
  match dir w with
  | Some entries =>
    if openOk w (calls w) && negb (List.existsb (isDirNamed name) entries)
    then
      let nested := Contains name sep in
      let entries' :=
        if nested || List.existsb (isNamed name) entries then entries
        else (entries ++ [mkDirEntry name false (Some (0, UnixNano (Now w)))])%list in
      let names' := if nested then fdNames w else (nextFd w, name) :: fdNames w in
      (Some (nextFd w),
       setWorld (Some entries') names' (S (nextFd w))
                (trace w ++ [EvOpenFile path (Some (nextFd w))]) w)
    else (None, logEvent (EvOpenFile path None) w)
  | None => (None, logEvent (EvOpenFile path None) w)
  end.

(** The entry of an open file grows by what is written to it, and its time
    becomes the time of the write: the time [getFileCreationTime] reads is the
    inode change time ([Ctimespec]), which a write renews. *)
Definition grow (name : string) (n : Z) (t : Z) (e : DirEntry) : DirEntry :=
  if String.eqb (deName e) name && negb (deIsDir e)
  then mkDirEntry (deName e) (deIsDir e)
                  (option_map (fun i => (fst i + n, t)) (deInfo e))
  else e.

Definition written (f : nat) (n : Z) (w : world) : option (list DirEntry) :=
  match List.find (fun p => Nat.eqb (fst p) f) (fdNames w) with
  | Some p => option_map (List.map (grow (snd p) n (UnixNano (Now w)))) (dir w)
  | None => dir w
  end.

(** [WriteString] of an [os.File]; on a [nil] file it returns an error.  A
    write that fails may have written the beginning of the text, as many
    bytes as [shortWrite] says. *)
Definition fileWriteString (f : option nat) (s : string) (w : world) : bool * world :=
  match f with
  | Some f =>
    let ok := writeOk w (calls w) in
    let n := if ok then String.length s
             else Nat.min (shortWrite w (calls w)) (String.length s) in
    (ok,
     setWorld (if (n =? 0)%nat then dir w else written f (Z.of_nat n) w)
              (fdNames w) (nextFd w) (trace w ++ [EvWriteString f s ok]) w)
  | None => (false, w)
  end.

(** The files closed so far, in the order of their [Close]. *)
Fixpoint closed (tr : list event) : list nat :=
  match tr with
  | [] => []
  | EvClose f :: tr => f :: closed tr
  | _ :: tr => closed tr
  end.

(** The paths handed to [os.Remove] so far. *)
Fixpoint removed (tr : list event) : list string :=
  match tr with
  | [] => []
  | EvRemove p :: tr => p :: removed tr
  | _ :: tr => removed tr
  end.

Section Engine.
Context {P : Platform}.

Definition setFd (f : option nat) (lg : engine) : engine :=
  mkEngine f (lastWasError lg) (directory lg) (daysToKeep lg) (maxFileSize lg)
           (maxFileVaultSize lg) (prefix lg) (subFileIndex lg) (dayOfFile lg)
           (currentFileSize lg) (currentFileVaultSize lg).

Definition setSizes (size vault : Z) (lg : engine) : engine :=
  mkEngine (fd lg) (lastWasError lg) (directory lg) (daysToKeep lg)
           (maxFileSize lg) (maxFileVaultSize lg) (prefix lg) (subFileIndex lg)
           (dayOfFile lg) size vault.

Definition setIndex (idx day : Z) (lg : engine) : engine :=
  mkEngine (fd lg) (lastWasError lg) (directory lg) (daysToKeep lg)
           (maxFileSize lg) (maxFileVaultSize lg) (prefix lg) idx day
           (currentFileSize lg) (currentFileVaultSize lg).

(** ** purgeFileVault *)

(** The filter loop: directories, names not ending in [.log] and entries
    whose [Info] fails are skipped. *)
Definition isLogName (filename : string) : bool :=
  let filenameLen := String.length filename in
  negb ((filenameLen <? 4)%nat ||
        negb (String.eqb (ToLower (sliceFrom (filenameLen - 4) filename)) ".log")).

Fixpoint filterFiles (files : list DirEntry) : list LogFile :=
  match files with
  | [] => []
  | f :: rest =>
    if deIsDir f then filterFiles rest
    else if negb (isLogName (deName f)) then filterFiles rest
    else match deInfo f with
         | None => filterFiles rest
         | Some (size, ctime) =>
             mkLogFile (deName f) size ctime :: filterFiles rest
         end
  end.

(** [time.Now().UTC().AddDate(0, 0, -int(daysToKeep))], as an instant: in
    UTC a day is 24 hours. *)
Definition lowestTime (w : world) (days : N) : Z :=
  UnixNano (Now w) + neg64 (wrap64 (Z.of_N days)) * nsPerDay.

(** The first loop: the index of the first file not before [lowest]. *)
Fixpoint cutOld (lowest : Z) (files : list LogFile) : nat :=
  match files with
  | [] => O
  | f :: rest => if Before (CreatedAt f) lowest then S (cutOld lowest rest) else O
  end.

(** The second loop: the sizes from an index on, added up. *)
Definition sumSizes (files : list LogFile) : Z :=
  List.fold_left (fun acc f => add64 acc (FileSize f)) files 0.

(** The third loop, over the files from [idx] on. *)
Fixpoint evict (required : Z) (files : list LogFile) (idx : nat) (size : Z)
  : nat * Z :=
  match files with
  | [] => (idx, size)
  | f :: rest =>
    if size >? required
    then evict required rest (S idx) (sub64 size (FileSize f))
    else (idx, size)
  end.

(** The last loop. *)
Definition removeAll (dirpath : string) (files : list LogFile) (w : world) : world :=
  List.fold_left (fun w f => osRemove dirpath (Name f) w) files w.

(** Returns the vault size, whether [ReadDir] failed, and the world. *)
Definition purgeFileVault (lg : engine) (w : world) : Z * bool * world :=
  if (daysToKeep lg =? 0)%N && (maxFileVaultSize lg =? 0)
  then (0, false, w)
  else
    match dir w with
    | None => (0, true, w)
    | Some files =>
      let filteredFiles := SortFunc (filterFiles files) in
      let deleteUntilIndex :=
        if (0 <? daysToKeep lg)%N
        then cutOld (lowestTime w (daysToKeep lg)) filteredFiles
        else O in
      let fileVaultSize := sumSizes (skipn deleteUntilIndex filteredFiles) in
      let '(deleteUntilIndex, fileVaultSize) :=
        if 0 <? maxFileVaultSize lg
        then evict (sub64 (maxFileVaultSize lg) minFileSize)
                   (skipn deleteUntilIndex filteredFiles)
                   deleteUntilIndex fileVaultSize
        else (deleteUntilIndex, fileVaultSize) in
      (fileVaultSize, false,
       removeAll (directory lg) (firstn deleteUntilIndex filteredFiles) w)
    end.

(** ** NewEngine *)

Definition defaultPrefix (w : world) : option string :=
  match Executable w with
  | None => None
  | Some exe =>
    let name := Base exe in
    let extLen := String.length (Ext name) in
    Some (if (extLen <? String.length name)%nat
          then substring 0 (String.length name - extLen) name
          else name)
  end.

Definition targetDirectory (w : world) (opts : Options) : option string :=
  let d := if (0 <? String.length (Directory opts))%nat
           then ToSlash (Directory opts) else "logs"%string in
  match (if negb (IsAbs d)
         then option_map (fun wd => Join wd d) (Getwd w)
         else Some d) with
  | None => None
  | Some d =>
    let d := Clean d in
    Some (if negb (HasSuffix d Separator) then (d ++ Separator)%string else d)
  end.

(** The clamp of a [uint64] limit into a positive [int64]. *)
Definition clampLimit (v : N) (minimum : Z) : Z :=
  if (0 <? v)%N
  then (if MaxInt64 <? Z.of_N v then MaxInt64
        else if Z.of_N v <? minimum then minimum
        else Z.of_N v)
  else 0.

Definition NewEngine (opts : Options) (w : world) : option engine * world :=
  match (if (String.length (Prefix opts) =? 0)%nat
         then defaultPrefix w else Some (Prefix opts)) with
  | None => (None, w)
  | Some pfx =>
    let days := if (DaysToKeep opts <? 365)%N then DaysToKeep opts else 365%N in
    match targetDirectory w opts with
    | None => (None, w)
    | Some d =>
      let maxSize := clampLimit (MaxFileSize opts) minFileSize in
      let maxVault :=
        if (0 <? MaxFileVaultSize opts)%N
        then (let v := clampLimit (MaxFileVaultSize opts) minFileVaultSize in
              if v <? maxSize then maxSize else v)
        else 0 in
      let lg := mkEngine None 0 d days maxSize maxVault pfx 0 (-1) 0 0 in
      let '(vault, _, w) := purgeFileVault lg w in
      (Some (setSizes (currentFileSize lg) vault lg), w)
    end
  end.

(** ** Destroy *)

Definition Destroy (lg : engine) (w : world) : engine * world :=
  match fd lg with
  | Some f => (setFd None lg, fileClose f (fileSync f w))
  | None => (lg, w)
  end.

(** ** Rotation and writing *)

(** [fmt.Sprintf("%03d", n)]: the sign counts towards the width. *)
Definition Sprintf03d (n : Z) : string :=
  let digits := NilZero.string_of_uint (N.to_uint (Z.abs_N n)) in
  if (n <? 0)%Z
  then ("-" ++ zeros (2 - String.length digits) ++ digits)%string
  else (zeros (3 - String.length digits) ++ digits)%string.

(** The condition computed into [rotate]. *)
Definition rotate (lg : engine) (dayOfNow msgLen : Z) : bool :=
  (match fd lg with None => true | Some _ => false end) ||
  negb (dayOfNow =? dayOfFile lg) ||
  ((0 <? maxFileSize lg) &&
   (add64 (currentFileSize lg) msgLen >? maxFileSize lg)) ||
  ((0 <? maxFileVaultSize lg) &&
   (add64 (currentFileVaultSize lg) msgLen >? maxFileVaultSize lg)).

(** Returns whether an error is returned, the engine and the world.  The file
    name given to [os.OpenFile] is [lg.directory] followed by [name]. *)
Definition openOrRotateFile (now : Time) (msgLen : Z) (lg : engine) (w : world)
  : bool * engine * world :=
  let dayOfNow := Day now in
  if negb (rotate lg dayOfNow msgLen) then (false, lg, w)
  else
    let '(lg, w) :=
      match fd lg with
      | Some f => (setFd None lg, fileClose f (fileSync f w))
      | None => (lg, w)
      end in
    let lg := setSizes 0 (currentFileVaultSize lg) lg in
    let lg :=
      if 0 <? maxFileSize lg
      then (if negb (dayOfNow =? dayOfFile lg)
            then setIndex 1 (dayOfFile lg) lg
            else setIndex (add64 (subFileIndex lg) 1) (dayOfFile lg) lg)
      else lg in
    let '(vault, _, w) := purgeFileVault lg w in
    let lg := setSizes (currentFileSize lg) vault lg in
    match osMkdirAll (directory lg) w with
    | (false, w) => (true, lg, w)
    | (true, w) =>
      let suffix :=
        if (0 <? maxFileSize lg)%Z
        then ("-" ++ Sprintf03d (subFileIndex lg))%string else EmptyString in
      let name :=
        (ToLower (prefix lg) ++ "." ++ Format now "2006-01-02" ++
         suffix ++ ".log")%string in
      match osOpenFile Separator (directory lg) name w with
      | (None, w) => (true, setFd None lg, w)
      | (Some f, w) => (false, setIndex (subFileIndex lg) dayOfNow (setFd (Some f) lg), w)
      end
    end.

Definition writeRAW (now : Time) (msg : string) (lg : engine) (w : world)
  : engine * world :=
  let msgLen := Z.of_nat (String.length msg) in
  match openOrRotateFile now (add64 msgLen newLineLen) lg w with
  | (true, lg, w) => (lg, w)
  | (false, lg, w) =>
    match fileWriteString (fd lg) msg w with
    | (false, w) => (lg, w)
    | (true, w) =>
      let lg := setSizes (add64 (currentFileSize lg) msgLen)
                         (add64 (currentFileVaultSize lg) msgLen) lg in
      match fileWriteString (fd lg) newLine w with
      | (false, w) => (lg, w)
      | (true, w) =>
        (setSizes (add64 (currentFileSize lg) newLineLen)
                  (add64 (currentFileVaultSize lg) newLineLen) lg, w)
      end
    end
  end.

Definition write (now : Time) (level msg : string) (lg : engine) (w : world)
  : engine * world :=
  writeRAW now (Format now "2006-01-02 15:04:05.000" ++ " [" ++ level ++ "]: " ++ msg)
           lg w.

Definition Success (now : Time) (msg : string) (raw sendSuccessAtErrorLogLevel : bool)
           (lg : engine) (w : world) : engine * world :=
  if negb raw then write now "SUCCESS" msg lg w else writeRAW now msg lg w.

Definition Error (now : Time) (msg : string) (raw : bool) (lg : engine) (w : world)
  : engine * world :=
  if negb raw then write now "ERROR" msg lg w else writeRAW now msg lg w.

Definition Warning (now : Time) (msg : string) (raw : bool) (lg : engine) (w : world)
  : engine * world :=
  if negb raw then write now "WARNING" msg lg w else writeRAW now msg lg w.

Definition Info (now : Time) (msg : string) (raw : bool) (lg : engine) (w : world)
  : engine * world :=
  if negb raw then write now "INFO" msg lg w else writeRAW now msg lg w.

Definition Debug (now : Time) (msg : string) (raw : bool) (lg : engine) (w : world)
  : engine * world :=
  if negb raw then write now "DEBUG" msg lg w else writeRAW now msg lg w.

End Engine.

End File.

(* ===================================================================== *)
(** * engines (the interface) and the logger's dispatch *)
(* ===================================================================== *)

Module Engines.
Import Go.

(** The [Engine] interface, over the state of an engine. *)
Class Engine (E : Type) : Type := {
  Destroy : E -> E;
  Success : Time -> string -> bool -> bool -> E -> E;
  Error : Time -> string -> bool -> E -> E;
  Warning : Time -> string -> bool -> E -> E;
  Info : Time -> string -> bool -> E -> E;
  Debug : Time -> string -> bool -> E -> E
}.

End Engines.

Module Logger.
Import Go.

Inductive logType : Type :=
| logTypeSuccess | logTypeError | logTypeWarning | logTypeInfo | logTypeDebug.

Definition LogLevelQuiet : N := 0.
Definition LogLevelError : N := 1.
Definition LogLevelWarning : N := 2.
Definition LogLevelInfo : N := 3.
Definition LogLevelDebug : N := 4.

(** ** Values behind [interface{}]

    [reflect.Kind], and the values a caller can pass: the [nil] interface, a
    string (of type [string] itself when [exact], of a defined string type
    otherwise), a struct, a nil pointer, a pointer to a value, or a value of
    any other kind. *)
Inductive Kind : Type :=
| Invalid | Bool | Int | Int8 | Int16 | Int32 | Int64
| Uint | Uint8 | Uint16 | Uint32 | Uint64 | Uintptr
| Float32 | Float64 | Complex64 | Complex128
| Array | Chan | Func | Interface | Map | Ptr | Slice
| String_ | Struct | UnsafePointer.

Inductive otherKind : Type :=
| oBool | oInt | oInt8 | oInt16 | oInt32 | oInt64
| oUint | oUint8 | oUint16 | oUint32 | oUint64 | oUintptr
| oFloat32 | oFloat64 | oComplex64 | oComplex128
| oArray | oChan | oFunc | oMap | oSlice | oUnsafePointer.

Definition kindOfOther (k : otherKind) : Kind :=
  match k with
  | oBool => Bool | oInt => Int | oInt8 => Int8 | oInt16 => Int16
  | oInt32 => Int32 | oInt64 => Int64 | oUint => Uint | oUint8 => Uint8
  | oUint16 => Uint16 | oUint32 => Uint32 | oUint64 => Uint64
  | oUintptr => Uintptr | oFloat32 => Float32 | oFloat64 => Float64
  | oComplex64 => Complex64 | oComplex128 => Complex128 | oArray => Array
  | oChan => Chan | oFunc => Func | oMap => Map | oSlice => Slice
  | oUnsafePointer => UnsafePointer
  end.

Inductive value : Type :=
| VNil
| VString (exact : bool) (s : string)
| VStruct (id : nat)
| VNilPtr
| VPtr (target : value)
| VOther (k : otherKind) (id : nat).

(** [reflect.ValueOf(obj).Kind()]. *)
Definition kindOf (v : value) : Kind :=
  match v with
  | VNil => Invalid
  | VString _ _ => String_
  | VStruct _ => Struct
  | VNilPtr => Ptr
  | VPtr _ => Ptr
  | VOther k _ => kindOfOther k
  end.

Definition IsNil (v : value) : bool :=
  match v with
  | VNilPtr => true
  | _ => false
  end.

(** [Elem()] of a non-nil pointer. *)
Definition Elem (v : value) : value :=
  match v with
  | VPtr t => t
  | _ => VNil
  end.

(** The type assertions to [string] and to pointer-to-[string]: [None] is
    the run-time panic of an assertion on a value of another type. *)
Definition assertString (v : value) : option string :=
  match v with
  | VString true s => Some s
  | _ => None
  end.

Definition assertStringPtr (v : value) : option string :=
  match v with
  | VPtr (VString true s) => Some s
  | _ => None
  end.

Section Dispatch.
(** [json.Marshal], [None] when it returns an error; the clock: [time.Now]
    and [Time.UTC]. *)
Variable Marshal : value -> option string.
Variable timeNow : Time.
Variable UTC : Time -> Time.

Context {E : Type} {EngineE : Engines.Engine E}.

Record Logger : Type := mkLogger {
  engines : list E;
  logLevel : N;
  debugLogLevel : N;
  useLocalTime : bool;
  sendSuccessAtErrorLogLevel : bool
}.

Definition setEngines (es : list E) (lg : Logger) : Logger :=
  mkLogger es (logLevel lg) (debugLogLevel lg) (useLocalTime lg)
           (sendSuccessAtErrorLogLevel lg).

(** The result of [parseObj] is [(msg, isJSON, ok)]; [None] is a panic. *)
Definition marshalStruct (obj : value) : string * bool * bool :=
  match Marshal obj with
  | Some b => (b, true, true)
  | None => (EmptyString, false, false)
  end.

Definition parseObj (obj : value) : option (string * bool * bool) :=
  match kindOf obj with
  | Ptr =>
    if negb (IsNil obj)
    then match kindOf (Elem obj) with
         | String_ =>
           option_map (fun s => (s, false, true)) (assertStringPtr obj)
         | Struct => Some (marshalStruct obj)
         | _ => Some (EmptyString, false, false)
         end
    else Some (EmptyString, false, false)
  | String_ => option_map (fun s => (s, false, true)) (assertString obj)
  | Struct => Some (marshalStruct obj)
  | _ => Some (EmptyString, false, false)
  end.

Definition dq : string := String "034"%char EmptyString.

Definition addPayloadToJSON (s : string) (now : Time) (level : string) : string :=
  match s with
  | String c0 (String c1 _) =>
    if negb (Ascii.eqb c0 "{"%char) then s
    else
      (substring 0 1 s ++
       dq ++ "timestamp" ++ dq ++ ":" ++ dq ++
       Format now "2006-01-02 15:04:05.000" ++ dq ++ "," ++
       dq ++ "level" ++ dq ++ ":" ++ dq ++ level ++ dq ++
       (if negb (Ascii.eqb c1 "}"%char) then "," else "") ++
       sliceFrom 1 s)%string
  | _ => s
  end.

Definition getTimestamp (lg : Logger) : Time :=
  if negb (useLocalTime lg) then UTC timeNow else timeNow.

Definition log (obj : value) (jsonLevel : string) (_type : logType) (lg : Logger)
  : option Logger :=
  match parseObj obj with
  | None => None
  | Some (msg, isJSON, ok) =>
    if negb ok then Some lg
    else
      let now := getTimestamp lg in
      let msg := if isJSON then addPayloadToJSON msg now jsonLevel else msg in
      let raw := isJSON in
      Some (setEngines
        (match _type with
         | logTypeSuccess =>
             List.map (Engines.Success now msg raw (sendSuccessAtErrorLogLevel lg))
                      (engines lg)
         | logTypeError => List.map (Engines.Error now msg raw) (engines lg)
         | logTypeWarning => List.map (Engines.Warning now msg raw) (engines lg)
         | logTypeInfo => List.map (Engines.Info now msg raw) (engines lg)
         | logTypeDebug => List.map (Engines.Debug now msg raw) (engines lg)
         end) lg)
  end.

Definition Success (obj : value) (lg : Logger) : option Logger :=
  let minLogLevel :=
    if sendSuccessAtErrorLogLevel lg then LogLevelError else LogLevelInfo in
  if (logLevel lg <? minLogLevel)%N then Some lg
  else log obj "success" logTypeSuccess lg.

Definition Error (obj : value) (lg : Logger) : option Logger :=
  if (logLevel lg <? LogLevelError)%N then Some lg
  else log obj "error" logTypeError lg.

Definition Warning (obj : value) (lg : Logger) : option Logger :=
  if (logLevel lg <? LogLevelWarning)%N then Some lg
  else log obj "warning" logTypeWarning lg.

Definition Info (obj : value) (lg : Logger) : option Logger :=
  if (logLevel lg <? LogLevelInfo)%N then Some lg
  else log obj "info" logTypeInfo lg.

Definition Debug (level : N) (obj : value) (lg : Logger) : option Logger :=
  if (logLevel lg <? LogLevelDebug)%N || (debugLogLevel lg <? level)%N then Some lg
  else log obj "debug" logTypeDebug lg.

End Dispatch.

End Logger.

(* ===================================================================== *)
(** * engines/syslog: the delivery worker *)
(* ===================================================================== *)

Module SyslogWorker.
Import Go Syslog.

(** The inner loop of [messengerWorker], entered when the wake-up channel
    fires, for a run in which no producer enqueues in between: a message is
    dequeued, sent under the worker's context, and only an error that is
    [context.Canceled] ends the worker.  Returned are the sends made, whether
    the worker returned, and the state.  [fuel] bounds the iterations. *)
Fixpoint drainLoop (fuel : nat) (ctx : context) (lg : engine) (n : network)
  : list (string * option error) * bool * engine * network :=
  match fuel with
  | O => ([], false, lg, n)
  | S fuel' =>
    match dequeueMessage lg with
    | ((_, false), lg) => ([], false, lg, n)
    | ((msg, true), lg) =>
      match writeBytes ctx msg lg n with
      | (Some Canceled, lg, n) => ([(msg, Some Canceled)], true, lg, n)
      | (err, lg, n) =>
        let '(log, stopped, lg, n) := drainLoop fuel' ctx lg n in
        ((msg, err) :: log, stopped, lg, n)
      end
    end
  end.

(** One wake-up of the worker: the queue is drained; each iteration removes
    one message, so one more than the queue length is fuel enough. *)
Definition wakeUp (ctx : context) (lg : engine) (n : network)
  : list (string * option error) * bool * engine * network :=
  drainLoop (S (List.length (queue lg))) ctx lg n.

(** The connections dialled so far, in the order of their [Dial]. *)
Fixpoint opened (tr : list event) : list nat :=
  match tr with
  | [] => []
  | EvDial _ _ _ (Some c) :: tr => c :: opened tr
  | _ :: tr => opened tr
  end.

(** The writes made so far: connection, bytes, success. *)
Fixpoint writes (tr : list event) : list (nat * string * bool) :=
  match tr with
  | [] => []
  | EvWrite c b r :: tr => (c, b, r) :: writes tr
  | _ :: tr => writes tr
  end.

(** The dials made so far, successful or not. *)
Fixpoint dials (tr : list event) : nat :=
  match tr with
  | [] => O
  | EvDial _ _ _ _ :: tr => S (dials tr)
  | _ :: tr => dials tr
  end.

End SyslogWorker.

(* ===================================================================== *)
(** * engines/console *)
(* ===================================================================== *)

Module Console.
Import Go.

Record Options : Type := mkOptions { DisableColor : bool }.

(** [themedLevels] is the array of five strings. *)
Record engine : Type := mkEngine { themedLevels : list string }.

(** The attributes given to [color.New]. *)
Inductive attribute : Type :=
| BlinkRapid | FgHiWhite | BgRed | FgHiYellow | FgHiBlue | FgCyan | FgHiGreen.

(** The terminal libraries: whether [termenv.ColorProfile()] is
    [termenv.Ascii], and what [color.New(attrs...).Sprintf(s)] returns. *)
Record terminal : Type := mkTerminal {
  asciiProfile : bool;
  colorize : list attribute -> string -> string
}.

(** [a[i] = s] on an array held as a list. *)
Fixpoint setAt (i : nat) (s : string) (a : list string) : list string :=
  match a, i with
  | [], _ => []
  | _ :: r, O => s :: r
  | x :: r, S j => x :: setAt j s r
  end.

(** [a[i]]. *)
Definition at_ (i : nat) (a : list string) : string := List.nth i a EmptyString.

Definition NewEngine (t : terminal) (opts : Options) : engine :=
  let a := [EmptyString; EmptyString; EmptyString; EmptyString; EmptyString] in
  if DisableColor opts || asciiProfile t
  then
    let a := setAt 0 "[ERROR]" a in
    let a := setAt 1 "[WARN]" a in
    let a := setAt 2 "[INFO]" a in
    let a := setAt 3 "[DEBUG]" a in
    let a := setAt 4 "[SUCCESS]" a in
    mkEngine a
  else
    let a := setAt 0 (colorize t [BlinkRapid; FgHiWhite; BgRed] "[ERROR]") a in
    let a := setAt 1 (colorize t [FgHiYellow] "[WARN]") a in
    let a := setAt 2 (colorize t [FgHiBlue] "[INFO]") a in
    let a := setAt 3 (colorize t [FgCyan] "[DEBUG]") a in
    let a := setAt 3 (colorize t [FgHiGreen] "[SUCCESS]") a in
    mkEngine a.

(** The two streams, each as the texts written to it, oldest first. *)
Inductive stream : Type := Stdout | Stderr.

Record console : Type := mkConsole {
  stdout : list string;
  stderr : list string
}.

Definition Fprint (w : stream) (s : string) (c : console) : console :=
  match w with
  | Stdout => mkConsole (stdout c ++ [s]) (stderr c)
  | Stderr => mkConsole (stdout c) (stderr c ++ [s])
  end.

(** [fmt.Fprintf(w, "%v %v %v\n", ...)]. *)
Definition consolePrint (w : stream) (now : Time) (themedLevel msg : string)
           (c : console) : console :=
  Fprint w (Format now "2006-01-02 15:04:05.000" ++ " " ++ themedLevel ++ " " ++
            msg ++ NL)%string c.

Definition consolePrintRAW (w : stream) (msg : string) (c : console) : console :=
  Fprint w (msg ++ NL)%string c.

Definition Destroy (lg : engine) (c : console) : console := c.

Definition Success (now : Time) (msg : string) (raw sendSuccessAtErrorLogLevel : bool)
           (lg : engine) (c : console) : console :=
  let of_ := if sendSuccessAtErrorLogLevel then Stderr else Stdout in
  if negb raw then consolePrint of_ now (at_ 4 (themedLevels lg)) msg c
  else consolePrintRAW of_ msg c.

Definition Error (now : Time) (msg : string) (raw : bool) (lg : engine) (c : console)
  : console :=
  if negb raw then consolePrint Stderr now (at_ 0 (themedLevels lg)) msg c
  else consolePrintRAW Stderr msg c.

Definition Warning (now : Time) (msg : string) (raw : bool) (lg : engine) (c : console)
  : console :=
  if negb raw then consolePrint Stderr now (at_ 1 (themedLevels lg)) msg c
  else consolePrintRAW Stderr msg c.

Definition Info (now : Time) (msg : string) (raw : bool) (lg : engine) (c : console)
  : console :=
  if negb raw then consolePrint Stdout now (at_ 2 (themedLevels lg)) msg c
  else consolePrintRAW Stdout msg c.

Definition Debug (now : Time) (msg : string) (raw : bool) (lg : engine) (c : console)
  : console :=
  if negb raw then consolePrint Stdout now (at_ 3 (themedLevels lg)) msg c
  else consolePrintRAW Stdout msg c.

(** The console engine behind the [Engine] interface: its state is the engine
    together with the console it prints on. *)
#[export] Instance consoleEngine : Engines.Engine (engine * console) := {|
  Engines.Destroy := fun s => (fst s, Destroy (fst s) (snd s));
  Engines.Success := fun now msg raw flag s =>
                       (fst s, Success now msg raw flag (fst s) (snd s));
  Engines.Error := fun now msg raw s => (fst s, Error now msg raw (fst s) (snd s));
  Engines.Warning := fun now msg raw s => (fst s, Warning now msg raw (fst s) (snd s));
  Engines.Info := fun now msg raw s => (fst s, Info now msg raw (fst s) (snd s));
  Engines.Debug := fun now msg raw s => (fst s, Debug now msg raw (fst s) (snd s))
|}.

End Console.

(* ===================================================================== *)
(** * The logger: construction, engines, levels, shutdown *)
(* ===================================================================== *)

Module LoggerAdmin.
Import Go Logger.

Record Options : Type := mkOptions {
  Level : N;
  DebugLevel : N;
  UseLocalTime : bool;
  SendSuccessAtErrorLogLevel : bool
}.

Section Admin.
Context {E : Type} {EngineE : Engines.Engine E}.

Definition Create (opts : Options) : Logger (E := E) :=
  mkLogger [] (Level opts) (DebugLevel opts) (UseLocalTime opts)
           (SendSuccessAtErrorLogLevel opts).

(** [Destroy]: [isDefault] says whether the receiver is the default logger.
    Next to the logger the final states of the engines, each after its
    [Destroy], are returned. *)
Definition Destroy (isDefault : bool) (lg : Logger (E := E)) : Logger (E := E) * list E :=
  if isDefault then (lg, [])
  else (setEngines [] lg, List.map Engines.Destroy (engines lg)).

(** [AddEngine]; a [nil] engine is [None]; the boolean is whether an error is
    returned. *)
Definition AddEngine (engine : option E) (lg : Logger (E := E)) : bool * Logger (E := E) :=
  match engine with
  | None => (true, lg)
  | Some e => (false, setEngines (engines lg ++ [e]) lg)
  end.

Definition SetLogLevel (level debugLevel : N) (lg : Logger (E := E)) : Logger (E := E) :=
  mkLogger (engines lg) level debugLevel (useLocalTime lg)
           (sendSuccessAtErrorLogLevel lg).

End Admin.

(** [AddConsoleEngine]. *)
Definition AddConsoleEngine (t : Console.terminal) (c : Console.console)
           (opts : Console.Options)
           (lg : Logger (E := Console.engine * Console.console))
  : Logger (E := Console.engine * Console.console) :=
  snd (AddEngine (Some (Console.NewEngine t opts, c)) lg).

(** The logger that the first call of [Default] makes. *)
Definition Default (t : Console.terminal) (c : Console.console)
  : Logger (E := Console.engine * Console.console) :=
  AddConsoleEngine t c (Console.mkOptions false)
                   (Create (mkOptions LogLevelInfo 0 false false)).

End LoggerAdmin.

(* ===================================================================== *)
(** * Properties *)
(* ===================================================================== *)

Import Go.

(** ** Strings and trailing newlines *)

Lemma length_append (p q : string) :
  String.length (p ++ q) = (String.length p + String.length q)%nat.
Proof. induction p as [|c r IH]; simpl; [reflexivity | now rewrite IH]. Qed.

(** Number of newline bytes at the end of a string. *)
Fixpoint trailingNL (s : string) : nat :=
  match s with
  | EmptyString => O
  | String c r =>
    let k := trailingNL r in
    if (k =? String.length r)%nat && Ascii.eqb c nl then S k else k
  end.

Lemma trailingNL_le (s : string) : (trailingNL s <= String.length s)%nat.
Proof.
  induction s as [|c r IH]; simpl; [lia|].
  destruct ((trailingNL r =? String.length r)%nat && Ascii.eqb c nl); lia.
Qed.

Lemma trailingNL_snoc (p : string) : trailingNL (p ++ NL) = S (trailingNL p).
Proof.
  induction p as [|c r IH]; [reflexivity|].
  cbn [append trailingNL]. rewrite IH, length_append. cbn [String.length NL].
  replace (S (trailingNL r) =? String.length r + 1)%nat
    with (trailingNL r =? String.length r)%nat.
  - destruct ((trailingNL r =? String.length r)%nat && Ascii.eqb c nl); reflexivity.
  - destruct (Nat.eqb_spec (trailingNL r) (String.length r)) as [E|E];
      symmetry; [apply Nat.eqb_eq | apply Nat.eqb_neq]; lia.
Qed.

Lemma trailingNL_app_keep (h s : string) :
  (trailingNL s < String.length s)%nat ->
  trailingNL (h ++ s) = trailingNL s /\
  (trailingNL (h ++ s) < String.length (h ++ s))%nat.
Proof.
  intros Hs. induction h as [|c h IH]; [now split|].
  destruct IH as [E L]. cbn [append trailingNL String.length].
  destruct (Nat.eqb_spec (trailingNL (h ++ s)) (String.length (h ++ s))) as [Q|Q];
    [lia|]. cbn [andb]. split; lia.
Qed.

Lemma trailingNL_after_space (m : string) :
  trailingNL (String " " m) = trailingNL m /\
  (trailingNL (String " " m) < String.length (String " " m))%nat.
Proof.
  cbn [trailingNL String.length].
  replace (Ascii.eqb " " nl) with false by reflexivity.
  rewrite andb_false_r. pose proof (trailingNL_le m). split; lia.
Qed.

(** [substring] at the two ends of a string extended by one byte. *)
Lemma substring_all (s : string) : substring 0 (String.length s) s = s.
Proof. induction s as [|c r IH]; simpl; [reflexivity | now rewrite IH]. Qed.

Lemma substring_front (p q : string) :
  substring 0 (String.length p) (p ++ q) = p.
Proof.
  induction p as [|c r IH]; simpl.
  - destruct q; reflexivity.
  - now rewrite IH.
Qed.

Lemma substring_back (p q : string) :
  substring (String.length p) (String.length q) (p ++ q) = q.
Proof.
  induction p as [|c r IH]; simpl; [apply substring_all | exact IH].
Qed.

Lemma HasSuffix_app (p q : string) : HasSuffix (p ++ q) q = true.
Proof.
  unfold HasSuffix. rewrite length_append.
  replace (String.length p + String.length q - String.length q)%nat
    with (String.length p) by lia.
  rewrite substring_back, String.eqb_refl, andb_true_r.
  apply Nat.leb_le. lia.
Qed.

Lemma TrimSuffix_app (p q : string) : TrimSuffix (p ++ q) q = p.
Proof.
  unfold TrimSuffix. rewrite HasSuffix_app, length_append.
  replace (String.length p + String.length q - String.length q)%nat
    with (String.length p) by lia.
  apply substring_front.
Qed.

(** Splitting off the last byte of a non-empty string. *)
Lemma string_snoc_inv (s : string) :
  s <> EmptyString ->
  exists p c, s = (p ++ String c EmptyString)%string.
Proof.
  induction s as [|a r IH]; [congruence|]. intros _.
  destruct r as [|b r'].
  - exists EmptyString, a. reflexivity.
  - destruct IH as (p & c & E); [congruence|].
    exists (String a p), c. cbn [append]. now rewrite <- E.
Qed.

Lemma HasSuffix_NL_last (p : string) (c : ascii) :
  HasSuffix (p ++ String c EmptyString) NL = Ascii.eqb c nl.
Proof.
  unfold HasSuffix. rewrite length_append. cbn [String.length NL].
  replace (String.length p + 1 - 1)%nat with (String.length p) by lia.
  pose proof (substring_back p (String c EmptyString)) as B.
  cbn [String.length] in B. rewrite B.
  replace (1 <=? String.length p + 1)%nat with true
    by (symmetry; apply Nat.leb_le; lia).
  unfold NL. cbn [andb String.eqb]. destruct (Ascii.eqb c nl); reflexivity.
Qed.

Lemma trailingNL_last (p : string) (c : ascii) :
  trailingNL (p ++ String c EmptyString) =
  if Ascii.eqb c nl then S (trailingNL p) else O.
Proof.
  destruct (Ascii.eqb_spec c nl) as [->|N].
  - apply trailingNL_snoc.
  - induction p as [|a r IH]; cbn [append trailingNL String.length].
    + apply Ascii.eqb_neq in N. now rewrite N.
    + rewrite IH. rewrite length_append. cbn [String.length].
      replace (0 =? String.length r + 1)%nat with false
        by (symmetry; apply Nat.eqb_neq; lia).
      reflexivity.
Qed.

(** [HasSuffix _ NL] says exactly that there is a trailing newline. *)
Lemma HasSuffix_NL_trailing (s : string) :
  HasSuffix s NL = negb (trailingNL s =? 0)%nat.
Proof.
  destruct s as [|a r]; [reflexivity|].
  destruct (string_snoc_inv (String a r)) as (p & c & E); [congruence|].
  rewrite E, HasSuffix_NL_last, trailingNL_last.
  destruct (Ascii.eqb c nl); reflexivity.
Qed.

Lemma trailingNL_normalize (tcp : bool) (msg : string) :
  trailingNL (Syslog.normalizeLine tcp msg) =
  if tcp then Nat.max 1 (trailingNL msg) else Nat.pred (trailingNL msg).
Proof.
  unfold Syslog.normalizeLine. destruct tcp.
  - rewrite HasSuffix_NL_trailing, negb_involutive.
    destruct (Nat.eqb_spec (trailingNL msg) 0) as [E|E].
    + rewrite trailingNL_snoc, E. reflexivity.
    + lia.
  - destruct msg as [|a r]; [reflexivity|].
    destruct (string_snoc_inv (String a r)) as (p & c & E); [congruence|].
    rewrite E. unfold TrimSuffix. rewrite HasSuffix_NL_last, trailingNL_last.
    destruct (Ascii.eqb_spec c nl) as [->|N].
    + fold NL. rewrite length_append. cbn [String.length NL].
      replace (String.length p + 1 - 1)%nat with (String.length p) by lia.
      now rewrite substring_front.
    + now rewrite trailingNL_last, (proj2 (Ascii.eqb_neq c nl) N).
Qed.

(** ** Sample values used by the closed examples *)

Definition sampleTime : Time := mkTime 1709622489000000000 2024 3 5 7 8 9 0.

Definition sampleProcess : Syslog.process :=
  Syslog.mkProcess (Some "/usr/bin/app"%string) (fun _ => "app"%string)
                   (fun _ => EmptyString) 4242 "node1"%string.

Definition sampleEngine (tcp rfc5424 : bool) (cap : N) : Syslog.engine :=
  Syslog.mkEngine None "app"%string "127.0.0.1:514"%string tcp None rfc5424
                  "node1"%string 4242 [] false cap false
                  (Some (Syslog.WithCancel false)).

(** ** The bounded queue (C1) *)

Definition lastn {A : Type} (k : nat) (l : list A) : list A :=
  skipn (List.length l - k) l.

Lemma emitted_queueMessage (m : string) (lg : Syslog.engine) :
  Syslog.emitted (Syslog.queueMessage m lg) = m.
Proof. unfold Syslog.emitted, Syslog.queueMessage. cbn. apply last_last. Qed.

Lemma maxQueueSize_queueMessage (m : string) (lg : Syslog.engine) :
  Syslog.maxQueueSize (Syslog.queueMessage m lg) = Syslog.maxQueueSize lg.
Proof. reflexivity. Qed.

(** One [queueMessage] on a queue of at most [cap + 1] entries keeps the last
    [cap + 1] of the old entries followed by the new one. *)
Lemma queueMessage_lastn (m : string) (lg : Syslog.engine) :
  let cap := N.to_nat (Syslog.maxQueueSize lg) in
  (List.length (Syslog.queue lg) <= cap + 1)%nat ->
  Syslog.queue (Syslog.queueMessage m lg) = lastn (cap + 1) (Syslog.queue lg ++ [m]).
Proof.
  intros cap Hlen. unfold Syslog.queueMessage, lastn. cbn.
  rewrite length_app. cbn [List.length].
  destruct (N.ltb_spec (Syslog.maxQueueSize lg) (N.of_nat (List.length (Syslog.queue lg))))
    as [L|L].
  - assert (E : List.length (Syslog.queue lg) = (cap + 1)%nat) by (subst cap; lia).
    destruct (Syslog.queue lg) as [|a q]; [cbn in E; lia|].
    cbn [List.length] in E |- *.
    replace (S (List.length q) + 1 - (cap + 1))%nat with 1%nat by lia.
    reflexivity.
  - replace (List.length (Syslog.queue lg) + 1 - (cap + 1))%nat with 0%nat
      by (subst cap; lia).
    reflexivity.
Qed.

Lemma lastn_length {A : Type} (k : nat) (l : list A) :
  List.length (lastn k l) = Nat.min k (List.length l).
Proof. unfold lastn. rewrite length_skipn. lia. Qed.

Lemma lastn_snoc {A : Type} (k : nat) (l : list A) (x : A) :
  lastn (S k) (l ++ [x]) = lastn k l ++ [x].
Proof.
  unfold lastn. rewrite length_app. cbn [List.length].
  replace (List.length l + 1 - S k)%nat with (List.length l - k)%nat by lia.
  rewrite skipn_app.
  replace (List.length l - k - List.length l)%nat with 0%nat by lia.
  reflexivity.
Qed.

Lemma lastn_lastn_snoc {A : Type} (k : nat) (l : list A) (x : A) :
  lastn (S k) (lastn (S k) l ++ [x]) = lastn (S k) (l ++ [x]).
Proof.
  rewrite !lastn_snoc. f_equal.
  unfold lastn at 1. rewrite lastn_length.
  unfold lastn. rewrite skipn_skipn. f_equal. lia.
Qed.

(** What the code keeps: after any run of enqueues on an empty queue, the last
    [maxQueueSize + 1] messages, in order. *)
Lemma enqueueAll_lastn (msgs : list string) (lg : Syslog.engine) :
  Syslog.queue lg = [] ->
  Syslog.queue (Syslog.enqueueAll msgs lg) =
  lastn (N.to_nat (Syslog.maxQueueSize lg) + 1) msgs.
Proof.
  intros Hq. induction msgs as [|m msgs IH] using rev_ind.
  - unfold Syslog.enqueueAll, lastn. cbn [fold_left]. now rewrite Hq, skipn_nil.
  - unfold Syslog.enqueueAll in *. rewrite fold_left_app. cbn [fold_left].
    set (lg1 := fold_left (fun lg m => Syslog.queueMessage m lg) msgs lg) in *.
    assert (Hcap : Syslog.maxQueueSize lg1 = Syslog.maxQueueSize lg).
    { subst lg1. clear. revert lg.
      induction msgs as [|a l IHl]; intro lg; [reflexivity|].
      cbn [fold_left]. now rewrite IHl. }
    rewrite queueMessage_lastn; rewrite Hcap.
    + rewrite IH. replace (N.to_nat (Syslog.maxQueueSize lg) + 1)%nat
        with (S (N.to_nat (Syslog.maxQueueSize lg))) by lia.
      apply lastn_lastn_snoc.
    + rewrite IH, lastn_length. lia.
Qed.

Lemma enqueueAll_length (msgs : list string) (lg : Syslog.engine) :
  Syslog.queue lg = [] ->
  List.length (Syslog.queue (Syslog.enqueueAll msgs lg)) =
  Nat.min (N.to_nat (Syslog.maxQueueSize lg) + 1) (List.length msgs).
Proof. intros Hq. now rewrite enqueueAll_lastn, lastn_length. Qed.

(** C1, the code at a capacity of two: an engine built by [NewEngine] with
    [MaxMessageQueueSize = 2] holds three messages after three enqueues, one
    more than its capacity, and they are the last three enqueued, not the last
    two. *)
Theorem queue_holds_one_more_than_capacity :
  exists lg : Syslog.engine,
    Syslog.NewEngine sampleProcess
      (Syslog.mkOptions "app" "" 0 false false false 2 None) = Some lg /\
    Syslog.maxQueueSize lg = 2%N /\
    Syslog.queue (Syslog.enqueueAll ["m1"; "m2"; "m3"; "m4"]%string lg)
      = ["m2"; "m3"; "m4"]%string /\
    (Syslog.maxQueueSize lg <
     N.of_nat (List.length (Syslog.queue
       (Syslog.enqueueAll ["m1"; "m2"; "m3"; "m4"]%string lg))))%N.
Proof.
  eexists. split; [reflexivity|]. split; [reflexivity|].
  split; [reflexivity|]. vm_compute. reflexivity.
Qed.

(** ** Line endings (C2) *)

(** A payload is a run of fields closed by a space and the message: only the
    message decides how many newlines end it. *)
Lemma trailingNL_fields (fields : list string) (m : string) :
  trailingNL (fold_right append (String " " m) fields) = trailingNL m /\
  (trailingNL (fold_right append (String " " m) fields)
   < String.length (fold_right append (String " " m) fields))%nat.
Proof.
  induction fields as [|f fields IH]; cbn [fold_right].
  - apply trailingNL_after_space.
  - destruct IH as [E L].
    destruct (trailingNL_app_keep f _ L) as [E' L']. split; [congruence | exact L'].
Qed.

Lemma writeString_emitted (fac sev : Z) (now : Time) (msg : string) (raw : bool)
      (lg : Syslog.engine) :
  exists fields : list string,
    Syslog.emitted (Syslog.writeString fac sev now msg raw lg) =
    fold_right append (String " " (Syslog.normalizeLine (Syslog.useTcp lg) msg)) fields.
Proof.
  unfold Syslog.writeString. destruct (Syslog.useRFC5424 lg); cbn [negb];
    rewrite emitted_queueMessage.
  - exists ["<"; Itoa (add64 (mul64 fac 8) sev); ">1 ";
            Format now "2006-02-01T15:04:05Z"; " "; Syslog.hostname lg; " ";
            Syslog.appName lg; " "; Itoa (Syslog.pid lg); " - -"]%string.
    reflexivity.
  - exists ["<"; Itoa (add64 (mul64 fac 8) sev); ">";
            Format now "Jan _2 15:04:05"; " "; Syslog.hostname lg]%string.
    reflexivity.
Qed.

(** C2 as stated fails: over UDP a message with two trailing newlines is
    queued with one of them left. *)
Lemma trailing_newlines_not_collapsed :
  ~ (forall (lg : Syslog.engine) (now : Time) (msg : string),
        (Syslog.useTcp lg = true ->
         trailingNL (Syslog.emitted (Syslog.Error now msg false lg)) = 1%nat) /\
        (Syslog.useTcp lg = false ->
         HasSuffix (Syslog.emitted (Syslog.Error now msg false lg)) NL = false)).
Proof.
  intros H.
  destruct (H (sampleEngine false false 1024) sampleTime ("a" ++ NL ++ NL)%string)
    as [_ Hudp].
  specialize (Hudp eq_refl). vm_compute in Hudp. discriminate Hudp.
Qed.

(** Over TCP the same message keeps both of its newlines. *)
Example tcp_keeps_two_newlines :
  Syslog.emitted (Syslog.Error sampleTime ("a" ++ NL ++ NL) false
                               (sampleEngine true false 1024))
  = ("<11>Mar  5 07:08:09 node1 a" ++ NL ++ NL)%string.
Proof. reflexivity. Qed.

(** C2, amended: a message with [k] trailing newlines is queued with
    [max 1 k] of them over TCP and with [k - 1] of them over UDP: one newline
    is added when there is none (TCP) or one is removed when there is one
    (UDP); further trailing newlines are left as they are. *)
Theorem line_ending_adds_or_removes_one_newline :
  forall (fac sev : Z) (now : Time) (msg : string) (raw : bool) (lg : Syslog.engine),
    trailingNL (Syslog.emitted (Syslog.writeString fac sev now msg raw lg)) =
    if Syslog.useTcp lg
    then Nat.max 1 (trailingNL msg)
    else Nat.pred (trailingNL msg).
Proof.
  intros fac sev now msg raw lg.
  destruct (writeString_emitted fac sev now msg raw lg) as [fields ->].
  rewrite (proj1 (trailingNL_fields fields _)).
  apply trailingNL_normalize.
Qed.

(** For the messages the policy was written for, those with at most one
    trailing newline, TCP payloads end in exactly one newline and UDP payloads
    in none. *)
Corollary line_ending_single_newline :
  forall (fac sev : Z) (now : Time) (msg : string) (raw : bool) (lg : Syslog.engine),
    (trailingNL msg <= 1)%nat ->
    trailingNL (Syslog.emitted (Syslog.writeString fac sev now msg raw lg)) =
    if Syslog.useTcp lg then 1%nat else 0%nat.
Proof.
  intros fac sev now msg raw lg H.
  destruct (writeString_emitted fac sev now msg raw lg) as [fields ->].
  rewrite (proj1 (trailingNL_fields fields _)), trailingNL_normalize.
  destruct (Syslog.useTcp lg); lia.
Qed.

(** ** Wire formats (C5, C6) *)

Lemma Format_structured (t : Time) :
  Format t "2006-02-01T15:04:05Z" =
  (appendInt (Year t) 4 ++ "-" ++ appendInt (Day t) 2 ++ "-" ++
   appendInt (Month t) 2 ++ "T" ++ appendInt (Hour t) 2 ++ ":" ++
   appendInt (Minute t) 2 ++ ":" ++ appendInt (Second t) 2 ++ "Z")%string.
Proof. reflexivity. Qed.

Lemma Format_legacy (t : Time) :
  Format t "Jan _2 15:04:05" =
  (substring 0 3 (monthName (Month t)) ++ " " ++
   ((if (Day t <? 10)%Z then " " else "") ++ appendInt (Day t) 0) ++ " " ++
   appendInt (Hour t) 2 ++ ":" ++ appendInt (Minute t) 2 ++ ":" ++
   appendInt (Second t) 2)%string.
Proof.
  assert (R : forall s : string, (s ++ "")%string = s)
    by (induction s as [|c r IH]; simpl; [reflexivity | now rewrite IH]).
  rewrite <- (R (appendInt (Second t) 2)). reflexivity.
Qed.

(** C5: in structured mode the queued text is the priority in angle brackets,
    the version [1], the timestamp with the year, then the day, then the
    month, the host name, the application name, the pid, [- -] and the
    message (after the line-ending rule of the transport). *)
Theorem structured_wire_text :
  forall (fac sev : Z) (now : Time) (msg : string) (raw : bool) (lg : Syslog.engine),
    Syslog.useRFC5424 lg = true ->
    let timestamp :=
      (appendInt (Year now) 4 ++ "-" ++ appendInt (Day now) 2 ++ "-" ++
       appendInt (Month now) 2 ++ "T" ++ appendInt (Hour now) 2 ++ ":" ++
       appendInt (Minute now) 2 ++ ":" ++ appendInt (Second now) 2 ++ "Z")%string in
    Syslog.emitted (Syslog.writeString fac sev now msg raw lg) =
    ("<" ++ Itoa (add64 (mul64 fac 8) sev) ++ ">1 " ++ timestamp ++ " " ++
     Syslog.hostname lg ++ " " ++ Syslog.appName lg ++ " " ++
     Itoa (Syslog.pid lg) ++ " - - " ++
     Syslog.normalizeLine (Syslog.useTcp lg) msg)%string.
Proof.
  intros fac sev now msg raw lg H timestamp.
  unfold Syslog.writeString. rewrite H. cbn [negb].
  rewrite emitted_queueMessage, Format_structured. reflexivity.
Qed.

Lemma structured_wire_text_witness :
  Syslog.useRFC5424 (sampleEngine true true 1024) = true /\
  Syslog.emitted (Syslog.Error sampleTime "disk full" false (sampleEngine true true 1024))
  = ("<11>1 2024-05-03T07:08:09Z node1 app 4242 - - disk full" ++ NL)%string.
Proof.
  split; [reflexivity|].
  exact (structured_wire_text Syslog.facilityUser Syslog.severityError sampleTime
           "disk full" false (sampleEngine true true 1024) eq_refl).
Defined.

(** A payload that opens with the priority [p] in angle brackets. *)
Definition hasPriority (p : Z) (payload : string) : Prop :=
  exists rest : string, payload = ("<" ++ Itoa p ++ ">" ++ rest)%string.

Lemma writeString_priority (fac sev : Z) (now : Time) (msg : string) (raw : bool)
      (lg : Syslog.engine) :
  hasPriority (add64 (mul64 fac 8) sev)
              (Syslog.emitted (Syslog.writeString fac sev now msg raw lg)).
Proof.
  unfold hasPriority, Syslog.writeString.
  destruct (Syslog.useRFC5424 lg); cbn [negb]; rewrite emitted_queueMessage.
  - exists ("1 " ++ Format now "2006-02-01T15:04:05Z" ++ " " ++
            Syslog.hostname lg ++ " " ++ Syslog.appName lg ++ " " ++
            Itoa (Syslog.pid lg) ++ " - - " ++
            Syslog.normalizeLine (Syslog.useTcp lg) msg)%string.
    reflexivity.
  - eexists. reflexivity.
Qed.

(** C6: with the facility fixed to 1, an error is sent with priority
    [1*8 + 3], a warning with [1*8 + 4], an informational message with
    [1*8 + 6], a debug message with [1*8 + 7], and a success message with the
    error priority when success is treated as error-level and with the
    informational priority otherwise; an error carries 11. *)
Theorem priority_is_facility_times_8_plus_severity :
  forall (now : Time) (msg : string) (raw : bool) (lg : Syslog.engine),
    Syslog.facilityUser = 1 /\
    hasPriority (1 * 8 + 3) (Syslog.emitted (Syslog.Error now msg raw lg)) /\
    hasPriority (1 * 8 + 4) (Syslog.emitted (Syslog.Warning now msg raw lg)) /\
    hasPriority (1 * 8 + 6) (Syslog.emitted (Syslog.Info now msg raw lg)) /\
    hasPriority (1 * 8 + 7) (Syslog.emitted (Syslog.Debug now msg raw lg)) /\
    hasPriority (1 * 8 + 3) (Syslog.emitted (Syslog.Success now msg raw true lg)) /\
    hasPriority (1 * 8 + 6) (Syslog.emitted (Syslog.Success now msg raw false lg)) /\
    (exists rest : string,
        Syslog.emitted (Syslog.Error now msg raw lg) = ("<11>" ++ rest)%string).
Proof.
  intros now msg raw lg.
  pose proof (writeString_priority Syslog.facilityUser Syslog.severityError) as Herr.
  pose proof (writeString_priority Syslog.facilityUser Syslog.severityWarning) as Hwarn.
  pose proof (writeString_priority Syslog.facilityUser Syslog.severityInformational)
    as Hinfo.
  pose proof (writeString_priority Syslog.facilityUser Syslog.severityDebug) as Hdbg.
  split; [reflexivity|].
  split; [apply Herr|]. split; [apply Hwarn|]. split; [apply Hinfo|].
  split; [apply Hdbg|]. split; [apply Herr|]. split; [apply Hinfo|].
  destruct (Herr now msg raw lg) as [rest E]. exists rest. exact E.
Qed.

(** ** Connection handling and shutdown of the syslog engine (C3, C9) *)

Module SyslogFacts.
Import Syslog.

(** [frame lg lg']: [lg'] differs from [lg] at most in its connection and
    its queue. *)
Definition frame (lg lg' : engine) : Prop :=
  setQueue [] (queueAvailEv lg') (setConn None lg') =
  setQueue [] (queueAvailEv lg) (setConn None lg).

Lemma frame_refl (lg : engine) : frame lg lg.
Proof. reflexivity. Qed.

Lemma frame_trans (a b c : engine) : frame a b -> frame b c -> frame a c.
Proof. unfold frame. congruence. Qed.

Lemma frame_setConn (c : option nat) (lg : engine) : frame lg (setConn c lg).
Proof. reflexivity. Qed.

Lemma frame_setQueue (q : list string) (lg : engine) :
  frame lg (setQueue q (queueAvailEv lg) lg).
Proof. reflexivity. Qed.

Lemma frame_shutdownOnce (lg lg' : engine) :
  frame lg lg' -> shutdownOnce lg' = shutdownOnce lg.
Proof. intros H. exact (f_equal shutdownOnce H). Qed.

Lemma frame_queueAvailEv (lg lg' : engine) :
  frame lg lg' -> queueAvailEv lg' = queueAvailEv lg.
Proof. intros H. exact (f_equal queueAvailEv H). Qed.

Lemma closed_app (tr1 tr2 : list event) :
  closed (tr1 ++ tr2) = (closed tr1 ++ closed tr2)%list.
Proof.
  induction tr1 as [|e tr1 IH]; [reflexivity|].
  destruct e; cbn [closed app]; now rewrite IH.
Qed.

(** The bookkeeping that makes "closed at most once" meaningful: connection
    numbers are handed out in increasing order, no connection has been closed
    twice, and the connection the engine holds has not been closed. *)
Definition wf (lg : engine) (n : network) : Prop :=
  NoDup (closed (trace n)) /\
  (forall c, In c (closed (trace n)) -> (c < nextConn n)%nat) /\
  (forall c, conn lg = Some c ->
             (c < nextConn n)%nat /\ ~ In c (closed (trace n))).

Lemma disconnect_conn (lg : engine) (n : network) :
  conn (fst (disconnect lg n)) = None.
Proof. unfold disconnect. destruct (conn lg) eqn:E; [reflexivity | exact E]. Qed.

Lemma disconnect_frame (lg : engine) (n : network) :
  frame lg (fst (disconnect lg n)) /\
  queue (fst (disconnect lg n)) = queue lg.
Proof. unfold disconnect. destruct (conn lg); split; reflexivity. Qed.

Lemma disconnect_wf (lg : engine) (n : network) :
  wf lg n -> wf (fst (disconnect lg n)) (snd (disconnect lg n)).
Proof.
  intros (ND & LT & HC). unfold disconnect.
  destruct (conn lg) as [c|] eqn:E;
    [|cbn [fst snd]; unfold wf; rewrite E; repeat split; auto; discriminate].
  destruct (HC c eq_refl) as [Hlt Hnin].
  cbn [fst snd]. unfold connClose, logEvent, wf. cbn [trace nextConn conn setConn].
  rewrite closed_app. cbn [closed]. repeat split.
  - apply NoDup_app_remove_l with (l := []). cbn.
    apply Permutation_NoDup with (l := c :: closed (trace n)).
    + apply Permutation_cons_append.
    + now constructor.
  - intros d Hd. apply in_app_or in Hd. destruct Hd as [Hd|[<-|[]]]; auto.
  - discriminate.
  - discriminate.
Qed.

(** A closed connection is never the one a later [Dial] returns. *)
Lemma DialContext_shape (ctx : context) (proto addr : string) (tls : bool)
      (n : network) :
  closed (trace (snd (DialContext ctx proto addr tls n))) = closed (trace n) /\
  match fst (DialContext ctx proto addr tls n) with
  | inl c => c = nextConn n /\
             nextConn (snd (DialContext ctx proto addr tls n)) = S (nextConn n)
  | inr _ => nextConn (snd (DialContext ctx proto addr tls n)) = nextConn n
  end.
Proof.
  unfold DialContext.
  destruct (ctxErr ctx (clock n)) as [e|].
  - cbn. rewrite closed_app. cbn. rewrite app_nil_r. now split.
  - destruct (ctxErr ctx (clock n + took (oracle n (calls n)))) as [e|];
      destruct ctx; destruct (ok (oracle n (calls n)));
      cbn; rewrite closed_app; cbn; rewrite app_nil_r; now split.
Qed.

Lemma connWrite_shape (c : nat) (b : string) (n : network) :
  closed (trace (snd (connWrite c b n))) = closed (trace n) /\
  nextConn (snd (connWrite c b n)) = nextConn n.
Proof.
  unfold connWrite. cbn. rewrite closed_app. cbn. rewrite app_nil_r. now split.
Qed.

Lemma wf_same_net (lg : engine) (n n' : network) :
  closed (trace n') = closed (trace n) -> nextConn n' = nextConn n ->
  wf lg n -> wf lg n'.
Proof. unfold wf. intros -> ->. exact (fun H => H). Qed.

Lemma wf_drop_conn (lg : engine) (n : network) :
  wf lg n -> wf (setConn None lg) n.
Proof. intros (ND & LT & _). repeat split; auto; discriminate. Qed.

(** [connect]: the old connection is closed, and the engine holds a
    connection afterwards exactly when no error is returned. *)
Lemma connect_spec (ctx : context) (lg : engine) (n : network) :
  let r := connect ctx lg n in
  frame lg (snd (fst r)) /\
  queue (snd (fst r)) = queue lg /\
  (fst (fst r) = None -> exists c, conn (snd (fst r)) = Some c) /\
  (fst (fst r) <> None -> conn (snd (fst r)) = None) /\
  (wf lg n -> wf (snd (fst r)) (snd r)).
Proof.
  unfold connect.
  pose proof (disconnect_frame lg n) as [F Q].
  pose proof (disconnect_wf lg n) as W.
  pose proof (disconnect_conn lg n) as C.
  destruct (disconnect lg n) as [lg1 n1]. cbn [fst snd] in *.
  set (proto := if useTcp lg1 then "tcp"%string else "udp"%string).
  set (tls := useTcp lg1 && match tlsConfig lg1 with Some _ => true | None => false end).
  pose proof (DialContext_shape ctx proto (serverAddress lg1) tls n1) as [Hc Hn].
  destruct (DialContext ctx proto (serverAddress lg1) tls n1) as [[c|e] n2];
    cbn [fst snd] in *.
  - split; [|split; [|split; [|split]]].
    + eapply frame_trans; [exact F | apply frame_setConn].
    + exact Q.
    + intros _. now exists c.
    + intros X. now contradiction X.
    + intros Hwf. destruct (W Hwf) as (ND & LT & _). destruct Hn as [-> Hn].
      unfold wf. rewrite Hc, Hn. cbn [conn setConn].
      split; [exact ND|]. split; [intros d Hd; apply LT in Hd; lia|].
      intros d Hd. inversion Hd; subst d. split; [lia|].
      intros Hin. apply LT in Hin. lia.
  - split; [|split; [|split; [|split]]].
    + eapply frame_trans; [exact F | apply frame_setConn].
    + exact Q.
    + discriminate.
    + reflexivity.
    + intros Hwf. apply wf_drop_conn.
      apply (wf_same_net lg1 n1 n2 Hc Hn). auto.
Qed.

(** [writeBytes]: touches nothing but the connection, and any error return
    leaves the engine without one. *)
Lemma writeBytes_spec (ctx : context) (b : string) (lg : engine) (n : network) :
  let r := writeBytes ctx b lg n in
  frame lg (snd (fst r)) /\
  queue (snd (fst r)) = queue lg /\
  (fst (fst r) <> None -> conn (snd (fst r)) = None) /\
  (wf lg n -> wf (snd (fst r)) (snd r)).
Proof.
  assert (Retry : forall n0,
    closed (trace n0) = closed (trace n) -> nextConn n0 = nextConn n ->
    let r := match connect ctx lg n0 with
             | (Some e, lg, n) => (Some e, lg, n)
             | (None, lg, n) =>
               match conn lg with
               | Some c =>
                 match connWrite c b n with
                 | (Some e, n) => let '(lg, n) := disconnect lg n in (Some e, lg, n)
                 | (None, n) => (None, lg, n)
                 end
               | None => (None, lg, n)
               end
             end in
    frame lg (snd (fst r)) /\
    queue (snd (fst r)) = queue lg /\
    (fst (fst r) <> None -> conn (snd (fst r)) = None) /\
    (wf lg n -> wf (snd (fst r)) (snd r))).
  { intros n0 Hc Hn.
    pose proof (connect_spec ctx lg n0) as (F & Q & Hok & Herr & W).
    destruct (connect ctx lg n0) as [[[e|] lg1] n1]; cbn [fst snd] in *.
    - split; [exact F|]. split; [exact Q|]. split; [intros _; now apply Herr|].
      intros Hwf. apply W. now apply (wf_same_net lg n n0).
    - destruct (Hok eq_refl) as [c Ec]. rewrite Ec.
      pose proof (connWrite_shape c b n1) as [Hc1 Hn1].
      destruct (connWrite c b n1) as [[e|] n2]; cbn [fst snd] in *.
      + pose proof (disconnect_frame lg1 n2) as [F2 Q2].
        pose proof (disconnect_conn lg1 n2) as C2.
        pose proof (disconnect_wf lg1 n2) as W2.
        destruct (disconnect lg1 n2) as [lg3 n3]; cbn [fst snd] in *.
        split; [eapply frame_trans; eauto|]. split; [congruence|].
        split; [intros _; exact C2|].
        intros Hwf. apply W2. apply (wf_same_net lg1 n1 n2 Hc1 Hn1).
        apply W. now apply (wf_same_net lg n n0).
      + split; [exact F|]. split; [exact Q|]. split; [intros X; now contradiction X|].
        intros Hwf. apply (wf_same_net lg1 n1 n2 Hc1 Hn1).
        apply W. now apply (wf_same_net lg n n0). }
  unfold writeBytes.
  destruct (conn lg) as [c|] eqn:Ec; [|now apply Retry].
  pose proof (connWrite_shape c b n) as [Hc Hn].
  destruct (connWrite c b n) as [[e|] n1]; cbn [fst snd] in *.
  - now apply Retry.
  - split; [apply frame_refl|]. split; [reflexivity|].
    split; [intros X; now contradiction X|].
    intros Hwf. now apply (wf_same_net lg n n1).
Qed.

(** Under a context that is already done, a delivery that has to connect
    first fails with the context's error, and nothing is written. *)
Lemma writeBytes_after_deadline (ctx : context) (b : string) (lg : engine)
      (n : network) (e : error) :
  conn lg = None -> ctxErr ctx (clock n) = Some e ->
  writeBytes ctx b lg n =
  (Some e, lg,
   logEvent (EvDial (if useTcp lg then "tcp" else "udp") (serverAddress lg)
                    (useTcp lg && match tlsConfig lg with
                                  | Some _ => true | None => false end) None) n).
Proof.
  intros Hc He. unfold writeBytes, connect, disconnect, DialContext.
  rewrite Hc, He. cbn. destruct lg; cbn in *. now subst.
Qed.

(** No error among the deliveries of a log. *)
Definition allDelivered (log : list (string * option error)) : Prop :=
  Forall (fun d => snd d = None) log.

(** The drain loop: the messages handed to [writeBytes] are a prefix of the
    queue, in queue order; either all of them were delivered and the queue is
    empty, or the last one returned an error, every one before it was
    delivered, and the rest of the queue was left alone. *)
Lemma flushLoop_spec (ctx : context) (q : list string) :
  forall (lg : engine) (n : network),
    queue lg = q ->
    let r := flushLoop ctx q lg n in
    let log := fst (fst r) in
    let lg' := snd (fst r) in
    q = (map fst log ++ queue lg')%list /\
    ((allDelivered log /\ queue lg' = []) \/
     (exists log0 m e, log = (log0 ++ [(m, Some e)])%list /\ allDelivered log0 /\
                       conn lg' = None)) /\
    frame lg lg' /\
    (wf lg n -> wf lg' (snd r)).
Proof.
  induction q as [|m q IH]; intros lg n Hq; cbn [flushLoop].
  - cbn [fst snd map app]. split; [now rewrite Hq|].
    split; [left; split; [constructor | exact Hq]|].
    split; [apply frame_refl | auto].
  - set (lg0 := setQueue q (queueAvailEv lg) lg).
    pose proof (writeBytes_spec ctx m lg0 n) as (F & Q & Herr & W).
    destruct (writeBytes ctx m lg0 n) as [[[e|] lg1] n1]; cbn [fst snd] in *.
    + cbn [map fst app]. split; [now rewrite Q|].
      split; [right; exists [], m, e; split; [reflexivity|];
              split; [constructor | apply Herr; discriminate]|].
      split; [eapply frame_trans; [apply frame_setQueue | exact F]|].
      intros Hwf. apply W. exact Hwf.
    + specialize (IH lg1 n1 Q).
      destruct (flushLoop ctx q lg1 n1) as [[log lg2] n2]; cbn [fst snd] in *.
      destruct IH as (Hpre & Hcase & F2 & W2).
      split; [cbn [map fst app]; now rewrite <- Hpre|].
      split.
      * destruct Hcase as [[Hall Hnil]|(log0 & m' & e' & -> & Hall & Hconn)].
        -- left. split; [constructor; [reflexivity | exact Hall] | exact Hnil].
        -- right. exists ((m, None) :: log0), m', e'.
           split; [reflexivity|]. split; [constructor; [reflexivity | exact Hall]|].
           exact Hconn.
      * split.
        -- eapply frame_trans; [apply frame_setQueue|].
           eapply frame_trans; [exact F | exact F2].
        -- intros Hwf. apply W2, W. exact Hwf.
Qed.

(** ** Destroy *)

Lemma Destroy_unfold (lg : engine) (n : network) (ctx : context) :
  shutdownOnce lg = false -> workerCtx lg = Some ctx ->
  let r := flushLoop (WithDeadline (clock n + flushTimeout)) (queue lg)
                     (setShutdown true None lg) n in
  Destroy lg n = Some (disconnect (snd (fst r)) (snd r)).
Proof.
  intros H1 H2 r. unfold Destroy, flushQueue. rewrite H1, H2.
  change (setShutdown true None (setShutdown true (Some (WithCancel true)) lg))
    with (setShutdown true None lg).
  change (queue (setShutdown true None lg)) with (queue lg).
  fold r. now destruct r as [[log lg1] n1].
Qed.

(** The engines [Destroy] can be called on: a [sync.Once] that has not fired
    still has its cancel function. *)
Definition live (lg : engine) : Prop :=
  shutdownOnce lg = false -> workerCtx lg <> None.

Lemma Destroy_total (lg : engine) (n : network) :
  live lg -> exists r, Destroy lg n = Some r /\ shutdownOnce (fst r) = true /\
                       (wf lg n -> wf (fst r) (snd r)).
Proof.
  intros L. destruct (shutdownOnce lg) eqn:Once.
  - exists (lg, n). unfold Destroy. rewrite Once.
    split; [reflexivity|]. split; [exact Once | exact (fun H => H)].
  - destruct (workerCtx lg) as [ctx|] eqn:Ctx; [|now elim (L Once)].
    rewrite (Destroy_unfold lg n ctx Once Ctx).
    set (lg0 := setShutdown true None lg).
    pose proof (flushLoop_spec (WithDeadline (clock n + flushTimeout)) (queue lg)
                               lg0 n eq_refl) as (_ & _ & F & W).
    destruct (flushLoop _ (queue lg) lg0 n) as [[log lg1] n1]; cbn [fst snd] in *.
    eexists. split; [reflexivity|]. split.
    + rewrite (frame_shutdownOnce _ _ (proj1 (disconnect_frame lg1 n1))).
      now rewrite (frame_shutdownOnce _ _ F).
    + intros Hwf. apply disconnect_wf, W. exact Hwf.
Qed.

End SyslogFacts.

(** A connected engine with three queued messages, and a collector that
    accepts every write but takes three seconds for each. *)
Definition backlogEngine : Syslog.engine :=
  Syslog.mkEngine (Some 0%nat) "app"%string "127.0.0.1:1468"%string true None false
                  "node1"%string 4242 ["m1"; "m2"; "m3"]%string false 1024 false
                  (Some (Syslog.WithCancel false)).

Definition slowCollector : Syslog.network :=
  Syslog.mkNetwork 0 (fun _ => Syslog.mkOutcome true (3 * nsPerSecond)) 0 1 [].

(** A collector that refuses every dial and every write at once. *)
Definition deadCollector : Syslog.network :=
  Syslog.mkNetwork 0 (fun _ => Syslog.mkOutcome false 0) 0 1 [].

(** C3 does not hold of the code: the drain is not bounded by the five
    seconds.  An engine connected over TCP with three messages queued, and a
    collector that takes three seconds to accept each write: the deadline of
    the drain falls five seconds after it begins, yet all three messages are
    written, the third one six seconds after the drain began, and [Destroy]
    returns after nine. *)
Theorem drain_outlasts_flush_deadline :
  exists r : Syslog.engine * Syslog.network,
    Syslog.Destroy backlogEngine slowCollector = Some r /\
    Syslog.trace (snd r) =
    [Syslog.EvWrite 0 "m1" true; Syslog.EvWrite 0 "m2" true;
     Syslog.EvWrite 0 "m3" true; Syslog.EvClose 0] /\
    Syslog.queue (fst r) = [] /\
    Syslog.clock slowCollector + Syslog.flushTimeout = 5 * nsPerSecond /\
    Syslog.clock (snd r) = 9 * nsPerSecond.
Proof. eexists. split; [reflexivity|]. vm_compute. repeat split. Qed.

(** The deadline is honoured where the context is looked at, in [connect]:
    when the drain has to dial and the collector cannot be reached, [Destroy]
    is over by the deadline, however long the dial would have taken and
    however many messages are queued. *)
Lemma flush_deadline_bounds_dialing (lg : Syslog.engine) (n : Syslog.network)
      (wctx : Syslog.context) :
  Syslog.shutdownOnce lg = false -> Syslog.workerCtx lg = Some wctx ->
  Syslog.conn lg = None ->
  (forall i, Syslog.ok (Syslog.oracle n i) = false) ->
  exists r : Syslog.engine * Syslog.network,
    Syslog.Destroy lg n = Some r /\
    Syslog.clock (snd r) <= Syslog.clock n + Syslog.flushTimeout.
Proof.
  intros Once Ctx Hc Hfail.
  rewrite (SyslogFacts.Destroy_unfold lg n wctx Once Ctx).
  eexists. split; [reflexivity|].
  assert (Hpos : 0 < Syslog.flushTimeout)
    by (unfold Syslog.flushTimeout, nsPerSecond; lia).
  destruct (Syslog.queue lg) as [|m q] eqn:Q.
  - cbn [Syslog.flushLoop fst snd]. unfold Syslog.disconnect.
    cbn [Syslog.conn Syslog.setShutdown]. rewrite Hc. cbn [snd]. lia.
  - cbn [Syslog.flushLoop]. unfold Syslog.writeBytes, Syslog.connect, Syslog.disconnect.
    cbn [Syslog.conn Syslog.setQueue Syslog.setShutdown]. rewrite Hc.
    unfold Syslog.DialContext. cbn [Syslog.ctxErr].
    replace (Syslog.clock n + Syslog.flushTimeout <=? Syslog.clock n) with false
      by (symmetry; apply Z.leb_gt; lia).
    rewrite Hfail.
    destruct (Z.leb_spec (Syslog.clock n + Syslog.flushTimeout)
                (Syslog.clock n + Syslog.took (Syslog.oracle n (Syslog.calls n))))
      as [L|L];
      cbn [fst snd Syslog.conn Syslog.setConn Syslog.clock]; lia.
Qed.

(** What the drain does: after the worker has stopped it hands the queued
    messages to [writeBytes] one at a time, oldest first, under a context whose
    deadline is five seconds after the drain begins; it goes on until the queue
    is empty or a send returns an error, and stops at the first such error,
    leaving the rest of the queue; a send that finds no connection at hand once
    the deadline has passed returns such an error; at the end the connection is
    closed. *)
Theorem drain_stops_at_first_send_error :
  forall (lg : Syslog.engine) (n : Syslog.network) (wctx : Syslog.context),
    Syslog.shutdownOnce lg = false ->
    Syslog.workerCtx lg = Some wctx ->
    let ctx := Syslog.WithDeadline (Syslog.clock n + 5 * 1000000000) in
    let r := Syslog.flushLoop ctx (Syslog.queue lg)
                              (Syslog.setShutdown true None lg) n in
    let log := fst (fst r) in
    exists (lg' : Syslog.engine) (n' : Syslog.network),
      Syslog.Destroy lg n = Some (lg', n') /\
      Syslog.queue lg = (map fst log ++ Syslog.queue lg')%list /\
      ((SyslogFacts.allDelivered log /\ Syslog.queue lg' = []) \/
       (exists log0 m e, log = (log0 ++ [(m, Some e)])%list /\
                         SyslogFacts.allDelivered log0)) /\
      Syslog.conn lg' = None /\
      (forall c, Syslog.conn (snd (fst r)) = Some c ->
                 Syslog.trace n' = (Syslog.trace (snd r) ++ [Syslog.EvClose c])%list) /\
      (forall b lg1 n1 e,
          Syslog.conn lg1 = None ->
          Syslog.ctxErr ctx (Syslog.clock n1) = Some e ->
          fst (fst (Syslog.writeBytes ctx b lg1 n1)) = Some e).
Proof.
  intros lg n wctx Once Ctx ctx r log.
  pose proof (SyslogFacts.Destroy_unfold lg n wctx Once Ctx) as D.
  change (Syslog.clock n + Syslog.flushTimeout) with (Syslog.clock n + 5 * 1000000000) in D.
  cbv zeta in D. fold ctx in D. fold r in D.
  pose proof (SyslogFacts.flushLoop_spec ctx (Syslog.queue lg)
                (Syslog.setShutdown true None lg) n eq_refl) as (Hpre & Hcase & _ & _).
  fold r in Hpre, Hcase. fold log in Hpre, Hcase.
  pose proof (SyslogFacts.disconnect_frame (snd (fst r)) (snd r)) as [_ Q].
  pose proof (SyslogFacts.disconnect_conn (snd (fst r)) (snd r)) as C.
  exists (fst (Syslog.disconnect (snd (fst r)) (snd r))),
         (snd (Syslog.disconnect (snd (fst r)) (snd r))).
  split; [now rewrite D, <- surjective_pairing|].
  split; [now rewrite Q|].
  split.
  { rewrite Q. destruct Hcase as [Hall|(log0 & m & e & E & Hall & _)];
      [left; exact Hall | right; now exists log0, m, e]. }
  split; [exact C|].
  split.
  { intros c Hc. unfold Syslog.disconnect. now rewrite Hc. }
  intros b lg1 n1 e Hc He.
  now rewrite (SyslogFacts.writeBytes_after_deadline ctx b lg1 n1 e Hc He).
Qed.

Lemma drain_stops_at_first_send_error_witness :
  Syslog.shutdownOnce backlogEngine = false /\
  Syslog.workerCtx backlogEngine = Some (Syslog.WithCancel false) /\
  exists (lg' : Syslog.engine) (n' : Syslog.network),
    Syslog.Destroy backlogEngine deadCollector = Some (lg', n') /\
    Syslog.conn lg' = None.
Proof.
  split; [reflexivity|]. split; [reflexivity|].
  destruct (drain_stops_at_first_send_error backlogEngine deadCollector
              (Syslog.WithCancel false) eq_refl eq_refl)
    as (lg' & n' & D & _ & _ & C & _).
  exists lg', n'. split; assumption.
Defined.

(** With a collector that is down, the first message is tried (a write, a
    dial) and the two behind it are left in the queue. *)
Example drain_with_dead_collector :
  option_map (fun r => (Syslog.trace (snd r), Syslog.queue (fst r), Syslog.conn (fst r)))
             (Syslog.Destroy backlogEngine deadCollector)
  = Some ([Syslog.EvWrite 0 "m1" false; Syslog.EvClose 0;
           Syslog.EvDial "tcp" "127.0.0.1:1468" false None],
          ["m2"; "m3"]%string, None).
Proof. vm_compute. reflexivity. Qed.

(** ** Machine arithmetic *)

Lemma wrap64_in_range (x : Z) : in_int64 x -> wrap64 x = x.
Proof.
  unfold in_int64, wrap64, MaxInt64. intros H.
  rewrite Z.mod_small; lia.
Qed.

Lemma wrap64_add_l (a b : Z) : wrap64 (wrap64 a + b) = wrap64 (a + b).
Proof.
  unfold wrap64. f_equal.
  replace ((a + 2 ^ 63) mod 2 ^ 64 - 2 ^ 63 + b + 2 ^ 63)
    with ((a + 2 ^ 63) mod 2 ^ 64 + b) by lia.
  rewrite Zplus_mod_idemp_l. f_equal. lia.
Qed.

Lemma add64_in_range (a b : Z) : in_int64 (a + b) -> add64 a b = a + b.
Proof. apply wrap64_in_range. Qed.

(** ** A platform for the closed examples

    The line ending of the Unix targets; path functions that agree with Go's
    on the absolute, clean, extension-free paths of the examples; ASCII
    lower-casing; sorting by insertion. *)

Definition lowerAscii (c : ascii) : ascii :=
  let n := nat_of_ascii c in
  if (65 <=? n)%nat && (n <=? 90)%nat then ascii_of_nat (n + 32) else c.

Fixpoint lowerString (s : string) : string :=
  match s with
  | EmptyString => EmptyString
  | String c r => String (lowerAscii c) (lowerString r)
  end.

Fixpoint insertByTime (f : File.LogFile) (l : list File.LogFile) : list File.LogFile :=
  match l with
  | [] => [f]
  | g :: r =>
    if File.CreatedAt f <=? File.CreatedAt g then f :: l else g :: insertByTime f r
  end.

Definition sortByTime (l : list File.LogFile) : list File.LogFile :=
  List.fold_right insertByTime [] l.

Lemma olderOrSame_le (a b : File.LogFile) :
  File.olderOrSame a b <-> File.CreatedAt a <= File.CreatedAt b.
Proof. reflexivity. Qed.

Lemma insertByTime_perm (f : File.LogFile) (l : list File.LogFile) :
  Permutation (insertByTime f l) (f :: l).
Proof.
  induction l as [|g r IH]; cbn [insertByTime]; [reflexivity|].
  destruct (File.CreatedAt f <=? File.CreatedAt g); [reflexivity|].
  rewrite IH. apply perm_swap.
Qed.

Lemma sortByTime_perm (l : list File.LogFile) : Permutation (sortByTime l) l.
Proof.
  induction l as [|f r IH]; cbn [sortByTime fold_right]; [reflexivity|].
  fold (sortByTime r). rewrite insertByTime_perm. now constructor.
Qed.

Lemma insertByTime_sorted (f : File.LogFile) (l : list File.LogFile) :
  StronglySorted File.olderOrSame l ->
  StronglySorted File.olderOrSame (insertByTime f l).
Proof.
  induction 1 as [|g r Hr IH Hg]; cbn [insertByTime].
  - repeat constructor.
  - destruct (Z.leb_spec (File.CreatedAt f) (File.CreatedAt g)) as [L|L].
    + constructor; [now constructor|]. constructor; [now apply olderOrSame_le|].
      eapply Forall_impl; [|exact Hg]. intros h. rewrite !olderOrSame_le. lia.
    + constructor; [exact IH|].
      eapply Permutation_Forall; [symmetry; apply insertByTime_perm|].
      constructor; [apply olderOrSame_le; lia | exact Hg].
Qed.

Lemma sortByTime_sorted (l : list File.LogFile) :
  StronglySorted File.olderOrSame (sortByTime l).
Proof.
  induction l as [|f r IH]; cbn [sortByTime fold_right]; [constructor|].
  now apply insertByTime_sorted.
Qed.

#[export] Instance unixPlatform : File.Platform := {|
  File.newLine := NL;
  File.newLineLen := 1;
  File.Separator := "/";
  File.ToSlash := fun s => s;
  File.IsAbs := String.prefix "/";
  File.Join := fun a b => (a ++ "/" ++ b)%string;
  File.Clean := fun s => s;
  File.Base := fun s => s;
  File.Ext := fun _ => EmptyString;
  File.ToLower := lowerString;
  File.SortFunc := sortByTime;
  File.SortFunc_perm := sortByTime_perm;
  File.SortFunc_sorted := sortByTime_sorted
|}.

(** ** The file engine *)

Module FileFacts.
Import File.

Section WithPlatform.
Context {P : Platform}.

(** *** Summation in [int64] *)

Fixpoint total (files : list LogFile) : Z :=
  match files with
  | [] => 0
  | f :: rest => FileSize f + total rest
  end.

Lemma sumSizes_fold (files : list LogFile) :
  forall a : Z,
    List.fold_left (fun acc f => add64 acc (FileSize f)) files (wrap64 a)
    = wrap64 (a + total files).
Proof.
  induction files as [|f rest IH]; intros a; cbn [fold_left total].
  - f_equal. lia.
  - unfold add64 at 2. rewrite wrap64_add_l, IH. f_equal. lia.
Qed.

Lemma sumSizes_total (files : list LogFile) :
  sumSizes files = wrap64 (total files).
Proof. unfold sumSizes. change 0 with (wrap64 0) at 1. apply sumSizes_fold. Qed.

Lemma sumSizes_drop_first (f : LogFile) (rest : list LogFile) :
  sub64 (sumSizes (f :: rest)) (FileSize f) = sumSizes rest.
Proof.
  rewrite !sumSizes_total. unfold sub64. cbn [total].
  replace (wrap64 (FileSize f + total rest) - FileSize f)
    with (wrap64 (FileSize f + total rest) + - FileSize f) by lia.
  rewrite wrap64_add_l. f_equal. lia.
Qed.

(** Without overflow the [int64] sum is the sum. *)
Lemma sumSizes_exact (files : list LogFile) :
  in_int64 (total files) -> sumSizes files = total files.
Proof. intros H. rewrite sumSizes_total. now apply wrap64_in_range. Qed.

(** *** The loops of [purgeFileVault] *)

Lemma cutOld_le (lowest : Z) (files : list LogFile) :
  (cutOld lowest files <= List.length files)%nat.
Proof.
  induction files as [|f rest IH]; cbn [cutOld List.length]; [lia|].
  destruct (Before (CreatedAt f) lowest); lia.
Qed.

Lemma cutOld_before (lowest : Z) (files : list LogFile) :
  Forall (fun f => CreatedAt f < lowest) (firstn (cutOld lowest files) files).
Proof.
  induction files as [|f rest IH]; cbn [cutOld]; [constructor|].
  unfold Before. destruct (Z.ltb_spec (CreatedAt f) lowest) as [L|L]; cbn [firstn];
    constructor; assumption.
Qed.

Lemma cutOld_after (lowest : Z) (files : list LogFile) :
  StronglySorted olderOrSame files ->
  Forall (fun f => lowest <= CreatedAt f) (skipn (cutOld lowest files) files).
Proof.
  induction 1 as [|f rest Hs IH Hf]; cbn [cutOld]; [constructor|].
  unfold Before. destruct (Z.ltb_spec (CreatedAt f) lowest) as [L|L]; cbn [skipn];
    [exact IH|].
  constructor; [exact L|].
  eapply Forall_impl; [|exact Hf]. intros h. rewrite olderOrSame_le. lia.
Qed.

Lemma evict_spec (required : Z) (files : list LogFile) :
  forall idx : nat,
    exists k : nat,
      (k <= List.length files)%nat /\
      evict required files idx (sumSizes files)
      = ((idx + k)%nat, sumSizes (skipn k files)) /\
      (forall j, (j < k)%nat -> sumSizes (skipn j files) > required) /\
      (k = List.length files \/ sumSizes (skipn k files) <= required).
Proof.
  induction files as [|f rest IH]; intros idx; cbn [evict].
  - exists 0%nat. cbn. rewrite Nat.add_0_r. repeat split; auto; lia.
  - destruct (Z.gtb_spec (sumSizes (f :: rest)) required) as [G|G].
    + rewrite sumSizes_drop_first.
      destruct (IH (S idx)) as (k & Hk & E & Hj & Hend).
      exists (S k). cbn [List.length skipn].
      split; [lia|]. split; [rewrite E; f_equal; lia|].
      split.
      * intros [|j] Hlt; cbn [skipn]; [lia | apply Hj; lia].
      * destruct Hend as [->|Hend]; [now left | now right].
    + exists 0%nat. cbn [skipn]. rewrite Nat.add_0_r.
      split; [cbn; lia|]. split; [reflexivity|].
      split; [intros j Hj; lia | now right].
Qed.

(** *** The system calls, one at a time *)

Lemma osMkdirAll_trace (path : string) (w : world) :
  exists res : bool,
    trace (snd (osMkdirAll path w)) = (trace w ++ [EvMkdirAll path res])%list /\
    (fst (osMkdirAll path w) = true -> dir (snd (osMkdirAll path w)) <> None).
Proof.
  unfold osMkdirAll. destruct (dir w) eqn:D; [|destruct (mkdirOk w (calls w))];
    eexists; (split; [reflexivity|]); cbn; try rewrite D; discriminate.
Qed.

Lemma osOpenFile_trace (sep dirpath name : string) (w : world) :
  trace (snd (osOpenFile sep dirpath name w)) =
  (trace w ++ [EvOpenFile (dirpath ++ name) (fst (osOpenFile sep dirpath name w))])%list.
Proof.
  unfold osOpenFile. destruct (dir w) as [entries|]; [|reflexivity].
  destruct (openOk w (calls w) && negb (existsb (isDirNamed name) entries));
    reflexivity.
Qed.

Lemma osOpenFile_writeOk (sep dirpath name : string) (w : world) :
  writeOk (snd (osOpenFile sep dirpath name w)) = writeOk w.
Proof.
  unfold osOpenFile. destruct (dir w) as [entries|]; [|reflexivity].
  destruct (openOk w (calls w) && negb (existsb (isDirNamed name) entries));
    reflexivity.
Qed.

Lemma osMkdirAll_writeOk (path : string) (w : world) :
  writeOk (snd (osMkdirAll path w)) = writeOk w.
Proof.
  unfold osMkdirAll. destruct (dir w); [|destruct (mkdirOk w (calls w))]; reflexivity.
Qed.

Lemma removed_app (tr1 tr2 : list event) :
  removed (tr1 ++ tr2) = (removed tr1 ++ removed tr2)%list.
Proof.
  induction tr1 as [|e tr1 IH]; [reflexivity|].
  destruct e; cbn [removed app]; now rewrite IH.
Qed.

Lemma file_closed_app (tr1 tr2 : list event) :
  closed (tr1 ++ tr2) = (closed tr1 ++ closed tr2)%list.
Proof.
  induction tr1 as [|e tr1 IH]; [reflexivity|].
  destruct e; cbn [closed app]; now rewrite IH.
Qed.

(** The last loop asks [os.Remove] for each file in turn and does nothing
    else. *)
Lemma removeAll_trace (dirpath : string) (files : list LogFile) :
  forall w : world,
    trace (removeAll dirpath files w) =
    (trace w ++ map (fun f => EvRemove (dirpath ++ Name f)) files)%list.
Proof.
  induction files as [|f rest IH]; intros w; cbn [removeAll fold_left map].
  - now rewrite app_nil_r.
  - fold (removeAll dirpath rest (osRemove dirpath (Name f) w)).
    rewrite IH. cbn [osRemove trace setWorld]. now rewrite <- app_assoc.
Qed.

End WithPlatform.

Section Purge.
Context {P : Platform}.

(** [purgeFileVault] only ever asks for files to be removed. *)
Lemma purgeFileVault_trace (lg : engine) (w : world) :
  exists fs : list LogFile,
    trace (snd (purgeFileVault lg w)) =
    (trace w ++ map (fun f => EvRemove (directory lg ++ Name f)) fs)%list.
Proof.
  unfold purgeFileVault.
  destruct ((daysToKeep lg =? 0)%N && (maxFileVaultSize lg =? 0)).
  { exists []. cbn. now rewrite app_nil_r. }
  destruct (dir w) as [files|]; [|exists []; cbn; now rewrite app_nil_r].
  match goal with
  | |- context [let '(a, b) := ?X in _] => destruct X as [cut size]
  end.
  eexists. cbn [snd]. apply removeAll_trace.
Qed.

(** The four-way condition of [openOrRotateFile], as a proposition. *)
Definition due (lg : engine) (now : Time) (msgLen : Z) : Prop :=
  fd lg = None \/
  Day now <> dayOfFile lg \/
  (0 < maxFileSize lg /\
   add64 (currentFileSize lg) msgLen > maxFileSize lg) \/
  (0 < maxFileVaultSize lg /\
   add64 (currentFileVaultSize lg) msgLen > maxFileVaultSize lg).

Lemma rotate_due (lg : engine) (now : Time) (msgLen : Z) :
  rotate lg (Day now) msgLen = true <-> due lg now msgLen.
Proof.
  unfold rotate, due.
  rewrite !orb_true_iff, !andb_true_iff, negb_true_iff, Z.eqb_neq,
    !Z.ltb_lt, !Z.gtb_ltb, !Z.ltb_lt.
  destruct (fd lg); intuition (try discriminate; try lia).
Qed.

(** What a rotation leaves in the trace: the old file, when there was one,
    is synced and closed; files are removed; the directory is made; only
    then, possibly, a file is opened. *)
Lemma rotation_trace (now : Time) (msgLen : Z) (lg : engine) (w : world) :
  rotate lg (Day now) msgLen = true ->
  let r := openOrRotateFile now msgLen lg w in
  exists (fs : list LogFile) (res : bool) (post : list event),
    trace (snd r) =
    (trace w ++
     match fd lg with Some f => [EvSync f; EvClose f] | None => [] end ++
     map (fun f => EvRemove (directory lg ++ Name f)) fs ++
     [EvMkdirAll (directory lg) res] ++ post)%list /\
    closed post = [] /\
    currentFileSize (snd (fst r)) = 0.
Proof.
  intros Hrot. unfold openOrRotateFile. rewrite Hrot. cbn [negb].
  set (st := match fd lg with
             | Some f => (setFd None lg, fileClose f (fileSync f w))
             | None => (lg, w)
             end).
  assert (Hst : directory (fst st) = directory lg /\
                trace (snd st) =
                (trace w ++ match fd lg with
                            | Some f => [EvSync f; EvClose f]
                            | None => []
                            end)%list).
  { subst st. destruct (fd lg); cbn; [|now rewrite app_nil_r].
    now rewrite <- app_assoc. }
  destruct st as [lg1 w1]. cbn [fst snd] in Hst. destruct Hst as [Hd1 Ht1].
  set (lg2 := setSizes 0 (currentFileVaultSize lg1) lg1).
  set (lg3 := if 0 <? maxFileSize lg2
              then (if negb (Day now =? dayOfFile lg2)
                    then setIndex 1 (dayOfFile lg2) lg2
                    else setIndex (add64 (subFileIndex lg2) 1) (dayOfFile lg2) lg2)
              else lg2).
  assert (H3 : directory lg3 = directory lg /\ currentFileSize lg3 = 0).
  { subst lg3 lg2. destruct (0 <? _); [destruct (negb _)|]; now cbn. }
  destruct H3 as [Hd3 Hs3].
  destruct (purgeFileVault_trace lg3 w1) as [fs Hp].
  destruct (purgeFileVault lg3 w1) as [[vault err] w2]. cbn [snd] in Hp.
  set (lg4 := setSizes (currentFileSize lg3) vault lg3).
  assert (H4 : directory lg4 = directory lg /\ currentFileSize lg4 = 0)
    by (subst lg4; now cbn).
  destruct H4 as [Hd4 Hs4].
  destruct (osMkdirAll_trace (directory lg4) w2) as (res & Hm & _).
  destruct (osMkdirAll (directory lg4) w2) as [[|] w3]; cbn [snd] in Hm;
    rewrite Hd4 in Hm.
  - match goal with
    | |- context [osOpenFile ?sep ?d ?name w3] =>
        pose proof (osOpenFile_trace sep d name w3) as Ho;
        destruct (osOpenFile sep d name w3) as [[f|] w4]; cbn [fst snd] in Ho
    end;
      (eexists fs, res, _; cbn [fst snd]; split;
       [rewrite Ho, Hm, Hp, Ht1, Hd3; rewrite <- !app_assoc; reflexivity|];
       split; [reflexivity | exact Hs4]).
  - exists fs, res, []. cbn [fst snd]. split; [|split; [reflexivity | exact Hs4]].
    rewrite Hm, Hp, Ht1, Hd3. now rewrite <- !app_assoc.
Qed.

End Purge.

End FileFacts.

(** ** Sample directory and engine of the closed examples *)

Definition day (n : Z) : Z := n * nsPerDay.

(** Now is day 100; three log files 30, 5 and 1 days old, a sub-directory and
    a file that is not a log. *)
Definition vaultListing : list File.DirEntry :=
  [ File.mkDirEntry "app.2024-03-04.log" false (Some (60000, day 99));
    File.mkDirEntry "archive.log" true (Some (4096, day 10));
    File.mkDirEntry "app.2024-02-04.log" false (Some (50000, day 70));
    File.mkDirEntry "notes.txt" false (Some (10, day 1));
    File.mkDirEntry "APP.2024-02-29.LOG" false (Some (40000, day 95)) ]%string.

Definition vaultWorld : File.world :=
  File.mkWorld (mkTime (day 100) 2024 3 5 0 0 0 0) (Some "/usr/bin/app"%string)
               (Some "/srv"%string) (Some vaultListing) (fun _ => true)
               (fun _ => true) (fun _ => true) (fun _ => true) (fun _ => 0%nat)
               0 [] 3 [].

Definition vaultEngine (f : option nat) : File.engine :=
  File.mkEngine f 0 "/srv/logs/"%string 7 65536 102400 "App"%string 1 5 1000 90000.

(** A directory that is still empty, at a given time; the same world at a
    later time; two timestamps a month apart, on the same day of the month. *)
Definition freshWorld (t : Time) : File.world :=
  File.mkWorld t (Some "/usr/bin/app"%string) (Some "/srv"%string) (Some [])
               (fun _ => true) (fun _ => true) (fun _ => true) (fun _ => true)
               (fun _ => 0%nat) 0 [] 3 [].

Definition elapse (t : Time) (w : File.world) : File.world :=
  File.mkWorld t (File.Executable w) (File.Getwd w) (File.dir w) (File.removeOk w)
               (File.mkdirOk w) (File.openOk w) (File.writeOk w) (File.shortWrite w)
               (File.calls w) (File.fdNames w) (File.nextFd w) (File.trace w).

Definition march5 : Time := mkTime (19787 * nsPerDay) 2024 3 5 0 0 0 0.
Definition april5 : Time := mkTime (19818 * nsPerDay) 2024 4 5 0 0 0 0.
Definition march6 : Time := mkTime (19788 * nsPerDay) 2024 3 6 0 0 0 0.

(** ** Rotation decision (C4) *)

(** The decision the code takes: [openOrRotateFile] rotates (its [MkdirAll] is
    issued) exactly when no file is open, or the day of the month of the
    timestamp differs from [dayOfFile], or [maxFileSize] is set and
    [currentFileSize + msgLen] exceeds it, or [maxFileVaultSize] is set and
    [currentFileVaultSize + msgLen] exceeds it; otherwise it returns with the
    engine and the world as they were.  The sums are Go's [int64] sums. *)
Theorem rotation_decision :
  forall (P : File.Platform) (now : Time) (msgLen : Z) (lg : File.engine)
         (w : File.world),
    let r := File.openOrRotateFile now msgLen lg w in
    let due :=
      File.fd lg = None \/
      Day now <> File.dayOfFile lg \/
      (0 < File.maxFileSize lg /\
       add64 (File.currentFileSize lg) msgLen > File.maxFileSize lg) \/
      (0 < File.maxFileVaultSize lg /\
       add64 (File.currentFileVaultSize lg) msgLen > File.maxFileVaultSize lg) in
    (due <->
     exists res, In (File.EvMkdirAll (File.directory lg) res)
                    (skipn (List.length (File.trace w)) (File.trace (snd r)))) /\
    (due ->
     File.currentFileSize (snd (fst r)) = 0 /\
     forall f, File.fd lg = Some f ->
               File.closed (File.trace (snd r)) = (File.closed (File.trace w) ++ [f])%list) /\
    (~ due -> r = (false, lg, w)).
Proof.
  intros P now msgLen lg w r due.
  pose proof (FileFacts.rotate_due lg now msgLen) as Hdue.
  change (FileFacts.due lg now msgLen) with due in Hdue.
  destruct (File.rotate lg (Day now) msgLen) eqn:Hrot.
  - assert (D : due) by now apply Hdue.
    destruct (FileFacts.rotation_trace now msgLen lg w Hrot)
      as (fs & res & post & Ht & Hpost & Hsize).
    fold r in Ht, Hsize.
    split; [|split].
    + split; [intros _|intros _; exact D].
      exists res. rewrite Ht, skipn_app, skipn_all, Nat.sub_diag. cbn [skipn app].
      apply in_or_app. right. apply in_or_app. right. now left.
    + intros _. split; [exact Hsize|].
      intros f Hf. rewrite Ht, Hf, !FileFacts.file_closed_app, Hpost.
      cbn [File.closed]. rewrite app_nil_r.
      replace (File.closed (map (fun f0 => File.EvRemove (File.directory lg ++ File.Name f0)) fs))
        with (@nil nat); [reflexivity|].
      clear. induction fs as [|x fs IH]; [reflexivity | exact IH].
    + intros ND. now elim ND.
  - assert (ND : ~ due) by (intros D; apply Hdue in D; discriminate).
    assert (E : r = (false, lg, w))
      by (subst r; unfold File.openOrRotateFile; now rewrite Hrot).
    split; [|split].
    + split; [intros D; now elim ND|].
      rewrite E. cbn [snd]. rewrite skipn_all. intros [res []].
    + intros D. now elim ND.
    + intros _. exact E.
Qed.

(** With an open file of the same day and room left, nothing happens; the
    next day the file is rotated. *)
Lemma rotation_decision_witness :
  File.openOrRotateFile (mkTime (day 100) 2024 3 5 0 0 0 0) 100
                        (vaultEngine (Some 2%nat)) vaultWorld
  = (false, vaultEngine (Some 2%nat), vaultWorld) /\
  File.currentFileSize
    (snd (fst (File.openOrRotateFile (mkTime (day 101) 2024 3 6 0 0 0 0) 100
                                     (vaultEngine (Some 2%nat)) vaultWorld))) = 0.
Proof.
  split.
  - apply (rotation_decision unixPlatform). vm_compute.
    intros [H|[H|[[_ H]|[_ H]]]]; try discriminate; now apply H.
  - apply (rotation_decision unixPlatform). right. left. vm_compute. discriminate.
Defined.

(** C4 does not hold of the code: a write on another calendar day does not
    always rotate.  The day compared is the day of the month ([now.Day()]
    against [dayOfFile]), so a month later, on the same day number, the open
    file is kept.  An engine made by [NewEngine] writes a first line on
    5 March 2024, which opens [app.2024-03-05.log], and a second line on
    5 April 2024: [openOrRotateFile] returns with the engine and the world as
    they were, nothing is closed or opened, and the April line goes into the
    March file. *)
Theorem same_day_number_a_month_later :
  exists (lg0 lg1 lg2 : File.engine) (w0 w1 w2 : File.world),
    File.NewEngine (File.mkOptions "App" "/srv/logs" 7 0 0) (freshWorld march5)
    = (Some lg0, w0) /\
    File.Info march5 "first" true lg0 w0 = (lg1, w1) /\
    File.Info april5 "second" true lg1 (elapse april5 w1) = (lg2, w2) /\
    Format march5 "2006-01-02" <> Format april5 "2006-01-02" /\
    File.openOrRotateFile april5 7 lg1 (elapse april5 w1)
    = (false, lg1, elapse april5 w1) /\
    File.trace w2 =
    [File.EvMkdirAll "/srv/logs/" true;
     File.EvOpenFile "/srv/logs/app.2024-03-05.log" (Some 3%nat);
     File.EvWriteString 3 "first" true; File.EvWriteString 3 NL true;
     File.EvWriteString 3 "second" true; File.EvWriteString 3 NL true].
Proof.
  do 6 eexists.
  split; [vm_compute; reflexivity|].
  split; [vm_compute; reflexivity|].
  split; [vm_compute; reflexivity|].
  split; [vm_compute; discriminate|].
  split; vm_compute; reflexivity.
Qed.

(** The directory follows the engine: a line of 6 bytes on one day and one of
    7 bytes on the next leave two files of these sizes, and the vault size
    after the rotation counts the file written before it. *)
Example vault_size_counts_the_file_written_before :
  exists (lg0 lg1 lg2 : File.engine) (w0 w1 w2 : File.world),
    File.NewEngine (File.mkOptions "App" "/srv/logs" 7 0 204800) (freshWorld march5)
    = (Some lg0, w0) /\
    File.Info march5 "hello" true lg0 w0 = (lg1, w1) /\
    File.Info march6 "world!" true lg1 (elapse march6 w1) = (lg2, w2) /\
    File.currentFileVaultSize lg1 = 6 /\
    File.currentFileSize lg2 = 7 /\
    File.currentFileVaultSize lg2 = 13 /\
    option_map (map (fun e => (File.deName e, option_map fst (File.deInfo e))))
               (File.dir w2)
    = Some [("app.2024-03-05.log"%string, Some 6);
            ("app.2024-03-06.log"%string, Some 7)].
Proof.
  do 6 eexists.
  split; [vm_compute; reflexivity|].
  split; [vm_compute; reflexivity|].
  split; [vm_compute; reflexivity|].
  vm_compute. repeat split.
Qed.

(** Without overflow the sums of the condition are the plain sums. *)
Lemma rotation_sums_exact (lg : File.engine) (msgLen : Z) :
  in_int64 (File.currentFileSize lg + msgLen) ->
  in_int64 (File.currentFileVaultSize lg + msgLen) ->
  add64 (File.currentFileSize lg) msgLen = File.currentFileSize lg + msgLen /\
  add64 (File.currentFileVaultSize lg) msgLen = File.currentFileVaultSize lg + msgLen.
Proof. intros H1 H2. split; now apply add64_in_range. Qed.

(** ** Vault purge (C7) *)

(** The cutoffs as the loops of [purgeFileVault] compute them. *)
Lemma purge_cutoffs (P : File.Platform) (lg : File.engine) (w : File.world)
      (files : list File.DirEntry) :
  (File.daysToKeep lg <> 0%N \/ File.maxFileVaultSize lg <> 0) ->
  File.dir w = Some files ->
  let sorted := File.SortFunc (File.filterFiles files) in
  let lowest := File.lowestTime w (File.daysToKeep lg) in
  let required := sub64 (File.maxFileVaultSize lg) (10 * 1024) in
  exists c1 cut : nat,
    (c1 <= cut <= List.length sorted)%nat /\
    (File.daysToKeep lg <> 0%N ->
     Forall (fun f => File.CreatedAt f < lowest) (firstn c1 sorted) /\
     Forall (fun f => lowest <= File.CreatedAt f) (skipn c1 sorted)) /\
    (File.daysToKeep lg = 0%N -> c1 = 0%nat) /\
    (0 < File.maxFileVaultSize lg ->
     (forall i, (c1 <= i < cut)%nat ->
                File.sumSizes (skipn i sorted) > required) /\
     (cut = List.length sorted \/ File.sumSizes (skipn cut sorted) <= required)) /\
    (File.maxFileVaultSize lg <= 0 -> cut = c1) /\
    File.purgeFileVault lg w =
    (File.sumSizes (skipn cut sorted), false,
     File.removeAll (File.directory lg) (firstn cut sorted) w).
Proof.
  intros Hcap Hdir sorted lowest required.
  pose proof (File.SortFunc_sorted (File.filterFiles files)) as Hsorted.
  fold sorted in Hsorted.
  set (c1 := if (0 <? File.daysToKeep lg)%N then File.cutOld lowest sorted else 0%nat).
  assert (Hc1 : (c1 <= List.length sorted)%nat).
  { subst c1. destruct (0 <? File.daysToKeep lg)%N; [apply FileFacts.cutOld_le | lia]. }
  assert (Hcond : ((File.daysToKeep lg =? 0)%N && (File.maxFileVaultSize lg =? 0)) = false).
  { apply andb_false_iff. destruct Hcap as [H|H];
      [left; now apply N.eqb_neq | right; now apply Z.eqb_neq]. }
  assert (Hdays : File.daysToKeep lg <> 0%N ->
                  Forall (fun f => File.CreatedAt f < lowest) (firstn c1 sorted) /\
                  Forall (fun f => lowest <= File.CreatedAt f) (skipn c1 sorted)).
  { intros Hd. subst c1.
    replace (0 <? File.daysToKeep lg)%N with true
      by (symmetry; apply N.ltb_lt; lia).
    split; [apply FileFacts.cutOld_before | now apply FileFacts.cutOld_after]. }
  assert (Hnodays : File.daysToKeep lg = 0%N -> c1 = 0%nat).
  { intros Hd. subst c1. now rewrite Hd. }
  destruct (Z.ltb_spec 0 (File.maxFileVaultSize lg)) as [Hv|Hv].
  - destruct (FileFacts.evict_spec required (skipn c1 sorted) c1)
      as (k & Hk & He & Hj & Hend).
    rewrite length_skipn in Hk, Hend. rewrite skipn_skipn in He, Hend.
    exists c1, (c1 + k)%nat.
    split; [lia|].
    split; [exact Hdays|]. split; [exact Hnodays|]. split.
    { intros _. split.
      - intros i Hi. specialize (Hj (i - c1)%nat ltac:(lia)).
        rewrite skipn_skipn in Hj. now replace (i - c1 + c1)%nat with i in Hj by lia.
      - replace (c1 + k)%nat with (k + c1)%nat by lia.
        destruct Hend as [->|Hend]; [left; lia | now right]. }
    split; [lia|].
    unfold File.purgeFileVault. rewrite Hcond, Hdir.
    fold sorted. fold lowest. fold c1.
    replace (0 <? File.maxFileVaultSize lg) with true by (symmetry; now apply Z.ltb_lt).
    change File.minFileSize with (10 * 1024). fold required.
    rewrite He. now replace (k + c1)%nat with (c1 + k)%nat by lia.
  - exists c1, c1.
    split; [lia|].
    split; [exact Hdays|]. split; [exact Hnodays|]. split; [lia|].
    split; [reflexivity|].
    unfold File.purgeFileVault. rewrite Hcond, Hdir.
    fold sorted. fold lowest. fold c1.
    replace (0 <? File.maxFileVaultSize lg) with false
      by (symmetry; now apply Z.ltb_ge).
    reflexivity.
Qed.

(** *** The claim's words

    A name ends in [.log], in any letter case, when its last four bytes,
    lower-cased, are [.log]; the log files of a listing are its entries that
    are not directories, bear such a name and have readable file information,
    in the order of the listing. *)
Definition endsInDotLog {P : File.Platform} (name : string) : bool :=
  (4 <=? String.length name)%nat &&
  String.eqb (File.ToLower (substring (String.length name - 4) 4 name)) ".log".

Definition logFilesOf {P : File.Platform} (files : list File.DirEntry)
  : list File.LogFile :=
  List.flat_map
    (fun e =>
       match File.deInfo e with
       | Some (size, created) =>
           if negb (File.deIsDir e) && endsInDotLog (File.deName e)
           then [File.mkLogFile (File.deName e) size created] else []
       | None => []
       end) files.

(** The names whose [os.Remove] succeeds, when the files [fs] are removed one
    after the other starting with system call number [k]. *)
Fixpoint removedNames (ok : nat -> bool) (k : nat) (fs : list File.LogFile)
  : list string :=
  match fs with
  | [] => []
  | f :: rest =>
    ((if ok k then [File.Name f] else []) ++ removedNames ok (S k) rest)%list
  end.

Definition notNamed (names : list string) (e : File.DirEntry) : bool :=
  negb (List.existsb (String.eqb (File.deName e)) names).

Lemma isLogName_endsInDotLog (P : File.Platform) (name : string) :
  File.isLogName name = endsInDotLog name.
Proof.
  unfold File.isLogName, endsInDotLog, sliceFrom.
  destruct (Nat.ltb_spec (String.length name) 4) as [L|L].
  - cbn [orb negb]. symmetry. apply andb_false_iff. left. apply Nat.leb_gt. lia.
  - cbn [orb]. rewrite negb_involutive.
    replace (String.length name - (String.length name - 4))%nat with 4%nat by lia.
    replace (4 <=? String.length name)%nat with true
      by (symmetry; apply Nat.leb_le; lia).
    reflexivity.
Qed.

Lemma filterFiles_logFilesOf (P : File.Platform) (files : list File.DirEntry) :
  File.filterFiles files = logFilesOf files.
Proof.
  induction files as [|e files IH]; [reflexivity|].
  cbn [File.filterFiles logFilesOf flat_map]. fold (logFilesOf files).
  rewrite isLogName_endsInDotLog, IH.
  destruct (File.deIsDir e), (endsInDotLog (File.deName e)),
    (File.deInfo e) as [[size created]|]; reflexivity.
Qed.

Lemma removeAll_dir (dirpath : string) (fs : list File.LogFile) :
  forall (w : File.world) (files : list File.DirEntry),
    File.dir w = Some files ->
    File.dir (File.removeAll dirpath fs w) =
    Some (List.filter
            (notNamed (removedNames (File.removeOk w) (File.calls w) fs)) files).
Proof.
  induction fs as [|f fs IH]; intros w files Hd; cbn [File.removeAll fold_left].
  - rewrite Hd. f_equal. symmetry. apply forallb_filter_id.
    apply forallb_forall. now intros.
  - fold (File.removeAll dirpath fs (File.osRemove dirpath (File.Name f) w)).
    set (w1 := File.osRemove dirpath (File.Name f) w).
    assert (H1 : File.removeOk w1 = File.removeOk w /\ File.calls w1 = S (File.calls w))
      by (split; reflexivity).
    destruct H1 as [Ho Hc].
    cbn [removedNames].
    destruct (File.removeOk w (File.calls w)) eqn:Hok.
    + assert (Hd1 : File.dir w1 =
                    Some (List.filter
                            (fun e => negb (String.eqb (File.deName e) (File.Name f)))
                            files)).
      { subst w1. unfold File.osRemove. rewrite Hok, Hd. reflexivity. }
      rewrite (IH w1 _ Hd1), Ho, Hc. f_equal.
      clear. induction files as [|e files IHf]; [reflexivity|].
      cbn [filter app]. unfold notNamed at 2. cbn [existsb].
      destruct (String.eqb (File.deName e) (File.Name f)); cbn [negb orb filter].
      * exact IHf.
      * fold (notNamed (removedNames (File.removeOk w) (S (File.calls w)) fs) e).
        destruct (notNamed _ e); [f_equal|]; exact IHf.
    + assert (Hd1 : File.dir w1 = Some files).
      { subst w1. unfold File.osRemove. rewrite Hok. exact Hd. }
      rewrite (IH w1 _ Hd1), Ho, Hc. reflexivity.
Qed.

(** C7 as stated does not hold of the code: the files before the cutoff are
    not always deleted, and what is returned is not always the total size of
    the files that remain.  [os.Remove] may fail, and its error is dropped:
    in the sample vault with removals that fail, the purge asks for the two
    oldest log files to be removed and returns 60000, the size of the newest
    one, while all three log files, 150000 bytes together, are still there. *)
Lemma failed_removals_stay_in_the_vault :
  let stubborn :=
    File.mkWorld (File.Now vaultWorld) (File.Executable vaultWorld)
                 (File.Getwd vaultWorld) (File.dir vaultWorld) (fun _ => false)
                 (File.mkdirOk vaultWorld) (File.openOk vaultWorld)
                 (File.writeOk vaultWorld) (File.shortWrite vaultWorld) 0 [] 3 [] in
  let r := File.purgeFileVault (vaultEngine None) stubborn in
  File.removed (File.trace (snd r))
  = ["/srv/logs/app.2024-02-04.log"; "/srv/logs/APP.2024-02-29.LOG"]%string /\
  File.dir (snd r) = Some vaultListing /\
  fst (fst r) = 60000 /\
  FileFacts.total (logFilesOf vaultListing) = 150000.
Proof. vm_compute. repeat split. Qed.

(** C7, amended: on a purge pass with a cap set, the log files of the
    directory listing are sorted by creation time; with a retention cap the
    cutoff [c1] is moved past exactly the files created before now minus
    [daysToKeep] days; with a vault cap the cutoff moves on from there, oldest
    first, for as long as the sizes of the files from the cutoff on add up to
    more than [maxFileVaultSize - 10KB], up to the final cutoff [cut];
    [os.Remove] is called for exactly the files before [cut], oldest first,
    and its errors are dropped: the entries whose removal succeeded are gone
    from the directory and all others are still there; and the sum of the
    sizes of the files from [cut] on is returned.  When the directory cannot
    be read, nothing is done and 0 is returned with the error.  The number of
    days is Go's [-int(daysToKeep)], sums and differences are Go's [int64]
    ones. *)
Theorem purge_deletes_oldest_first :
  forall (P : File.Platform) (lg : File.engine) (w : File.world),
    (File.daysToKeep lg <> 0%N \/ File.maxFileVaultSize lg <> 0) ->
    let lowest :=
      UnixNano (File.Now w) +
      neg64 (wrap64 (Z.of_N (File.daysToKeep lg))) * nsPerDay in
    let required := sub64 (File.maxFileVaultSize lg) (10 * 1024) in
    let size (l : list File.LogFile) := wrap64 (FileFacts.total l) in
    match File.dir w with
    | None => File.purgeFileVault lg w = (0, true, w)
    | Some files =>
      exists (sorted : list File.LogFile) (c1 cut : nat) (w' : File.world),
        Permutation sorted (logFilesOf files) /\
        StronglySorted (fun a b => File.CreatedAt a <= File.CreatedAt b) sorted /\
        (c1 <= cut <= List.length sorted)%nat /\
        (File.daysToKeep lg <> 0%N ->
         Forall (fun f => File.CreatedAt f < lowest) (firstn c1 sorted) /\
         Forall (fun f => lowest <= File.CreatedAt f) (skipn c1 sorted)) /\
        (File.daysToKeep lg = 0%N -> c1 = 0%nat) /\
        (0 < File.maxFileVaultSize lg ->
         (forall i, (c1 <= i < cut)%nat -> size (skipn i sorted) > required) /\
         (cut = List.length sorted \/ size (skipn cut sorted) <= required)) /\
        (File.maxFileVaultSize lg <= 0 -> cut = c1) /\
        File.purgeFileVault lg w = (size (skipn cut sorted), false, w') /\
        File.trace w' =
        (File.trace w ++
         map (fun f => File.EvRemove (File.directory lg ++ File.Name f))
             (firstn cut sorted))%list /\
        File.dir w' =
        Some (List.filter
                (notNamed (removedNames (File.removeOk w) (File.calls w)
                                        (firstn cut sorted)))
                files)
    end.
Proof.
  intros P lg w Hcap lowest required size.
  destruct (File.dir w) as [files|] eqn:Hdir.
  2:{ unfold File.purgeFileVault. rewrite Hdir.
      replace ((File.daysToKeep lg =? 0)%N && (File.maxFileVaultSize lg =? 0))
        with false; [reflexivity|].
      symmetry. apply andb_false_iff. destruct Hcap as [H|H];
        [left; now apply N.eqb_neq | right; now apply Z.eqb_neq]. }
  destruct (purge_cutoffs P lg w files Hcap Hdir)
    as (c1 & cut & Hle & Hdays & Hnodays & Hvault & Hnovault & Hrun).
  pose proof (File.SortFunc_perm (File.filterFiles files)) as Hperm.
  pose proof (File.SortFunc_sorted (File.filterFiles files)) as Hsorted.
  rewrite filterFiles_logFilesOf in Hperm at 2.
  exists (File.SortFunc (File.filterFiles files)), c1, cut,
    (File.removeAll (File.directory lg)
       (firstn cut (File.SortFunc (File.filterFiles files))) w).
  split; [exact Hperm|]. split; [exact Hsorted|]. split; [exact Hle|].
  split; [exact Hdays|]. split; [exact Hnodays|]. split.
  { intros Hv. destruct (Hvault Hv) as [H1 H2]. subst size.
    split.
    - intros i Hi. rewrite <- FileFacts.sumSizes_total. now apply H1.
    - rewrite <- FileFacts.sumSizes_total. exact H2. }
  split; [exact Hnovault|]. split.
  { subst size. cbv beta. rewrite <- FileFacts.sumSizes_total. exact Hrun. }
  split; [apply FileFacts.removeAll_trace | now apply removeAll_dir].
Qed.

(** The sample vault: the 30 days old file goes for its age, the next oldest
    for the size budget of 100KB less 10KB, and the newest stays. *)
Lemma purge_deletes_oldest_first_witness :
  (File.daysToKeep (vaultEngine None) <> 0%N \/
   File.maxFileVaultSize (vaultEngine None) <> 0) /\
  exists (sorted : list File.LogFile) (cut : nat) (w' : File.world),
    File.purgeFileVault (vaultEngine None) vaultWorld
    = (wrap64 (FileFacts.total (skipn cut sorted)), false, w') /\
    Permutation sorted (logFilesOf vaultListing) /\
    File.dir w' =
    Some (List.filter
            (notNamed (removedNames (File.removeOk vaultWorld) 0 (firstn cut sorted)))
            vaultListing).
Proof.
  assert (Hcap : File.daysToKeep (vaultEngine None) <> 0%N \/
                 File.maxFileVaultSize (vaultEngine None) <> 0)
    by (left; discriminate).
  split; [exact Hcap|].
  pose proof (purge_deletes_oldest_first unixPlatform (vaultEngine None) vaultWorld
                Hcap) as H.
  cbv zeta in H. change (File.dir vaultWorld) with (Some vaultListing) in H.
  cbv iota beta in H.
  destruct H as (sorted & c1 & cut & w' & Hperm & _ & _ & _ & _ & _ & _ & Hp & _ & Hd).
  exists sorted, cut, w'. split; [exact Hp|]. split; [exact Hperm | exact Hd].
Defined.

Example purge_of_the_sample_vault :
  let r := File.purgeFileVault (vaultEngine None) vaultWorld in
  fst (fst r) = 60000 /\
  File.removed (File.trace (snd r))
  = ["/srv/logs/app.2024-02-04.log"; "/srv/logs/APP.2024-02-29.LOG"]%string /\
  option_map (map File.deName) (File.dir (snd r))
  = Some ["app.2024-03-04.log"; "archive.log"; "notes.txt"]%string.
Proof. vm_compute. repeat split. Qed.

(** For the values [NewEngine] allows, the retention limit and the size
    budget are the plain differences. *)
Lemma purge_limits_exact (w : File.world) (days : N) (maxVault : Z) :
  (days <= 365)%N -> 0 <= maxVault <= MaxInt64 ->
  File.lowestTime w days = UnixNano (File.Now w) - Z.of_N days * nsPerDay /\
  sub64 maxVault (10 * 1024) = maxVault - 10 * 1024.
Proof.
  intros Hd Hv. unfold File.lowestTime, neg64, sub64. split.
  - rewrite (wrap64_in_range (Z.of_N days)) by (unfold in_int64, MaxInt64; lia).
    rewrite wrap64_in_range by (unfold in_int64, MaxInt64; lia). lia.
  - apply wrap64_in_range. unfold in_int64, MaxInt64 in *. lia.
Qed.

(** ** Construction clamps (C8) *)

Lemma clampLimit_spec (v : N) (minimum : Z) :
  0 <= minimum <= MaxInt64 ->
  File.clampLimit v minimum =
  if (v =? 0)%N then 0 else Z.max minimum (Z.min (Z.of_N v) MaxInt64).
Proof.
  intros Hm. unfold File.clampLimit.
  destruct (N.ltb_spec 0 v) as [Hv|Hv], (N.eqb_spec v 0) as [Hz|Hz]; try lia.
  destruct (Z.ltb_spec MaxInt64 (Z.of_N v)); [lia|].
  destruct (Z.ltb_spec (Z.of_N v) minimum); lia.
Qed.

(** C8: a file engine that [NewEngine] returns has [maxFileSize] zero when the
    option is zero and otherwise the option raised to at least 10KB (and cut at
    the largest [int64]); [maxFileVaultSize] zero when the option is zero and
    otherwise the option raised to at least 100KB (cut likewise) and then to at
    least [maxFileSize]; and [daysToKeep] the option lowered to at most 365. *)
Theorem construction_clamps :
  forall (P : File.Platform) (opts : File.Options) (w w' : File.world)
         (lg : File.engine),
    File.NewEngine opts w = (Some lg, w') ->
    (File.MaxFileSize opts <> 0%N ->
     10 * 1024 <= File.maxFileSize lg /\
     File.maxFileSize lg =
     Z.max (10 * 1024) (Z.min (Z.of_N (File.MaxFileSize opts)) MaxInt64)) /\
    (File.MaxFileSize opts = 0%N -> File.maxFileSize lg = 0) /\
    (File.MaxFileVaultSize opts <> 0%N ->
     100 * 1024 <= File.maxFileVaultSize lg /\
     File.maxFileSize lg <= File.maxFileVaultSize lg /\
     File.maxFileVaultSize lg =
     Z.max (File.maxFileSize lg)
           (Z.max (100 * 1024) (Z.min (Z.of_N (File.MaxFileVaultSize opts)) MaxInt64))) /\
    (File.MaxFileVaultSize opts = 0%N -> File.maxFileVaultSize lg = 0) /\
    (File.daysToKeep lg <= 365)%N /\
    File.daysToKeep lg = N.min (File.DaysToKeep opts) 365.
Proof.
  intros P opts w w' lg. unfold File.NewEngine.
  destruct (if (String.length (File.Prefix opts) =? 0)%nat
            then File.defaultPrefix w else Some (File.Prefix opts)) as [pfx|];
    [|discriminate].
  destruct (File.targetDirectory w opts) as [d|]; [|discriminate].
  match goal with
  | |- context [File.purgeFileVault ?e w] =>
      destruct (File.purgeFileVault e w) as [[vault err] w1]
  end.
  intros H. inversion H; subst lg w'; clear H.
  cbn [File.maxFileSize File.maxFileVaultSize File.daysToKeep File.setSizes].
  rewrite !clampLimit_spec by (unfold File.minFileSize, File.minFileVaultSize, MaxInt64; lia).
  unfold File.minFileSize, File.minFileVaultSize.
  set (vs := Z.max (10 * 1024) (Z.min (Z.of_N (File.MaxFileSize opts)) MaxInt64)).
  set (vv := Z.max (100 * 1024) (Z.min (Z.of_N (File.MaxFileVaultSize opts)) MaxInt64)).
  assert (Hvs : 10 * 1024 <= vs) by (subst vs; lia).
  assert (Hvv : 100 * 1024 <= vv) by (subst vv; lia).
  destruct (N.eqb_spec (File.MaxFileSize opts) 0) as [Hs|Hs],
           (N.ltb_spec 0 (File.MaxFileVaultSize opts)) as [Hv|Hv],
           (N.eqb_spec (File.MaxFileVaultSize opts) 0) as [Hz|Hz],
           (N.ltb_spec (File.DaysToKeep opts) 365) as [Hd|Hd];
    cbv iota;
    repeat match goal with
           | |- context [?a <? ?b] => destruct (Z.ltb_spec a b)
           end;
    repeat split; intros; try lia.
Qed.

Lemma construction_clamps_witness :
  exists (lg : File.engine) (w' : File.world),
    File.NewEngine (File.mkOptions "App" "/srv/logs" 1000 1 5) vaultWorld = (Some lg, w') /\
    File.maxFileSize lg = 10240 /\
    File.maxFileVaultSize lg = 102400 /\
    File.daysToKeep lg = 365%N.
Proof.
  destruct (File.NewEngine (File.mkOptions "App" "/srv/logs" 1000 1 5) vaultWorld)
    as [[lg|] w'] eqn:E; [|vm_compute in E; discriminate E].
  exists lg, w'. split; [reflexivity|].
  destruct (construction_clamps unixPlatform _ _ _ _ E)
    as ((_ & Hs) & _ & (_ & _ & Hv) & _ & _ & Hd).
  - discriminate.
  - discriminate.
  - rewrite Hv, Hs, Hd. repeat split.
Defined.

(** ** Destroy, twice (C9) *)

(** An engine as [NewEngine] returns it can be destroyed: it has its cancel
    function, no connection and an empty queue. *)
Lemma NewEngine_live (p : Syslog.process) (opts : Syslog.Options) (lg : Syslog.engine) :
  Syslog.NewEngine p opts = Some lg ->
  SyslogFacts.live lg /\ Syslog.shutdownOnce lg = false /\
  Syslog.conn lg = None /\ Syslog.queue lg = [].
Proof.
  unfold Syslog.NewEngine.
  destruct (Nat.eqb (String.length (Syslog.AppName opts)) 0);
    [destruct (Syslog.defaultAppName p); [|discriminate]|];
    intros H; inversion H; subst lg; clear H;
    unfold SyslogFacts.live; cbn; repeat split; discriminate.
Qed.

(** The file a file engine holds has not been closed, and no file has been
    closed twice. *)
Definition fileOpenOnce (lg : File.engine) (w : File.world) : Prop :=
  NoDup (File.closed (File.trace w)) /\
  forall f, File.fd lg = Some f -> ~ In f (File.closed (File.trace w)).

(** C9: for the syslog engine and for the file engine alike, [Destroy] does not
    panic, a second [Destroy] right after the first returns the engine and the
    outside world exactly as the first left them (nothing is closed again), and
    no connection and no file is closed twice. *)
Theorem destroy_twice_is_destroy_once :
  (forall (lg : Syslog.engine) (n : Syslog.network),
      SyslogFacts.live lg ->
      exists r : Syslog.engine * Syslog.network,
        Syslog.Destroy lg n = Some r /\
        Syslog.Destroy (fst r) (snd r) = Some r /\
        (SyslogFacts.wf lg n -> NoDup (Syslog.closed (Syslog.trace (snd r))))) /\
  (forall (P : File.Platform) (lg : File.engine) (w : File.world),
      let r := File.Destroy lg w in
      File.Destroy (fst r) (snd r) = r /\
      File.fd (fst r) = None /\
      (fileOpenOnce lg w -> NoDup (File.closed (File.trace (snd r))))).
Proof.
  split.
  - intros lg n L.
    destruct (SyslogFacts.Destroy_total lg n L) as (r & D & Once & W).
    exists r. split; [exact D|]. split.
    + unfold Syslog.Destroy. rewrite Once. now rewrite <- surjective_pairing.
    + intros Hwf. apply (W Hwf).
  - intros P lg w r. subst r. unfold File.Destroy.
    destruct (File.fd lg) as [f|] eqn:Hfd; cbn [fst snd File.fd File.setFd].
    + split; [reflexivity|]. split; [reflexivity|].
      intros [ND Hopen]. cbn [File.fileClose File.fileSync File.logEvent File.trace
                                File.setWorld].
      rewrite !FileFacts.file_closed_app. cbn [File.closed]. rewrite app_nil_r.
      apply NoDup_app_remove_l with (l := []). cbn [app].
      apply Permutation_NoDup with (l := f :: File.closed (File.trace w));
        [apply Permutation_cons_append|].
      constructor; [now apply Hopen | exact ND].
    + rewrite Hfd. split; [reflexivity|]. split; [reflexivity|]. now intros [ND _].
Qed.

Lemma destroy_twice_is_destroy_once_witness :
  (exists r : Syslog.engine * Syslog.network,
      Syslog.Destroy backlogEngine deadCollector = Some r /\
      Syslog.Destroy (fst r) (snd r) = Some r) /\
  (let r := File.Destroy (vaultEngine (Some 2%nat)) vaultWorld in
   File.Destroy (fst r) (snd r) = r /\ File.fd (fst r) = None).
Proof.
  destruct destroy_twice_is_destroy_once as [Hsys Hfile]. split.
  - destruct (Hsys backlogEngine deadCollector) as (r & D1 & D2 & _).
    + intros _. discriminate.
    + exists r. split; assumption.
  - destruct (Hfile unixPlatform (vaultEngine (Some 2%nat)) vaultWorld) as (H1 & H2 & _).
    split; assumption.
Defined.

Example destroy_closes_the_file_once :
  File.trace (snd (File.Destroy (fst (File.Destroy (vaultEngine (Some 2%nat)) vaultWorld))
                                (snd (File.Destroy (vaultEngine (Some 2%nat)) vaultWorld))))
  = [File.EvSync 2; File.EvClose 2].
Proof. reflexivity. Qed.

(** ** Values the logger cannot render (C10) *)

(** The dynamic types [parseObj] accepts: a string, a struct, a non-nil
    pointer to a string or to a struct. *)
Definition loggable (v : Logger.value) : bool :=
  match v with
  | Logger.VString _ _ | Logger.VStruct _ => true
  | Logger.VPtr (Logger.VString _ _) | Logger.VPtr (Logger.VStruct _) => true
  | _ => false
  end.

(** Those among them that go through [json.Marshal]. *)
Definition marshalled (v : Logger.value) : bool :=
  match v with
  | Logger.VStruct _ | Logger.VPtr (Logger.VStruct _) => true
  | _ => false
  end.

Lemma parseObj_not_ok (Marshal : Logger.value -> option string) (v : Logger.value) :
  loggable v = false \/ (marshalled v = true /\ Marshal v = None) ->
  Logger.parseObj Marshal v = Some (EmptyString, false, false).
Proof.
  intros [H|[H M]].
  - destruct v as [|exact s|id| |target|k id]; try discriminate H; try reflexivity.
    + destruct target as [|exact s|id| |target|k id];
        try discriminate H; try reflexivity.
      destruct k; reflexivity.
    + destruct k; reflexivity.
  - destruct v as [|exact s|id| |target|k id]; try discriminate H.
    + unfold Logger.parseObj, Logger.marshalStruct. cbn. now rewrite M.
    + destruct target; try discriminate H.
      unfold Logger.parseObj, Logger.marshalStruct. cbn. now rewrite M.
Qed.

(** C10: a value that is not a string, a struct or a non-nil pointer to one of
    them, or a struct (or pointer to struct) that [json.Marshal] rejects, makes
    every log call return without a panic and with the logger, and so every
    engine in it, exactly as before. *)
Theorem unloggable_value_changes_nothing :
  forall (Marshal : Logger.value -> option string) (timeNow : Time)
         (UTC : Time -> Time) (E : Type) (EngineE : Engines.Engine E)
         (v : Logger.value) (level : N) (lg : Logger.Logger (E := E)),
    loggable v = false \/ (marshalled v = true /\ Marshal v = None) ->
    Logger.Success Marshal timeNow UTC v lg = Some lg /\
    Logger.Error Marshal timeNow UTC v lg = Some lg /\
    Logger.Warning Marshal timeNow UTC v lg = Some lg /\
    Logger.Info Marshal timeNow UTC v lg = Some lg /\
    Logger.Debug Marshal timeNow UTC level v lg = Some lg.
Proof.
  intros Marshal timeNow UTC E EngineE v level lg H.
  assert (L : forall jsonLevel t,
             Logger.log Marshal timeNow UTC v jsonLevel t lg = Some lg).
  { intros jsonLevel t. unfold Logger.log.
    now rewrite (parseObj_not_ok Marshal v H). }
  unfold Logger.Success, Logger.Error, Logger.Warning, Logger.Info, Logger.Debug.
  rewrite !L.
  repeat split;
    match goal with |- (if ?c then _ else _) = _ => destruct c; reflexivity end.
Qed.

(** An engine that only records the calls it receives. *)
#[export] Instance recorder : Engines.Engine (list string) := {|
  Engines.Destroy := fun calls => (calls ++ ["Destroy"%string])%list;
  Engines.Success := fun _ msg _ _ calls => (calls ++ [("Success " ++ msg)%string])%list;
  Engines.Error := fun _ msg _ calls => (calls ++ [("Error " ++ msg)%string])%list;
  Engines.Warning := fun _ msg _ calls => (calls ++ [("Warning " ++ msg)%string])%list;
  Engines.Info := fun _ msg _ calls => (calls ++ [("Info " ++ msg)%string])%list;
  Engines.Debug := fun _ msg _ calls => (calls ++ [("Debug " ++ msg)%string])%list
|}.

Definition recordingLogger : Logger.Logger (E := list string) :=
  Logger.mkLogger [[]; []] Logger.LogLevelDebug 1 false false.

(** An [int] and a nil pointer reach no engine; a string reaches both. *)
Lemma unloggable_value_changes_nothing_witness :
  loggable (Logger.VOther Logger.oInt 7) = false /\
  Logger.Error (fun _ => None) sampleTime (fun t => t)
               (Logger.VOther Logger.oInt 7) recordingLogger = Some recordingLogger /\
  Logger.Debug (fun _ => None) sampleTime (fun t => t) 1
               Logger.VNilPtr recordingLogger = Some recordingLogger.
Proof.
  split; [reflexivity|]. split.
  - apply (unloggable_value_changes_nothing (fun _ => None) sampleTime (fun t => t)
             (list string) recorder (Logger.VOther Logger.oInt 7) 0 recordingLogger).
    left. reflexivity.
  - apply (unloggable_value_changes_nothing (fun _ => None) sampleTime (fun t => t)
             (list string) recorder Logger.VNilPtr 1 recordingLogger).
    left. reflexivity.
Defined.

Example string_reaches_every_engine :
  option_map (fun lg => Logger.engines lg)
             (Logger.Error (fun _ => None) sampleTime (fun t => t)
                           (Logger.VString true "disk full") recordingLogger)
  = Some [["Error disk full"]; ["Error disk full"]]%string.
Proof. reflexivity. Qed.

(** A value of a defined string type has kind [String] but is not a [string]:
    the type assertion of [parseObj] panics. *)
Example defined_string_type_panics :
  Logger.Error (fun _ => None) sampleTime (fun t => t)
               (Logger.VString false "disk full") recordingLogger = None.
Proof. reflexivity. Qed.

(* ===================================================================== *)
(** * Further properties of the syslog engine *)
(* ===================================================================== *)

Module SyslogExtra.
Import Syslog SyslogWorker SyslogFacts.

Lemma opened_app (tr1 tr2 : list event) :
  opened (tr1 ++ tr2) = (opened tr1 ++ opened tr2)%list.
Proof.
  induction tr1 as [|e tr1 IH]; [reflexivity|].
  destruct e as [p a t [c|]|c b r|c]; cbn [opened app]; now rewrite IH.
Qed.

Lemma writes_app (tr1 tr2 : list event) :
  writes (tr1 ++ tr2) = (writes tr1 ++ writes tr2)%list.
Proof.
  induction tr1 as [|e tr1 IH]; [reflexivity|].
  destruct e; cbn [writes app]; now rewrite IH.
Qed.

Lemma dials_app (tr1 tr2 : list event) :
  dials (tr1 ++ tr2) = (dials tr1 + dials tr2)%nat.
Proof.
  induction tr1 as [|e tr1 IH]; [reflexivity|].
  destruct e; cbn [dials app]; now rewrite IH.
Qed.

(** The part of [writeBytes] after a first write that failed or was not
    tried: connect, write again, disconnect on failure. *)
Definition retrySend (ctx : context) (b : string) (lg : engine) (n : network)
  : option error * engine * network :=
  match connect ctx lg n with
  | (Some e, lg, n) => (Some e, lg, n)
  | (None, lg, n) =>
    match conn lg with
    | Some c =>
      match connWrite c b n with
      | (Some e, n) => let '(lg, n) := disconnect lg n in (Some e, lg, n)
      | (None, n) => (None, lg, n)
      end
    | None => (None, lg, n)
    end
  end.

Lemma writeBytes_unfold (ctx : context) (b : string) (lg : engine) (n : network) :
  writeBytes ctx b lg n =
  match conn lg with
  | Some c =>
    match connWrite c b n with
    | (None, n) => (None, lg, n)
    | (Some _, n) => retrySend ctx b lg n
    end
  | None => retrySend ctx b lg n
  end.
Proof. reflexivity. Qed.

(** The ways a send that has to dial can go, after the events [pre], when
    [next] is the number of the next connection. *)
Inductive dialShape (b : string) (pre : list event) (next : nat)
  : option error -> option nat -> list event -> Prop :=
| dialFailed (p a : string) (t : bool) (e : error) :
    dialShape b pre next (Some e) None (pre ++ [EvDial p a t None])
| sentAfterDial (p a : string) (t : bool) :
    dialShape b pre next None (Some next)
              (pre ++ [EvDial p a t (Some next); EvWrite next b true])
| lostAfterDial (p a : string) (t : bool) :
    dialShape b pre next (Some NetError) None
              (pre ++ [EvDial p a t (Some next); EvWrite next b false;
                       EvClose next]).

Lemma dialShape_cons (b : string) (x : event) (pre : list event) (next : nat)
      (err : option error) (c : option nat) (evs : list event) :
  dialShape b pre next err c evs -> dialShape b (x :: pre) next err c (x :: evs).
Proof.
  intros H. destruct H.
  - apply (dialFailed b (x :: pre)).
  - apply (sentAfterDial b (x :: pre)).
  - apply (lostAfterDial b (x :: pre)).
Qed.

Lemma DialContext_facts (ctx : context) (p a : string) (t : bool) (n : network) :
  let r := DialContext ctx p a t n in
  oracle (snd r) = oracle n /\
  match fst r with
  | inl c => c = nextConn n /\
             trace (snd r) = (trace n ++ [EvDial p a t (Some c)])%list
  | inr e => trace (snd r) = (trace n ++ [EvDial p a t None])%list /\
             (e = NetError \/ exists now, ctxErr ctx now = Some e)
  end.
Proof.
  unfold DialContext.
  destruct (ctxErr ctx (clock n)) as [e|] eqn:E0.
  - cbn. repeat split. right. now exists (clock n).
  - destruct (ctxErr ctx (clock n + took (oracle n (calls n)))) as [e|] eqn:E1.
    + destruct ctx as [|c|d]; cbn in E1 |- *; try discriminate;
        try (destruct c; discriminate).
      repeat split. right. exists (clock n + took (oracle n (calls n))). exact E1.
    + destruct (ok (oracle n (calls n))); cbn; repeat split. now left.
Qed.

Lemma retrySend_shape (ctx : context) (b : string) (lg : engine) (n : network) :
  let r := retrySend ctx b lg n in
  let pre := match conn lg with Some c => [EvClose c] | None => [] end in
  exists evs : list event,
    trace (snd r) = (trace n ++ evs)%list /\
    oracle (snd r) = oracle n /\
    dialShape b pre (nextConn n) (fst (fst r)) (conn (snd (fst r))) evs /\
    (forall e, fst (fst r) = Some e ->
               e = NetError \/ exists now, ctxErr ctx now = Some e).
Proof.
  unfold retrySend, connect.
  assert (D : trace (snd (disconnect lg n)) =
              (trace n ++ match conn lg with Some c => [EvClose c] | None => [] end)%list
              /\ oracle (snd (disconnect lg n)) = oracle n
              /\ nextConn (snd (disconnect lg n)) = nextConn n).
  { unfold disconnect. destruct (conn lg); cbn; [|rewrite app_nil_r]; now repeat split. }
  destruct (disconnect lg n) as [lg1 n1]. cbn [snd] in D. destruct D as (T1 & O1 & N1).
  set (p := if useTcp lg1 then "tcp"%string else "udp"%string).
  set (t := useTcp lg1 && match tlsConfig lg1 with Some _ => true | None => false end).
  pose proof (DialContext_facts ctx p (serverAddress lg1) t n1) as [O2 F].
  destruct (DialContext ctx p (serverAddress lg1) t n1) as [[c|e] n2];
    cbn [fst snd] in *.
  - destruct F as [-> T2]. cbn [conn setConn].
    unfold connWrite.
    destruct (ok (oracle n2 (calls n2))) eqn:Hok; cbn [fst snd].
    + eexists. cbn [trace oracle conn setConn fst snd].
      rewrite T2, T1, <- !app_assoc. split; [reflexivity|].
      split; [congruence|]. rewrite N1. cbn [app].
      split; [apply sentAfterDial | discriminate].
    + unfold disconnect. cbn [conn setConn fst snd connClose logEvent trace oracle].
      eexists. rewrite T2, T1, <- !app_assoc. split; [reflexivity|].
      split; [congruence|]. rewrite N1. cbn [app].
      split; [apply lostAfterDial|]. intros e H. inversion H. now left.
  - destruct F as [T2 K]. eexists. cbn [conn setConn].
    rewrite T2, T1, <- !app_assoc. split; [reflexivity|]. split; [congruence|].
    split; [apply dialFailed|]. intros e' H. inversion H; subst. exact K.
Qed.

(** The events a failed first write leaves before the dial. *)
Definition teardown (b : string) (lg : engine) : list event :=
  match conn lg with
  | Some c => [EvWrite c b false; EvClose c]
  | None => []
  end.

(** Every send is of one of four kinds: the write on the open connection
    succeeds; or, after tearing that connection down, the dial fails, or the
    dial and the second write succeed, or the dial succeeds and the second
    write fails, upon which the new connection is closed. *)
Lemma writeBytes_shape (ctx : context) (b : string) (lg : engine) (n : network) :
  let r := writeBytes ctx b lg n in
  exists evs : list event,
    trace (snd r) = (trace n ++ evs)%list /\
    oracle (snd r) = oracle n /\
    ((exists c, conn lg = Some c /\ evs = [EvWrite c b true] /\
                fst (fst r) = None /\ conn (snd (fst r)) = Some c) \/
     dialShape b (teardown b lg) (nextConn n) (fst (fst r)) (conn (snd (fst r))) evs) /\
    (forall e, fst (fst r) = Some e ->
               e = NetError \/ exists now, ctxErr ctx now = Some e).
Proof.
  cbv zeta. rewrite writeBytes_unfold. unfold teardown.
  destruct (conn lg) as [c|] eqn:Hc.
  - unfold connWrite.
    destruct (ok (oracle n (calls n))) eqn:Hok.
    + exists [EvWrite c b true]. cbn. split; [reflexivity|]. split; [reflexivity|].
      split; [left; exists c; now repeat split | discriminate].
    + set (n1 := mkNetwork _ _ _ _ _).
      destruct (retrySend_shape ctx b lg n1) as (evs & T & O & Sh & K).
      rewrite Hc in Sh. exists (EvWrite c b false :: evs).
      split; [rewrite T; subst n1; cbn [trace]; now rewrite <- app_assoc|].
      split; [exact O|]. split; [|exact K]. right.
      subst n1. cbn [nextConn] in Sh.
      now apply (dialShape_cons b (EvWrite c b false)) in Sh.
  - destruct (retrySend_shape ctx b lg n) as (evs & T & O & Sh & K).
    rewrite Hc in Sh. exists evs. split; [exact T|]. split; [exact O|].
    split; [right; exact Sh | exact K].
Qed.


(** ** One send *)

(** X1: a send writes at most twice and dials at most once; everything it
    writes is the message it was given; it returns no error exactly when the
    last thing it did was a successful write of the message; and after an
    error the engine holds no connection. *)
Theorem send_is_one_write_or_one_reconnect :
  forall (ctx : context) (b : string) (lg : engine) (n : network),
    let r := writeBytes ctx b lg n in
    exists evs : list event,
      trace (snd r) = (trace n ++ evs)%list /\
      (List.length (writes evs) <= 2)%nat /\
      (dials evs <= 1)%nat /\
      (forall c b' res, In (c, b', res) (writes evs) -> b' = b) /\
      (fst (fst r) = None <-> exists pre c, evs = (pre ++ [EvWrite c b true])%list) /\
      (fst (fst r) <> None -> conn (snd (fst r)) = None).
Proof.
  intros ctx b lg n r.
  destruct (writeBytes_shape ctx b lg n) as (evs & T & _ & Sh & _).
  fold r in T, Sh. exists evs. split; [exact T|].
  destruct Sh as [(c & Hc & -> & He & Hc')|Sh].
  - cbn. split; [lia|]. split; [lia|]. split.
    { intros c0 b' res [H|[]]. now inversion H. }
    split; [|intros X; now elim X].
    split; [intros _; now exists [], c | intros _; exact He].
  - assert (Last : forall (l pre : list event) (x : event),
               l = (pre ++ [x])%list -> last l (EvClose 0) = x)
      by (intros l pre x ->; apply last_last).
    unfold teardown in Sh.
    destruct Sh as [p a t e|p a t|p a t]; destruct (conn lg) as [c|];
      cbn [app writes dials List.length];
      (split; [lia|]); (split; [lia|]);
      (split; [intros c0 b' res H; cbn in H;
               repeat (destruct H as [H|H]; [now inversion H|]); now elim H|]);
      (split; [split; [intros H | intros (pre & c0 & H)] | ]);
      try discriminate; try reflexivity;
      try (intros _; reflexivity); try (intros X; now elim X);
      try (apply Last in H; cbn in H; discriminate H).
    + now exists [EvWrite c b false; EvClose c; EvDial p a t (Some (nextConn n))],
                 (nextConn n).
    + now exists [EvDial p a t (Some (nextConn n))], (nextConn n).
Qed.

Lemma send_is_one_write_or_one_reconnect_witness :
  let r := writeBytes Background "m" backlogEngine deadCollector in
  fst (fst r) <> None /\ conn (snd (fst r)) = None.
Proof.
  intros r.
  assert (E : fst (fst r) <> None) by (vm_compute; discriminate).
  split; [exact E|].
  destruct (send_is_one_write_or_one_reconnect Background "m" backlogEngine
              deadCollector) as (evs & _ & _ & _ & _ & _ & K).
  exact (K E).
Defined.

(** ** One connection at a time *)

(** Every connection dialled so far has been closed, in the order it was
    dialled, except the one the engine holds, which is the last one dialled. *)
Definition accounted (lg : engine) (n : network) : Prop :=
  opened (trace n) =
  (closed (trace n) ++ match conn lg with Some c => [c] | None => [] end)%list.

Lemma writeBytes_accounted (ctx : context) (b : string) (lg : engine) (n : network) :
  accounted lg n ->
  accounted (snd (fst (writeBytes ctx b lg n))) (snd (writeBytes ctx b lg n)).
Proof.
  unfold accounted. intros A.
  destruct (writeBytes_shape ctx b lg n) as (evs & T & _ & Sh & _).
  rewrite T, opened_app, closed_app, A.
  destruct Sh as [(c & Hc & -> & _ & ->)|Sh].
  - cbn. now rewrite Hc, !app_nil_r.
  - unfold teardown in Sh.
    destruct Sh as [p a t e|p a t|p a t]; destruct (conn lg) as [c|];
      rewrite ?opened_app, ?closed_app; cbn [opened closed app];
      rewrite ?app_nil_r, <- ?app_assoc; reflexivity.
Qed.

Lemma disconnect_accounted (lg : engine) (n : network) :
  accounted lg n ->
  accounted (fst (disconnect lg n)) (snd (disconnect lg n)) /\
  opened (trace (snd (disconnect lg n))) = closed (trace (snd (disconnect lg n))).
Proof.
  unfold accounted, disconnect. intros A.
  destruct (conn lg) as [c|] eqn:Hc; cbn [fst snd conn setConn connClose logEvent trace].
  - rewrite opened_app, closed_app, A. cbn. now rewrite !app_nil_r.
  - rewrite Hc, app_nil_r in *. now split.
Qed.

Lemma flushLoop_accounted (ctx : context) (q : list string) :
  forall (lg : engine) (n : network),
    accounted lg n ->
    accounted (snd (fst (flushLoop ctx q lg n))) (snd (flushLoop ctx q lg n)).
Proof.
  induction q as [|m q IH]; intros lg n A; cbn [flushLoop]; [exact A|].
  set (lg0 := setQueue q (queueAvailEv lg) lg).
  pose proof (writeBytes_accounted ctx m lg0 n A) as A1.
  destruct (writeBytes ctx m lg0 n) as [[[e|] lg1] n1]; cbn [fst snd] in *;
    [exact A1|].
  specialize (IH lg1 n1 A1).
  now destruct (flushLoop ctx q lg1 n1) as [[log lg2] n2].
Qed.

(** X2: a send keeps the engine to one connection at a time: if every
    connection dialled before it was closed except the one held, the same is
    true after it. *)
Theorem send_keeps_one_connection :
  forall (ctx : context) (b : string) (lg : engine) (n : network),
    accounted lg n ->
    let r := writeBytes ctx b lg n in
    opened (trace (snd r)) =
    (closed (trace (snd r)) ++
     match conn (snd (fst r)) with Some c => [c] | None => [] end)%list.
Proof. intros ctx b lg n A. exact (writeBytes_accounted ctx b lg n A). Qed.

(** X3: [Destroy] leaks no connection: the first [Destroy] does not panic,
    and when it is through, whatever the outcomes of the network calls of the
    flush, the engine holds no connection and every connection it ever dialled
    has been closed, in the order they were dialled.  (Every network call of
    the model comes to an end: how long [Destroy] takes, and whether a call
    blocks, is not part of the statement.) *)
Theorem destroy_closes_every_connection :
  forall (lg : engine) (n : network) (wctx : context),
    shutdownOnce lg = false -> workerCtx lg = Some wctx ->
    accounted lg n ->
    exists r : engine * network,
      Destroy lg n = Some r /\
      conn (fst r) = None /\
      opened (trace (snd r)) = closed (trace (snd r)).
Proof.
  intros lg n wctx Once Ctx A.
  rewrite (Destroy_unfold lg n wctx Once Ctx).
  set (lg0 := setShutdown true None lg).
  pose proof (flushLoop_accounted (WithDeadline (clock n + flushTimeout)) (queue lg)
                                  lg0 n A) as A1.
  destruct (flushLoop _ (queue lg) lg0 n) as [[log lg1] n1]; cbn [fst snd] in *.
  eexists. split; [reflexivity|]. split; [apply disconnect_conn|].
  now apply disconnect_accounted.
Qed.

Lemma destroy_closes_every_connection_witness :
  accounted backlogEngine (mkNetwork 0 (fun _ => mkOutcome false 0) 0 1
                                     [EvDial "tcp" "127.0.0.1:1468" false (Some 0%nat)]) /\
  exists r : engine * network,
    Destroy backlogEngine
            (mkNetwork 0 (fun _ => mkOutcome false 0) 0 1
                       [EvDial "tcp" "127.0.0.1:1468" false (Some 0%nat)]) = Some r /\
    opened (trace (snd r)) = closed (trace (snd r)).
Proof.
  split; [reflexivity|].
  destruct (destroy_closes_every_connection backlogEngine
              (mkNetwork 0 (fun _ => mkOutcome false 0) 0 1
                         [EvDial "tcp" "127.0.0.1:1468" false (Some 0%nat)])
              (WithCancel false) eq_refl eq_refl eq_refl) as (r & D & _ & O).
  exists r. split; assumption.
Defined.

Lemma send_keeps_one_connection_witness :
  let n := mkNetwork 0 (fun _ => mkOutcome false 0) 0 1
                     [EvDial "tcp" "127.0.0.1:1468" false (Some 0%nat)] in
  let r := writeBytes Background "m" backlogEngine n in
  accounted backlogEngine n /\
  opened (trace (snd r)) =
  (closed (trace (snd r)) ++
   match conn (snd (fst r)) with Some c => [c] | None => [] end)%list.
Proof.
  split; [reflexivity|].
  apply (send_keeps_one_connection Background "m" backlogEngine). reflexivity.
Defined.

(** ** The delivery worker *)

Lemma writeBytes_never_canceled (b : string) (lg : engine) (n : network) :
  fst (fst (writeBytes (WithCancel false) b lg n)) <> Some Canceled.
Proof.
  destruct (writeBytes_shape (WithCancel false) b lg n) as (_ & _ & _ & _ & K).
  intros H. destruct (K _ H) as [E|[now E]]; discriminate E.
Qed.

Lemma drainLoop_spec (fuel : nat) :
  forall (lg : engine) (n : network),
    (List.length (queue lg) < fuel)%nat ->
    let r := drainLoop fuel (WithCancel false) lg n in
    map fst (fst (fst (fst r))) = queue lg /\
    snd (fst (fst r)) = false /\
    queue (snd (fst r)) = [] /\
    frame lg (snd (fst r)) /\
    Forall (fun d => snd d = None \/ snd d = Some NetError) (fst (fst (fst r))).
Proof.
  induction fuel as [|fuel IH]; intros lg n Hlen; [lia|].
  cbn [drainLoop]. unfold dequeueMessage.
  destruct (queue lg) as [|m q] eqn:Hq.
  - cbn. rewrite Hq. repeat split. constructor.
  - set (lg0 := setQueue q (queueAvailEv lg) lg).
    pose proof (writeBytes_spec (WithCancel false) m lg0 n) as (F & Q & _ & _).
    pose proof (writeBytes_never_canceled m lg0 n) as NC.
    destruct (writeBytes_shape (WithCancel false) m lg0 n) as (_ & _ & _ & _ & K).
    destruct (writeBytes (WithCancel false) m lg0 n) as [[err lg1] n1];
      cbn [fst snd] in *.
    assert (Hlen1 : (List.length (queue lg1) < fuel)%nat)
      by (rewrite Q; change (queue lg0) with q;
          cbn [List.length] in Hlen; lia).
    specialize (IH lg1 n1 Hlen1).
    assert (Kerr : err = None \/ err = Some NetError).
    { destruct err as [e|]; [|now left]. right.
      destruct (K e eq_refl) as [->|[now E]]; [reflexivity | discriminate E]. }
    destruct (drainLoop fuel (WithCancel false) lg1 n1) as [[[log stopped] lg2] n2].
    cbn [fst snd] in IH. destruct IH as (Hm & Hs & Hq2 & F2 & Hall).
    assert (R : (let '(log0, stopped0, lg3, n3) := (log, stopped, lg2, n2) in
                 ((m, err) :: log0, stopped0, lg3, n3))
                = ((m, err) :: log, stopped, lg2, n2)) by reflexivity.
    destruct err as [[| |]|]; try (now elim NC); cbn [fst snd map];
      (split; [now rewrite Hm, Q|]); (split; [exact Hs|]); (split; [exact Hq2|]);
      (split; [eapply frame_trans; [apply frame_setQueue|];
               eapply frame_trans; [exact F | exact F2]|]);
      (constructor; [exact Kerr | exact Hall]).
Qed.

(** X4: woken up under a context that has not been cancelled, the worker
    hands every queued message to [writeBytes], oldest first, whatever the
    network does: a send that fails does not stop it, the worker does not
    return, and the queue is empty afterwards. *)
Theorem worker_attempts_every_message :
  forall (lg : engine) (n : network),
    let r := wakeUp (WithCancel false) lg n in
    map fst (fst (fst (fst r))) = queue lg /\
    snd (fst (fst r)) = false /\
    queue (snd (fst r)) = [] /\
    Forall (fun d => snd d = None \/ snd d = Some NetError) (fst (fst (fst r))).
Proof.
  intros lg n r. unfold r, wakeUp.
  destruct (drainLoop_spec (S (List.length (queue lg))) lg n (Nat.lt_succ_diag_r _))
    as (H1 & H2 & H3 & _ & H5).
  now repeat split.
Qed.

(** X5: woken up after cancellation with no connection at hand, the worker
    dequeues the oldest message, fails to dial, and returns: that message is
    neither written nor put back, and the others stay queued. *)
Theorem cancelled_worker_drops_the_message_in_flight :
  forall (lg : engine) (n : network) (m : string) (q : list string),
    conn lg = None -> queue lg = m :: q ->
    let r := wakeUp (WithCancel true) lg n in
    fst (fst (fst r)) = [(m, Some Canceled)] /\
    snd (fst (fst r)) = true /\
    queue (snd (fst r)) = q /\
    writes (trace (snd r)) = writes (trace n).
Proof.
  intros lg n m q Hc Hq r. unfold r, wakeUp. rewrite Hq.
  cbn [List.length drainLoop]. unfold dequeueMessage. rewrite Hq.
  rewrite (writeBytes_after_deadline (WithCancel true) m
             (setQueue q (queueAvailEv lg) lg) n Canceled Hc eq_refl).
  cbn [fst snd queue setQueue logEvent trace]. repeat split.
  rewrite writes_app. cbn. now rewrite app_nil_r.
Qed.

Lemma cancelled_worker_drops_the_message_in_flight_witness :
  let lg := sampleEngine true false 8 in
  let lg := enqueueAll ["m1"; "m2"]%string lg in
  conn lg = None /\ queue lg = ["m1"; "m2"]%string /\
  queue (snd (fst (wakeUp (WithCancel true) lg deadCollector))) = ["m2"]%string.
Proof.
  split; [reflexivity|]. split; [reflexivity|].
  apply (cancelled_worker_drops_the_message_in_flight
           (enqueueAll ["m1"; "m2"]%string (sampleEngine true false 8))
           deadCollector "m1" ["m2"]%string); reflexivity.
Defined.

(** ** Shutdown with a collector that answers *)

Lemma flushLoop_healthy (ctx : context) (c : nat) (q : list string) :
  forall (lg : engine) (n : network),
    conn lg = Some c ->
    (forall i, ok (oracle n i) = true) ->
    let r := flushLoop ctx q lg n in
    trace (snd r) = (trace n ++ map (fun m => EvWrite c m true) q)%list /\
    conn (snd (fst r)) = Some c /\
    allDelivered (fst (fst r)).
Proof.
  induction q as [|m q IH]; intros lg n Hc Hok; cbn [flushLoop].
  - cbn. rewrite app_nil_r. repeat split; [exact Hc | constructor].
  - set (lg0 := setQueue q (queueAvailEv lg) lg).
    rewrite writeBytes_unfold.
    change (conn lg0) with (conn lg). rewrite Hc.
    unfold connWrite. rewrite Hok.
    set (n1 := mkNetwork _ _ _ _ _).
    specialize (IH lg0 n1 Hc Hok).
    destruct (flushLoop ctx q lg0 n1) as [[log lg2] n2]. cbn [fst snd] in *.
    destruct IH as (T & C & A).
    split; [rewrite T; subst n1; cbn [trace map]; now rewrite <- app_assoc|].
    split; [exact C | constructor; [reflexivity | exact A]].
Qed.

(** X6: when the engine is connected and the collector accepts every write,
    [Destroy] writes every queued message, oldest first, on that connection,
    then closes it, and leaves the queue empty: nothing else happens on the
    network. *)
Theorem shutdown_delivers_the_queue_in_order :
  forall (lg : engine) (n : network) (wctx : context) (c : nat),
    shutdownOnce lg = false -> workerCtx lg = Some wctx ->
    conn lg = Some c ->
    (forall i, ok (oracle n i) = true) ->
    exists r : engine * network,
      Destroy lg n = Some r /\
      queue (fst r) = [] /\
      conn (fst r) = None /\
      trace (snd r) =
      (trace n ++ map (fun m => EvWrite c m true) (queue lg) ++ [EvClose c])%list.
Proof.
  intros lg n wctx c Once Ctx Hc Hok.
  rewrite (Destroy_unfold lg n wctx Once Ctx).
  set (ctx := WithDeadline (clock n + flushTimeout)).
  set (lg0 := setShutdown true None lg).
  pose proof (flushLoop_healthy ctx c (queue lg) lg0 n Hc Hok) as (T & C & A).
  pose proof (flushLoop_spec ctx (queue lg) lg0 n eq_refl) as (_ & Hcase & _ & _).
  destruct (flushLoop ctx (queue lg) lg0 n) as [[log lg1] n1]; cbn [fst snd] in *.
  eexists. split; [reflexivity|].
  unfold disconnect. rewrite C. cbn [fst snd queue setConn conn connClose logEvent trace].
  split.
  - destruct Hcase as [[_ Hq]|(log0 & m & e & E & _ & _)]; [exact Hq|].
    exfalso. subst log. unfold allDelivered in A.
    apply Forall_app in A. destruct A as [_ A]. inversion A as [|x l H]. discriminate H.
  - split; [reflexivity|]. rewrite T. now rewrite <- app_assoc.
Qed.

Lemma shutdown_delivers_the_queue_in_order_witness :
  let n := mkNetwork 0 (fun _ => mkOutcome true 1000) 0 1 [] in
  conn backlogEngine = Some 0%nat /\
  exists r : engine * network,
    Destroy backlogEngine n = Some r /\
    trace (snd r) = [EvWrite 0 "m1" true; EvWrite 0 "m2" true; EvWrite 0 "m3" true;
                     EvClose 0].
Proof.
  split; [reflexivity|].
  destruct (shutdown_delivers_the_queue_in_order backlogEngine
              (mkNetwork 0 (fun _ => mkOutcome true 1000) 0 1 [])
              (WithCancel false) 0%nat eq_refl eq_refl eq_refl (fun _ => eq_refl))
    as (r & D & _ & _ & T).
  exists r. split; assumption.
Defined.

End SyslogExtra.

(** ** The legacy wire format and the width of the timestamps *)

(** X7: in legacy (RFC 3164) mode the queued text is the priority in angle
    brackets, the timestamp as abbreviated month name, day of the month
    padded with a space to two columns, and time of day, then the host name
    and the message (after the line-ending rule of the transport); no year,
    no application name, no pid. *)
Theorem legacy_wire_text :
  forall (fac sev : Z) (now : Time) (msg : string) (raw : bool) (lg : Syslog.engine),
    Syslog.useRFC5424 lg = false ->
    let dayOfMonth :=
      ((if (Day now <? 10)%Z then " " else "") ++ appendInt (Day now) 0)%string in
    let timestamp :=
      (substring 0 3 (monthName (Month now)) ++ " " ++ dayOfMonth ++ " " ++
       appendInt (Hour now) 2 ++ ":" ++ appendInt (Minute now) 2 ++ ":" ++
       appendInt (Second now) 2)%string in
    Syslog.emitted (Syslog.writeString fac sev now msg raw lg) =
    ("<" ++ Itoa (add64 (mul64 fac 8) sev) ++ ">" ++ timestamp ++ " " ++
     Syslog.hostname lg ++ " " ++ Syslog.normalizeLine (Syslog.useTcp lg) msg)%string.
Proof.
  intros fac sev now msg raw lg H dayOfMonth timestamp.
  unfold Syslog.writeString. rewrite H. cbn [negb].
  rewrite emitted_queueMessage, Format_legacy. reflexivity.
Qed.

Lemma legacy_wire_text_witness :
  Syslog.useRFC5424 (sampleEngine false false 1024) = false /\
  Syslog.emitted (Syslog.Warning sampleTime "disk full" false (sampleEngine false false 1024))
  = "<12>Mar  5 07:08:09 node1 disk full"%string.
Proof.
  split; [reflexivity|].
  exact (legacy_wire_text Syslog.facilityUser Syslog.severityWarning sampleTime
           "disk full" false (sampleEngine false false 1024) eq_refl).
Defined.

(** The civil fields of a time of the years 0 to 9999. *)
Definition validCivil (t : Time) : Prop :=
  0 <= Year t <= 9999 /\ 1 <= Month t <= 12 /\ 1 <= Day t <= 31 /\
  0 <= Hour t <= 23 /\ 0 <= Minute t <= 59 /\ 0 <= Second t <= 59.

Definition widthBelow (bound width : nat) : bool :=
  forallb (fun k => (String.length (appendInt (Z.of_nat k) width) =? width)%nat)
          (seq 0 bound).

Lemma appendInt_width (bound width : nat) (x : Z) :
  widthBelow bound width = true ->
  0 <= x < Z.of_nat bound ->
  String.length (appendInt x width) = width.
Proof.
  intros W Hx. unfold widthBelow in W. rewrite forallb_forall in W.
  specialize (W (Z.to_nat x)). rewrite Z2Nat.id in W by lia.
  apply Nat.eqb_eq, W. apply in_seq. lia.
Qed.

Lemma two_digits (x : Z) : 0 <= x <= 99 -> String.length (appendInt x 2) = 2%nat.
Proof.
  intros H. apply (appendInt_width 100); [vm_compute; reflexivity | lia].
Qed.

Lemma four_digits (x : Z) : 0 <= x <= 9999 -> String.length (appendInt x 4) = 4%nat.
Proof.
  intros H. apply (appendInt_width (100 * 100)); [vm_compute; reflexivity | lia].
Qed.

Lemma day_two_columns (d : Z) :
  1 <= d <= 31 ->
  String.length ((if (d <? 10)%Z then " " else "") ++ appendInt d 0) = 2%nat.
Proof.
  intros H.
  assert (C : forallb (fun k => (String.length
                         ((if (Z.of_nat k <? 10)%Z then " " else "") ++
                          appendInt (Z.of_nat k) 0) =? 2)%nat) (seq 1 31) = true)
    by (vm_compute; reflexivity).
  rewrite forallb_forall in C. specialize (C (Z.to_nat d)).
  rewrite Z2Nat.id in C by lia. apply Nat.eqb_eq, C. apply in_seq. lia.
Qed.

Lemma month_three_letters (m : Z) :
  1 <= m <= 12 -> String.length (substring 0 3 (monthName m)) = 3%nat.
Proof.
  intros H.
  assert (C : forallb (fun k => (String.length
                         (substring 0 3 (monthName (Z.of_nat k))) =? 3)%nat)
                      (seq 1 12) = true) by (vm_compute; reflexivity).
  rewrite forallb_forall in C. specialize (C (Z.to_nat m)).
  rewrite Z2Nat.id in C by lia. apply Nat.eqb_eq, C. apply in_seq. lia.
Qed.

(** X8: for every time of the years 0 to 9999 the timestamp of the legacy
    format is 15 bytes long and that of the structured format 20 bytes. *)
Theorem timestamps_have_fixed_width :
  forall t : Time,
    validCivil t ->
    String.length (Format t "Jan _2 15:04:05") = 15%nat /\
    String.length (Format t "2006-02-01T15:04:05Z") = 20%nat.
Proof.
  intros t (Hy & Hm & Hd & Hh & Hmi & Hs).
  rewrite Format_legacy, Format_structured.
  pose proof (day_two_columns _ Hd) as Hdd.
  set (dd := ((if (Day t <? 10)%Z then " " else "") ++ appendInt (Day t) 0)%string)
    in *.
  repeat rewrite length_append.
  rewrite (month_three_letters _ Hm), Hdd, (four_digits _ Hy).
  rewrite (two_digits (Hour t)), (two_digits (Minute t)), (two_digits (Second t)),
    (two_digits (Day t)), (two_digits (Month t)) by lia.
  split; reflexivity.
Qed.

Lemma timestamps_have_fixed_width_witness :
  validCivil sampleTime /\
  String.length (Format sampleTime "Jan _2 15:04:05") = 15%nat.
Proof.
  assert (V : validCivil sampleTime) by (unfold validCivil; cbn; lia).
  split; [exact V | apply (timestamps_have_fixed_width sampleTime V)].
Defined.

(* ===================================================================== *)
(** * Further properties of the file engine *)
(* ===================================================================== *)

Module FileExtra.
Import File FileFacts.

Section WithPlatform.
Context {P : Platform}.

(** The configuration of an engine: what no write and no rotation changes. *)
Definition config (lg : engine) : string * N * Z * Z * string :=
  (directory lg, daysToKeep lg, maxFileSize lg, maxFileVaultSize lg, prefix lg).

(** The name of the file a rotation opens, given the suffix for the
    sub-file index. *)
Definition logName (lg : engine) (now : Time) (sfx : string) : string :=
  (ToLower (prefix lg) ++ "." ++ Format now "2006-01-02" ++ sfx ++ ".log")%string.

(** The sub-file index a rotation moves to. *)
Definition nextIndex (lg : engine) (now : Time) : Z :=
  if 0 <? maxFileSize lg
  then (if negb (Day now =? dayOfFile lg) then 1 else add64 (subFileIndex lg) 1)
  else subFileIndex lg.

Definition suffixOf (lg : engine) (now : Time) : string :=
  if 0 <? maxFileSize lg
  then ("-" ++ Sprintf03d (nextIndex lg now))%string else EmptyString.

Lemma removeAll_writeOk (d : string) (files : list LogFile) :
  forall w : world, writeOk (removeAll d files w) = writeOk w.
Proof.
  induction files as [|x files IH]; intros w; [reflexivity|].
  cbn [removeAll fold_left]. fold (removeAll d files (osRemove d (Name x) w)).
  now rewrite IH.
Qed.

Lemma purgeFileVault_writeOk (lg : engine) (w : world) :
  writeOk (snd (purgeFileVault lg w)) = writeOk w.
Proof.
  unfold purgeFileVault.
  destruct ((daysToKeep lg =? 0)%N && (maxFileVaultSize lg =? 0)); [reflexivity|].
  destruct (dir w); [|reflexivity].
  match goal with
  | |- context [let '(a, b) := ?X in _] => destruct X as [cut size]
  end.
  apply removeAll_writeOk.
Qed.

(** A file that [os.OpenFile] has opened in the directory itself is listed
    there, as a regular file. *)
Lemma osOpenFile_listed (sep dirpath name : string) (w : world) (f : nat) :
  fst (osOpenFile sep dirpath name w) = Some f ->
  Contains name sep = false ->
  exists entries e,
    dir (snd (osOpenFile sep dirpath name w)) = Some entries /\
    In e entries /\ deName e = name /\ deIsDir e = false.
Proof.
  unfold osOpenFile. intros H Hn. rewrite Hn. cbn [orb].
  destruct (dir w) as [entries|]; [|discriminate H].
  destruct (openOk w (calls w)); cbn [andb] in *; [|discriminate H].
  destruct (existsb (isDirNamed name) entries) eqn:Hd; cbn [negb] in *;
    [discriminate H|].
  destruct (existsb (isNamed name) entries) eqn:He; cbn [snd dir setWorld].
  - apply existsb_exists in He. destruct He as (e & Hin & Hname).
    unfold isNamed in Hname. apply String.eqb_eq in Hname.
    exists entries, e. split; [reflexivity|]. split; [exact Hin|].
    split; [exact Hname|].
    destruct (deIsDir e) eqn:Hdir; [|reflexivity].
    assert (X : existsb (isDirNamed name) entries = true).
    { apply existsb_exists. exists e. split; [exact Hin|].
      unfold isDirNamed. now rewrite Hname, String.eqb_refl, Hdir. }
    rewrite X in Hd. discriminate Hd.
  - eexists _, (mkDirEntry name false (Some (0, UnixNano (Now w)))).
    split; [reflexivity|]. split; [apply in_or_app; right; now left|].
    split; reflexivity.
Qed.

(** What a rotation does, step by step. *)
Lemma rotation_outcome (now : Time) (msgLen : Z) (lg : engine) (w : world) :
  rotate lg (Day now) msgLen = true ->
  let r := openOrRotateFile now msgLen lg w in
  let lg' := snd (fst r) in
  let name := logName lg now (suffixOf lg now) in
  exists evs : list event,
    trace (snd r) = (trace w ++ evs)%list /\
    (forall p res, In (EvOpenFile p res) evs -> p = (directory lg ++ name)%string) /\
    config lg' = config lg /\
    currentFileSize lg' = 0 /\
    writeOk (snd r) = writeOk w /\
    (fst (fst r) = false ->
     exists f pre,
       fd lg' = Some f /\ dayOfFile lg' = Day now /\
       subFileIndex lg' = nextIndex lg now /\
       evs = (pre ++ [EvOpenFile (directory lg ++ name) (Some f)])%list /\
       (Contains name Separator = false ->
        exists entries e,
          dir (snd r) = Some entries /\ In e entries /\
          deName e = name /\ deIsDir e = false)) /\
    (fst (fst r) = true -> fd lg' = None) /\
    (forall f s res, ~ In (EvWriteString f s res) evs) /\
    (fst (fst r) = true -> forall p f, ~ In (EvOpenFile p (Some f)) evs).
Proof.
  intros Hrot. unfold openOrRotateFile. rewrite Hrot. cbn [negb].
  set (st := match fd lg with
             | Some f => (setFd None lg, fileClose f (fileSync f w))
             | None => (lg, w)
             end).
  assert (Hst : config (fst st) = config lg /\ fd (fst st) = None /\
                subFileIndex (fst st) = subFileIndex lg /\
                dayOfFile (fst st) = dayOfFile lg /\
                writeOk (snd st) = writeOk w /\
                exists e1, trace (snd st) = (trace w ++ e1)%list /\
                           (forall p res, ~ In (EvOpenFile p res) e1) /\
                           (forall f s res, ~ In (EvWriteString f s res) e1)).
  { subst st. destruct (fd lg) as [f0|] eqn:Hfd; cbn.
    - repeat split. exists [EvSync f0; EvClose f0]. rewrite <- app_assoc.
      split; [reflexivity|].
      split; [intros p res [H|[H|[]]] | intros f s res [H|[H|[]]]]; discriminate H.
    - repeat split; [exact Hfd|]. exists []. rewrite app_nil_r.
      split; [reflexivity|]. split; [intros p res [] | intros f s res []]. }
  destruct st as [lg1 w1]. cbn [fst snd] in Hst.
  destruct Hst as (Hc1 & Hf1 & Hi1 & Hd1 & Hw1 & e1 & Ht1 & Hn1 & Hq1).
  assert (Hm1 : maxFileSize lg1 = maxFileSize lg) by (now inversion Hc1).
  set (lg2 := setSizes 0 (currentFileVaultSize lg1) lg1).
  set (lg3 := if 0 <? maxFileSize lg2
              then (if negb (Day now =? dayOfFile lg2)
                    then setIndex 1 (dayOfFile lg2) lg2
                    else setIndex (add64 (subFileIndex lg2) 1) (dayOfFile lg2) lg2)
              else lg2).
  assert (H3 : config lg3 = config lg /\ currentFileSize lg3 = 0 /\ fd lg3 = None /\
               subFileIndex lg3 = nextIndex lg now).
  { subst lg3 lg2. unfold nextIndex.
    cbn [maxFileSize dayOfFile subFileIndex setSizes]. rewrite Hm1, Hd1, Hi1.
    destruct (0 <? maxFileSize lg); [destruct (negb _)|]; cbn;
      rewrite <- Hc1; repeat split; assumption. }
  destruct H3 as (Hc3 & Hs3 & Hf3 & Hi3).
  destruct (purgeFileVault_trace lg3 w1) as [fs Hp].
  pose proof (purgeFileVault_writeOk lg3 w1) as Hpw.
  destruct (purgeFileVault lg3 w1) as [[vault err] w2]. cbn [snd] in Hp, Hpw.
  set (lg4 := setSizes (currentFileSize lg3) vault lg3).
  assert (H4 : config lg4 = config lg /\ currentFileSize lg4 = 0 /\ fd lg4 = None /\
               subFileIndex lg4 = nextIndex lg now)
    by (subst lg4; now cbn).
  destruct H4 as (Hc4 & Hs4 & Hf4 & Hi4).
  assert (Hd4 : directory lg4 = directory lg) by (now inversion Hc4).
  assert (Hp4 : prefix lg4 = prefix lg) by (now inversion Hc4).
  assert (Hm4 : maxFileSize lg4 = maxFileSize lg) by (now inversion Hc4).
  destruct (osMkdirAll_trace (directory lg4) w2) as (res & Hm & _).
  pose proof (osMkdirAll_writeOk (directory lg4) w2) as Hmw.
  assert (Hrem : forall p r0, ~ In (EvOpenFile p r0)
                   (map (fun f => EvRemove (directory lg3 ++ Name f)) fs)).
  { intros p r0 H. apply in_map_iff in H. destruct H as (x & H & _). discriminate H. }
  assert (Hremq : forall f s r0, ~ In (EvWriteString f s r0)
                   (map (fun f => EvRemove (directory lg3 ++ Name f)) fs)).
  { intros f s r0 H. apply in_map_iff in H. destruct H as (x & H & _). discriminate H. }
  assert (Quiet : forall tl : list event,
             (forall f s r0, ~ In (EvWriteString f s r0) tl) ->
             forall f s r0,
               ~ In (EvWriteString f s r0)
                    (e1 ++ map (fun f => EvRemove (directory lg3 ++ Name f)) fs ++ tl)).
  { intros tl Htl f s r0 H. repeat (apply in_app_or in H; destruct H as [H|H]).
    - now elim (Hq1 f s r0).
    - now elim (Hremq f s r0).
    - now elim (Htl f s r0). }
  assert (Hname :
    (ToLower (prefix lg4) ++ "." ++ Format now "2006-01-02" ++
     (if (0 <? maxFileSize lg4)%Z
      then ("-" ++ Sprintf03d (subFileIndex lg4))%string else EmptyString) ++
     ".log")%string = logName lg now (suffixOf lg now)).
  { unfold logName, suffixOf. now rewrite Hp4, Hm4, Hi4. }
  rewrite Hname.
  destruct (osMkdirAll (directory lg4) w2) as [[|] w3]; cbn [snd] in Hm, Hmw.
  - rewrite Hd4.
    pose proof (osOpenFile_trace Separator (directory lg)
                  (logName lg now (suffixOf lg now)) w3) as Ho.
    pose proof (osOpenFile_writeOk Separator (directory lg)
                  (logName lg now (suffixOf lg now)) w3) as How.
    pose proof (osOpenFile_listed Separator (directory lg)
                  (logName lg now (suffixOf lg now)) w3) as Hol.
    destruct (osOpenFile Separator (directory lg)
                (logName lg now (suffixOf lg now)) w3) as [[f|] w4];
      cbn [fst snd] in Ho, How, Hol |- *.
    + eexists. rewrite Ho, Hm, Hp, Ht1, <- !app_assoc. split; [reflexivity|].
      split.
      { intros p r0 H. repeat (apply in_app_or in H; destruct H as [H|H]).
        - now elim (Hn1 p r0).
        - now elim (Hrem p r0).
        - destruct H as [H|[]]. discriminate H.
        - destruct H as [H|[]]. now inversion H. }
      split; [exact Hc4|]. split; [exact Hs4|]. split; [congruence|].
      split; [|split; [discriminate|]].
      { intros _. exists f.
        exists (e1 ++ map (fun f0 => EvRemove (directory lg3 ++ Name f0)) fs ++
                [EvMkdirAll (directory lg4) res])%list.
        split; [reflexivity|]. split; [reflexivity|]. split; [exact Hi4|].
        split; [now rewrite <- !app_assoc|].
        intros Hn. exact (Hol f eq_refl Hn). }
      split; [|discriminate].
      apply Quiet. intros f0 s r0 [H|[H|[]]]; discriminate H.
    + eexists. rewrite Ho, Hm, Hp, Ht1, <- !app_assoc. split; [reflexivity|].
      split.
      { intros p r0 H. repeat (apply in_app_or in H; destruct H as [H|H]).
        - now elim (Hn1 p r0).
        - now elim (Hrem p r0).
        - destruct H as [H|[]]. discriminate H.
        - destruct H as [H|[]]. now inversion H. }
      split; [exact Hc4|]. split; [exact Hs4|]. split; [congruence|].
      split; [discriminate|]. split; [reflexivity|].
      split; [apply Quiet; intros f s r0 [H|[H|[]]]; discriminate H|].
      intros _ p f H. repeat (apply in_app_or in H; destruct H as [H|H]).
      * now elim (Hn1 p (Some f)).
      * now elim (Hrem p (Some f)).
      * destruct H as [H|[]]. discriminate H.
      * destruct H as [H|[]]. discriminate H.
  - eexists. cbn [fst snd]. rewrite Hm, Hp, Ht1, <- !app_assoc.
    split; [reflexivity|].
    split.
    { intros p r0 H. repeat (apply in_app_or in H; destruct H as [H|H]).
      - now elim (Hn1 p r0).
      - now elim (Hrem p r0).
      - destruct H as [H|[]]. discriminate H. }
    split; [exact Hc4|]. split; [exact Hs4|]. split; [congruence|].
    split; [discriminate|]. split; [intros _; exact Hf4|].
    split; [apply Quiet; intros f s r0 [H|[]]; discriminate H|].
    intros _ p f H. repeat (apply in_app_or in H; destruct H as [H|H]).
    + now elim (Hn1 p (Some f)).
    + now elim (Hrem p (Some f)).
    + destruct H as [H|[]]. discriminate H.
Qed.

(** ** Rotation *)

Lemma openOrRotateFile_fd (now : Time) (msgLen : Z) (lg : engine) (w : world) :
  let r := openOrRotateFile now msgLen lg w in
  (fst (fst r) = false <-> fd (snd (fst r)) <> None) /\
  (fst (fst r) = false -> dayOfFile (snd (fst r)) = Day now) /\
  config (snd (fst r)) = config lg.
Proof.
  intros r.
  destruct (rotate lg (Day now) msgLen) eqn:Hrot.
  - destruct (rotation_outcome now msgLen lg w Hrot)
      as (evs & _ & _ & Hc & _ & _ & Hok & Herr & _).
    fold r in Hc, Hok, Herr.
    destruct (fst (fst r)) eqn:E.
    + rewrite (Herr eq_refl). repeat split; try discriminate; try exact Hc.
      intros X. now elim X.
    + destruct (Hok eq_refl) as (f & pre & Hf & Hd & _). rewrite Hf.
      repeat split; try discriminate; try exact Hc. intros _. exact Hd.
  - assert (E : r = (false, lg, w))
      by (subst r; unfold openOrRotateFile; now rewrite Hrot).
    rewrite E. cbn [fst snd]. unfold rotate in Hrot.
    apply orb_false_iff in Hrot. destruct Hrot as [Hrot _].
    apply orb_false_iff in Hrot. destruct Hrot as [Hrot _].
    apply orb_false_iff in Hrot. destruct Hrot as [Hfd Hday].
    apply negb_false_iff, Z.eqb_eq in Hday.
    destruct (fd lg); [|discriminate Hfd].
    repeat split; try discriminate. intros _. now symmetry.
Qed.

(** X9: [openOrRotateFile] returns without error exactly when a file is open
    afterwards, and [dayOfFile] is then the day of the month of the timestamp.
    A call that returns without error either did nothing at all (the file that
    was open stays open, be it of an earlier month with the same day number),
    or ended by opening a file whose name is the directory, the lower-cased
    prefix, a dot, the date of the timestamp, a suffix and [.log], and that
    file is the open one.  Directory, prefix and limits are never changed. *)
Theorem rotation_succeeds_iff_file_open :
  forall (now : Time) (msgLen : Z) (lg : engine) (w : world),
    let r := openOrRotateFile now msgLen lg w in
    let lg' := snd (fst r) in
    (fst (fst r) = false <-> fd lg' <> None) /\
    (fst (fst r) = false -> dayOfFile lg' = Day now) /\
    config lg' = config lg /\
    (fst (fst r) = false ->
     r = (false, lg, w) \/
     exists (f : nat) (pre : list event) (sfx : string),
       fd lg' = Some f /\
       trace (snd r) =
       (pre ++ [EvOpenFile (directory lg ++ ToLower (prefix lg) ++ "." ++
                            Format now "2006-01-02" ++ sfx ++ ".log")
                           (Some f)])%list).
Proof.
  intros now msgLen lg w r lg'.
  destruct (openOrRotateFile_fd now msgLen lg w) as (H1 & H2 & H3).
  split; [exact H1|]. split; [exact H2|]. split; [exact H3|].
  intros Hok.
  destruct (rotate lg (Day now) msgLen) eqn:Hrot.
  - right.
    destruct (rotation_outcome now msgLen lg w Hrot)
      as (evs & Ht & _ & _ & _ & _ & Hs & _).
    destruct (Hs Hok) as (f & pre & Hf & _ & _ & He & _).
    exists f, (trace w ++ pre)%list, (suffixOf lg now).
    split; [exact Hf|].
    fold r in Ht. rewrite Ht, He, <- app_assoc. reflexivity.
  - left. subst r. unfold openOrRotateFile. now rewrite Hrot.
Qed.

Lemma append_assoc_r (a b c : string) : ((a ++ b) ++ c)%string = (a ++ b ++ c)%string.
Proof. induction a as [|x a IH]; cbn; [reflexivity | now rewrite IH]. Qed.

Lemma isLogName_dot_log (stem : string) :
  ToLower ".log" = ".log"%string -> isLogName (stem ++ ".log") = true.
Proof.
  intros HL. unfold isLogName, sliceFrom. rewrite length_append.
  cbn [String.length].
  replace (String.length stem + 4 - 4)%nat with (String.length stem) by lia.
  replace (String.length stem + 4 - String.length stem)%nat with 4%nat by lia.
  pose proof (substring_back stem ".log") as B. cbn [String.length] in B.
  rewrite B, HL.
  replace (String.length stem + 4 <? 4)%nat with false
    by (symmetry; apply Nat.ltb_ge; lia).
  reflexivity.
Qed.

Lemma Format_date (t : Time) :
  Format t "2006-01-02" =
  (appendInt (Year t) 4 ++ "-" ++ appendInt (Month t) 2 ++ "-" ++
   appendInt (Day t) 2)%string.
Proof.
  assert (R : forall s : string, (s ++ "")%string = s)
    by (induction s as [|c r IH]; simpl; [reflexivity | now rewrite IH]).
  rewrite <- (R (appendInt (Day t) 2)). reflexivity.
Qed.

(** X10: every file [openOrRotateFile] asks the system to open is named: the
    engine's directory, the lower-cased prefix, a dot, the date of the
    timestamp as year-month-day, then, when a file size limit is set, a dash
    and the sub-file index in at least three digits (1 when the day of the
    month differs from [dayOfFile], otherwise one more than the index before),
    then [.log].  When the open succeeds and that name holds no path
    separator, the directory lists the file afterwards as a regular file. *)
Theorem opened_file_name :
  forall (now : Time) (msgLen : Z) (lg : engine) (w : world) (p : string)
         (res : option nat),
    let r := openOrRotateFile now msgLen lg w in
    In (EvOpenFile p res) (skipn (List.length (trace w)) (trace (snd r))) ->
    let index :=
      if negb (Day now =? dayOfFile lg) then 1 else add64 (subFileIndex lg) 1 in
    let limited := 0 <? maxFileSize lg in
    let name :=
      (ToLower (prefix lg) ++ "." ++
       appendInt (Year now) 4 ++ "-" ++ appendInt (Month now) 2 ++ "-" ++
       appendInt (Day now) 2 ++
       (if limited then "-" ++ Sprintf03d index else "") ++ ".log")%string in
    p = (directory lg ++ name)%string /\
    (forall f, res = Some f -> Contains name Separator = false ->
               exists entries e,
                 dir (snd r) = Some entries /\ In e entries /\
                 deName e = name /\ deIsDir e = false).
Proof.
  intros now msgLen lg w p res r Hin index limited name.
  destruct (rotate lg (Day now) msgLen) eqn:Hrot.
  - destruct (rotation_outcome now msgLen lg w Hrot)
      as (evs & Ht & Hopen & _ & _ & _ & Hok & _ & _ & Hno).
    fold r in Ht, Hok, Hno.
    rewrite Ht, skipn_app, skipn_all, Nat.sub_diag in Hin. cbn [skipn app] in Hin.
    assert (E : logName lg now (suffixOf lg now) = name).
    { unfold logName, suffixOf, nextIndex. subst name limited index.
      rewrite Format_date, !append_assoc_r. cbn [append].
      destruct (0 <? maxFileSize lg); reflexivity. }
    rewrite E in Hopen, Hok.
    split; [exact (Hopen p res Hin)|].
    intros f -> Hn.
    destruct (fst (fst r)) eqn:Eerr.
    + now elim (Hno eq_refl p f).
    + destruct (Hok eq_refl) as (f' & pre & _ & _ & _ & _ & Hl). exact (Hl Hn).
  - subst r. unfold openOrRotateFile in Hin. rewrite Hrot in Hin.
    cbn [negb snd] in Hin. rewrite skipn_all in Hin. now elim Hin.
Qed.

(** ** Purge *)

Lemma filterFiles_In (files : list DirEntry) (f : LogFile) :
  In f (filterFiles files) ->
  exists e, In e files /\ deName e = Name f /\ deIsDir e = false /\
            isLogName (deName e) = true /\
            deInfo e = Some (FileSize f, CreatedAt f).
Proof.
  induction files as [|e files IH]; cbn [filterFiles]; [intros []|].
  destruct (deIsDir e) eqn:Hd.
  { intros H. destruct (IH H) as (e' & Hin & K). exists e'. split; [now right | exact K]. }
  destruct (isLogName (deName e)) eqn:Hl; cbn [negb].
  2:{ intros H. destruct (IH H) as (e' & Hin & K). exists e'.
      split; [now right | exact K]. }
  destruct (deInfo e) as [[size ctime]|] eqn:Hi.
  2:{ intros H. destruct (IH H) as (e' & Hin & K). exists e'.
      split; [now right | exact K]. }
  intros [<-|H].
  - exists e. cbn. repeat split; auto.
  - destruct (IH H) as (e' & Hin & K). exists e'. split; [now right | exact K].
Qed.

(** X11: a purge pass does nothing but remove files, and whatever it asks to
    be removed is a regular entry of the directory listing whose name ends in
    [.log] and whose [Info] could be read: sub-directories and other files are
    never touched. *)
Theorem purge_removes_only_listed_log_files :
  forall (lg : engine) (w : world),
    let r := purgeFileVault lg w in
    exists paths : list string,
      trace (snd r) = (trace w ++ map EvRemove paths)%list /\
      forall p, In p paths ->
        exists files e,
          dir w = Some files /\ In e files /\
          p = (directory lg ++ deName e)%string /\
          deIsDir e = false /\ isLogName (deName e) = true /\ deInfo e <> None.
Proof.
  intros lg w r. subst r. unfold purgeFileVault.
  destruct ((daysToKeep lg =? 0)%N && (maxFileVaultSize lg =? 0)).
  { exists []. cbn. rewrite app_nil_r. split; [reflexivity | intros p []]. }
  destruct (dir w) as [files|] eqn:Hdir.
  2:{ exists []. cbn. rewrite app_nil_r. split; [reflexivity | intros p []]. }
  match goal with
  | |- context [let '(a, b) := ?X in _] => destruct X as [cut size]
  end.
  cbn [snd].
  exists (map (fun f => (directory lg ++ Name f)%string)
              (firstn cut (SortFunc (filterFiles files)))).
  split; [rewrite removeAll_trace; now rewrite map_map|].
  intros p Hp. apply in_map_iff in Hp. destruct Hp as (f & <- & Hf).
  assert (Hf' : In f (SortFunc (filterFiles files)))
    by (rewrite <- (firstn_skipn cut); apply in_or_app; now left).
  clear Hf. rename Hf' into Hf.
  apply (Permutation_in _ (SortFunc_perm (filterFiles files))) in Hf.
  destruct (filterFiles_In files f Hf) as (e & Hin & Hn & Hd & Hl & Hi).
  exists files, e. rewrite <- Hn.
  split; [reflexivity|]. split; [exact Hin|]. split; [reflexivity|].
  split; [exact Hd|]. split; [exact Hl|]. rewrite Hi. discriminate.
Qed.

(** X12: with a vault cap between 10KB and the largest [int64] set, the vault
    size a purge returns is never more than the cap less 10KB. *)
Theorem purge_leaves_headroom :
  forall (lg : engine) (w : world),
    10 * 1024 <= maxFileVaultSize lg <= MaxInt64 ->
    fst (fst (purgeFileVault lg w)) <= maxFileVaultSize lg - 10 * 1024.
Proof.
  intros lg w H. unfold purgeFileVault.
  replace (maxFileVaultSize lg =? 0) with false
    by (symmetry; apply Z.eqb_neq; lia).
  rewrite andb_false_r.
  destruct (dir w) as [files|]; [|cbn; lia].
  replace (0 <? maxFileVaultSize lg) with true by (symmetry; apply Z.ltb_lt; lia).
  set (sorted := SortFunc (filterFiles files)).
  set (c1 := if (0 <? daysToKeep lg)%N
             then cutOld (lowestTime w (daysToKeep lg)) sorted else 0%nat).
  assert (R : sub64 (maxFileVaultSize lg) minFileSize = maxFileVaultSize lg - 10 * 1024).
  { unfold sub64, minFileSize. apply wrap64_in_range.
    unfold in_int64, MaxInt64 in *. lia. }
  rewrite R.
  destruct (evict_spec (maxFileVaultSize lg - 10 * 1024) (skipn c1 sorted) c1)
    as (k & Hk & He & _ & Hend).
  rewrite He. cbn [fst].
  destruct Hend as [->|Hend]; [|exact Hend].
  rewrite skipn_all. cbn. lia.
Qed.



(** ** Writing *)

Lemma rotate_false_room (lg : engine) (dayOfNow len : Z) :
  rotate lg dayOfNow len = false ->
  0 < maxFileSize lg ->
  add64 (currentFileSize lg) len <= maxFileSize lg.
Proof.
  unfold rotate. intros H Hmax.
  apply orb_false_iff in H. destruct H as [H _].
  apply orb_false_iff in H. destruct H as [_ H].
  apply andb_false_iff in H. destruct H as [H|H].
  - apply Z.ltb_ge in H. lia.
  - rewrite Z.gtb_ltb in H. apply Z.ltb_ge in H. exact H.
Qed.

(** X13: with a file size limit of at most half the largest [int64] (so that
    the sum of two sizes within the limit does not overflow) and a line ending
    of non-negative length, the size counter stays within the limit as long as
    each message, with its line ending, fits into an empty file: if
    [currentFileSize] is between 0 and [maxFileSize] before a [writeRAW], it
    is so afterwards, whether the call rotates or not and whether its writes
    succeed, fail, or fail after the first of the two; [maxFileSize] is not
    changed. *)
Theorem file_size_stays_within_cap :
  forall (now : Time) (msg : string) (lg : engine) (w : world),
    0 < maxFileSize lg -> 2 * maxFileSize lg <= MaxInt64 ->
    0 <= newLineLen ->
    0 <= currentFileSize lg <= maxFileSize lg ->
    Z.of_nat (String.length msg) + newLineLen <= maxFileSize lg ->
    let lg' := fst (writeRAW now msg lg w) in
    maxFileSize lg' = maxFileSize lg /\
    0 <= currentFileSize lg' <= maxFileSize lg'.
Proof.
  intros now msg lg w Hpos Hbig Hnl Hcur Hfit lg'. subst lg'.
  unfold writeRAW.
  set (len := Z.of_nat (String.length msg)) in *.
  assert (Hlen : 0 <= len) by (subst len; lia).
  assert (HL : add64 len newLineLen = len + newLineLen)
    by (apply add64_in_range; unfold in_int64, MaxInt64 in *; lia).
  rewrite HL.
  assert (Hafter :
    let r := openOrRotateFile now (len + newLineLen) lg w in
    maxFileSize (snd (fst r)) = maxFileSize lg /\
    0 <= currentFileSize (snd (fst r)) /\
    currentFileSize (snd (fst r)) + len + newLineLen <= maxFileSize lg).
  { destruct (rotate lg (Day now) (len + newLineLen)) eqn:Hrot.
    - destruct (rotation_outcome now (len + newLineLen) lg w Hrot)
        as (evs & _ & _ & Hc & Hs & _).
      cbv zeta. rewrite Hs. inversion Hc. repeat split; lia.
    - pose proof (rotate_false_room lg (Day now) (len + newLineLen) Hrot Hpos) as R.
      rewrite add64_in_range in R by (unfold in_int64, MaxInt64 in *; lia).
      unfold openOrRotateFile. rewrite Hrot. cbn. repeat split; lia. }
  destruct (openOrRotateFile now (len + newLineLen) lg w) as [[err lg1] w1].
  cbn [fst snd] in Hafter. destruct Hafter as (Hm & H0 & Hroom).
  destruct err; [cbn; lia|].
  destruct (fileWriteString (fd lg1) msg w1) as [[|] w2]; [|cbn; lia].
  cbn [currentFileSize currentFileVaultSize setSizes fd].
  assert (A1 : add64 (currentFileSize lg1) len = currentFileSize lg1 + len)
    by (apply add64_in_range; unfold in_int64, MaxInt64 in *; lia).
  destruct (fileWriteString (fd lg1) newLine w2) as [[|] w3];
    cbn [fst currentFileSize maxFileSize setSizes]; rewrite A1.
  - rewrite add64_in_range by (unfold in_int64, MaxInt64 in *; lia). lia.
  - lia.
Qed.

Lemma fileWriteString_ok (f : nat) (s : string) (w : world) :
  (forall i, writeOk w i = true) ->
  exists w', fileWriteString (Some f) s w = (true, w') /\
             trace w' = (trace w ++ [EvWriteString f s true])%list /\
             writeOk w' = writeOk w.
Proof.
  intros H. unfold fileWriteString. rewrite H. eexists. split; [reflexivity|].
  split; reflexivity.
Qed.

(** When writes succeed, a [writeRAW] that ends with a file open has written
    the message and then the line ending to that file, last of all; one that
    ends with no file open has written nothing. *)
Lemma writeRAW_line (now : Time) (msg : string) (lg : engine) (w : world) :
  (forall i, writeOk w i = true) ->
  let r := writeRAW now msg lg w in
  match fd (fst r) with
  | Some f => exists pre, trace (snd r) =
                (pre ++ [EvWriteString f msg true; EvWriteString f newLine true])%list
  | None => forall f s res, In (EvWriteString f s res)
                               (skipn (List.length (trace w)) (trace (snd r))) -> False
  end.
Proof.
  intros Hw. unfold writeRAW.
  set (len := add64 (Z.of_nat (String.length msg)) newLineLen).
  pose proof (openOrRotateFile_fd now len lg w) as (Hiff & _ & _).
  assert (Hw1 : writeOk (snd (openOrRotateFile now len lg w)) = writeOk w /\
                exists evs, trace (snd (openOrRotateFile now len lg w))
                            = (trace w ++ evs)%list /\
                            forall f s res, ~ In (EvWriteString f s res) evs).
  { destruct (rotate lg (Day now) len) eqn:Hrot.
    - destruct (rotation_outcome now len lg w Hrot)
        as (evs & Ht & _ & _ & _ & Hwo & _ & _ & Hq & _).
      split; [exact Hwo|]. exists evs. split; [exact Ht | exact Hq].
    - unfold openOrRotateFile. rewrite Hrot. cbn. split; [reflexivity|].
      exists []. rewrite app_nil_r. split; [reflexivity | intros f s res []]. }
  destruct (openOrRotateFile now len lg w) as [[err lg1] w1].
  cbn [fst snd] in Hiff, Hw1. destruct Hw1 as (Hw1 & evs & Ht & Hq).
  assert (Hok1 : forall i, writeOk w1 i = true) by (intros i; now rewrite Hw1).
  destruct err.
  - cbn [fst snd]. destruct (fd lg1) as [f|] eqn:Hfd.
    + exfalso. destruct Hiff as [_ Hiff]. discriminate Hiff. discriminate.
    + intros f s res Hin. rewrite Ht, skipn_app, skipn_all, Nat.sub_diag in Hin.
      cbn [skipn app] in Hin. now elim (Hq f s res).
  - destruct (fd lg1) as [f|] eqn:Hfd.
    + destruct (fileWriteString_ok f msg w1 Hok1) as (w2 & E2 & T2 & O2).
      rewrite E2. cbn [fd setSizes]. rewrite Hfd.
      assert (Hok2 : forall i, writeOk w2 i = true) by (intros i; now rewrite O2).
      destruct (fileWriteString_ok f newLine w2 Hok2) as (w3 & E3 & T3 & _).
      rewrite E3. cbn [fst snd fd setSizes]. rewrite Hfd.
      exists (trace w1). rewrite T3, T2. now rewrite <- app_assoc.
    + exfalso. destruct Hiff as [Hiff _]. now apply Hiff.
Qed.

(** The text a level method hands to [writeRAW]. *)
Definition lineOf (now : Time) (level msg : string) (raw : bool) : string :=
  if raw then msg
  else (Format now "2006-01-02 15:04:05.000" ++ " [" ++ level ++ "]: " ++ msg)%string.

(** X14: when writes succeed, each level method that ends with a file open
    has written exactly its line, then the line ending, to that file as the
    last two things it did: the line is the message itself when it is raw and
    the timestamp, the level in brackets, a colon and the message otherwise,
    with levels SUCCESS, ERROR, WARNING, INFO and DEBUG. *)
Theorem level_methods_write_one_line :
  forall (now : Time) (msg : string) (raw flag : bool) (lg : engine) (w : world),
    (forall i, writeOk w i = true) ->
    let wrote (level : string) (r : engine * world) : Prop :=
      forall f, fd (fst r) = Some f ->
        exists pre, trace (snd r) =
          (pre ++ [EvWriteString f (lineOf now level msg raw) true;
                   EvWriteString f newLine true])%list in
    wrote "SUCCESS"%string (Success now msg raw flag lg w) /\
    wrote "ERROR"%string (Error now msg raw lg w) /\
    wrote "WARNING"%string (Warning now msg raw lg w) /\
    wrote "INFO"%string (Info now msg raw lg w) /\
    wrote "DEBUG"%string (Debug now msg raw lg w).
Proof.
  intros now msg raw flag lg w Hw wrote.
  assert (K : forall level, wrote level
                (if negb raw then write now level msg lg w else writeRAW now msg lg w)).
  { intros level f Hf. unfold lineOf. destruct raw; cbn [negb] in *.
    - pose proof (writeRAW_line now msg lg w Hw) as L. cbv zeta in L.
      now rewrite Hf in L.
    - unfold write in *.
      pose proof (writeRAW_line now
                    (Format now "2006-01-02 15:04:05.000" ++ " [" ++ level ++ "]: " ++ msg)
                    lg w Hw) as L.
      cbv zeta in L. rewrite Hf in L. exact L. }
  repeat split; apply K.
Qed.



(** ** Construction *)

(** X15: [NewEngine] fails exactly when no prefix is given and the name of the
    executable cannot be had, or the directory is relative and the working
    directory cannot be had, and then it has touched nothing; an engine it
    returns has no file open, has counted no bytes, and has a directory that
    ends in the path separator. *)
Theorem new_engine_fails_only_without_names :
  forall (opts : Options) (w : world),
    let d0 := if (0 <? String.length (Directory opts))%nat
              then ToSlash (Directory opts) else "logs"%string in
    let r := NewEngine opts w in
    (fst r = None <->
     (Prefix opts = EmptyString /\ Executable w = None) \/
     (IsAbs d0 = false /\ Getwd w = None)) /\
    (fst r = None -> snd r = w) /\
    (forall lg, fst r = Some lg ->
                fd lg = None /\ currentFileSize lg = 0 /\
                HasSuffix (directory lg) Separator = true).
Proof.
  intros opts w d0 r. subst r. unfold NewEngine, targetDirectory. fold d0.
  assert (Hp : (String.length (Prefix opts) =? 0)%nat = true <-> Prefix opts = EmptyString).
  { destruct (Prefix opts); cbn; split; congruence. }
  assert (Hdp : defaultPrefix w = None <-> Executable w = None).
  { unfold defaultPrefix. destruct (Executable w); split; congruence. }
  destruct (String.length (Prefix opts) =? 0)%nat eqn:Hlen.
  - destruct (defaultPrefix w) as [pfx|] eqn:Hdef.
    + assert (He : Executable w <> None) by (intros X; apply Hdp in X; discriminate X).
      destruct (IsAbs d0) eqn:Habs; cbn [negb].
      * match goal with
        | |- context [purgeFileVault ?e w] =>
            destruct (purgeFileVault e w) as [[vault err] w1]
        end.
        cbn [fst snd]. split; [|split].
        -- split; [discriminate|]. intros [[_ X]|[X _]]; [now elim He | discriminate X].
        -- discriminate.
        -- intros lg H. inversion H; subst lg. cbn.
           repeat split. destruct (HasSuffix (Clean d0) Separator) eqn:Hs; cbn [negb].
           ++ exact Hs.
           ++ apply HasSuffix_app.
      * destruct (Getwd w) as [wd|] eqn:Hwd; cbn [option_map].
        -- match goal with
           | |- context [purgeFileVault ?e w] =>
               destruct (purgeFileVault e w) as [[vault err] w1]
           end.
           cbn [fst snd]. split; [|split].
           ++ split; [discriminate|].
              intros [[_ X]|[_ X]]; [now elim He | discriminate X].
           ++ discriminate.
           ++ intros lg H. inversion H; subst lg. cbn.
              repeat split.
              destruct (HasSuffix (Clean (Join wd d0)) Separator) eqn:Hs; cbn [negb].
              ** exact Hs.
              ** apply HasSuffix_app.
        -- cbn [fst snd]. split; [|split].
           ++ split; [intros _; right; now split | reflexivity].
           ++ reflexivity.
           ++ discriminate.
    + cbn [fst snd]. split; [|split].
      * split; [intros _; left; split; [now apply Hp | now apply Hdp] | reflexivity].
      * reflexivity.
      * discriminate.
  - assert (Hne : Prefix opts <> EmptyString)
      by (intros X; apply Hp in X; discriminate X).
    destruct (IsAbs d0) eqn:Habs; cbn [negb].
    + match goal with
      | |- context [purgeFileVault ?e w] =>
          destruct (purgeFileVault e w) as [[vault err] w1]
      end.
      cbn [fst snd]. split; [|split].
      * split; [discriminate|]. intros [[X _]|[X _]]; [now elim Hne | discriminate X].
      * discriminate.
      * intros lg H. inversion H; subst lg. cbn.
        repeat split. destruct (HasSuffix (Clean d0) Separator) eqn:Hs; cbn [negb].
        -- exact Hs.
        -- apply HasSuffix_app.
    + destruct (Getwd w) as [wd|] eqn:Hwd; cbn [option_map].
      * match goal with
        | |- context [purgeFileVault ?e w] =>
            destruct (purgeFileVault e w) as [[vault err] w1]
        end.
        cbn [fst snd]. split; [|split].
        -- split; [discriminate|].
           intros [[X _]|[_ X]]; [now elim Hne | discriminate X].
        -- discriminate.
        -- intros lg H. inversion H; subst lg. cbn.
           repeat split.
           destruct (HasSuffix (Clean (Join wd d0)) Separator) eqn:Hs; cbn [negb].
           ++ exact Hs.
           ++ apply HasSuffix_app.
      * cbn [fst snd]. split; [|split].
        -- split; [intros _; right; now split | reflexivity].
        -- reflexivity.
        -- discriminate.
Qed.

End WithPlatform.

Lemma purge_removes_only_listed_log_files_witness :
  exists paths : list string,
    trace (snd (purgeFileVault (P := unixPlatform) (vaultEngine None) vaultWorld))
    = map EvRemove paths /\
    forall p, In p paths ->
      exists files e,
        dir vaultWorld = Some files /\ In e files /\
        p = (directory (vaultEngine None) ++ deName e)%string /\
        deIsDir e = false /\ isLogName (P := unixPlatform) (deName e) = true /\
        deInfo e <> None.
Proof.
  destruct (purge_removes_only_listed_log_files (P := unixPlatform)
              (vaultEngine None) vaultWorld) as (paths & T & H).
  exists paths. split; [exact T | exact H].
Defined.

Lemma rotation_succeeds_iff_file_open_witness :
  let r := openOrRotateFile (mkTime (day 101) 2024 3 6 0 0 0 0) 100
                            (vaultEngine (Some 2%nat)) vaultWorld in
  fst (fst r) = false /\ dayOfFile (snd (fst r)) = 6.
Proof.
  assert (E : fst (fst (openOrRotateFile (mkTime (day 101) 2024 3 6 0 0 0 0) 100
                                         (vaultEngine (Some 2%nat)) vaultWorld)) = false)
    by (vm_compute; reflexivity).
  split; [exact E|].
  apply (rotation_succeeds_iff_file_open (mkTime (day 101) 2024 3 6 0 0 0 0) 100
           (vaultEngine (Some 2%nat)) vaultWorld). exact E.
Defined.

Lemma purge_leaves_headroom_witness :
  10 * 1024 <= maxFileVaultSize (vaultEngine None) <= MaxInt64 /\
  fst (fst (purgeFileVault (vaultEngine None) vaultWorld)) <= 102400 - 10 * 1024.
Proof.
  assert (H : 10 * 1024 <= maxFileVaultSize (vaultEngine None) <= MaxInt64)
    by (cbn; unfold MaxInt64; lia).
  split; [exact H|]. exact (purge_leaves_headroom (vaultEngine None) vaultWorld H).
Defined.

Lemma opened_file_name_witness :
  let r := openOrRotateFile (mkTime (day 101) 2024 3 6 0 0 0 0) 100
                            (vaultEngine (Some 2%nat)) vaultWorld in
  In (EvOpenFile "/srv/logs/app.2024-03-06-001.log" (Some 3%nat))
     (skipn (List.length (trace vaultWorld)) (trace (snd r))) /\
  exists entries e,
    dir (snd r) = Some entries /\ In e entries /\
    deName e = "app.2024-03-06-001.log"%string /\ deIsDir e = false.
Proof.
  intros r.
  assert (Hin : In (EvOpenFile "/srv/logs/app.2024-03-06-001.log" (Some 3%nat))
                   (skipn (List.length (trace vaultWorld)) (trace (snd r))))
    by (vm_compute; repeat (first [left; reflexivity | right])).
  split; [exact Hin|].
  destruct (opened_file_name (P := unixPlatform)
              (mkTime (day 101) 2024 3 6 0 0 0 0) 100
              (vaultEngine (Some 2%nat)) vaultWorld
              "/srv/logs/app.2024-03-06-001.log" (Some 3%nat) Hin) as [_ Hl].
  exact (Hl 3%nat eq_refl eq_refl).
Defined.

Lemma file_size_stays_within_cap_witness :
  let lg' := fst (writeRAW sampleTime "hello" (vaultEngine (Some 2%nat)) vaultWorld) in
  0 < maxFileSize (vaultEngine (Some 2%nat)) /\
  0 <= currentFileSize lg' <= maxFileSize lg'.
Proof.
  split; [reflexivity|].
  apply (file_size_stays_within_cap (P := unixPlatform) sampleTime "hello" (vaultEngine (Some 2%nat)) vaultWorld);
    cbn; unfold MaxInt64; lia.
Defined.

Lemma level_methods_write_one_line_witness :
  (forall i, writeOk vaultWorld i = true) /\
  forall f, fd (fst (Info sampleTime "hello" false (vaultEngine (Some 2%nat)) vaultWorld))
            = Some f ->
    exists pre,
      trace (snd (Info sampleTime "hello" false (vaultEngine (Some 2%nat)) vaultWorld)) =
      (pre ++ [EvWriteString f "2024-03-05 07:08:09.000 [INFO]: hello" true;
               EvWriteString f newLine true])%list.
Proof.
  split; [reflexivity|].
  apply (level_methods_write_one_line (P := unixPlatform) sampleTime "hello" false false
           (vaultEngine (Some 2%nat)) vaultWorld (fun _ => eq_refl)).
Defined.

Lemma new_engine_fails_only_without_names_witness :
  fst (NewEngine (mkOptions "" "logs" 7 0 0)
                 (mkWorld sampleTime None (Some "/srv"%string) None (fun _ => true)
                          (fun _ => true) (fun _ => true) (fun _ => true)
                          (fun _ => 0%nat) 0 [] 3 []))
  = None.
Proof.
  apply (new_engine_fails_only_without_names (P := unixPlatform) (mkOptions "" "logs" 7 0 0)).
  left. split; reflexivity.
Defined.

End FileExtra.

(* ===================================================================== *)
(** * Properties of the console engine and of the logger *)
(* ===================================================================== *)

Module ConsoleExtra.
Import Console.

(** [appended w text c c']: going from [c] to [c'], exactly [text] was
    written, to stream [w], and the other stream was left alone. *)
Definition appended (w : stream) (text : string) (c c' : console) : Prop :=
  match w with
  | Stdout => stdout c' = (stdout c ++ [text])%list /\ stderr c' = stderr c
  | Stderr => stderr c' = (stderr c ++ [text])%list /\ stdout c' = stdout c
  end.

Lemma Fprint_appended (w : stream) (text : string) (c : console) :
  appended w text c (Fprint w text c).
Proof. destruct w; split; reflexivity. Qed.

(** The text of one console line. *)
Definition consoleLine (now : Time) (tag msg : string) (raw : bool) : string :=
  if raw then (msg ++ NL)%string
  else (Format now "2006-01-02 15:04:05.000" ++ " " ++ tag ++ " " ++ msg ++ NL)%string.

(** X16: every level method prints exactly one text, on one stream, and
    leaves the other stream alone: errors and warnings go to the standard
    error, informational and debug messages to the standard output, and a
    success message to the standard error when success is treated as
    error-level and to the standard output otherwise.  The text is the
    message and a newline when raw, and otherwise the timestamp, the level tag
    of the engine, the message and a newline, separated by spaces. *)
Theorem console_routes_levels_to_streams :
  forall (now : Time) (msg : string) (raw flag : bool) (lg : engine) (c : console),
    let tag i := at_ i (themedLevels lg) in
    appended Stderr (consoleLine now (tag 0%nat) msg raw) c (Error now msg raw lg c) /\
    appended Stderr (consoleLine now (tag 1%nat) msg raw) c (Warning now msg raw lg c) /\
    appended Stdout (consoleLine now (tag 2%nat) msg raw) c (Info now msg raw lg c) /\
    appended Stdout (consoleLine now (tag 3%nat) msg raw) c (Debug now msg raw lg c) /\
    appended (if flag then Stderr else Stdout) (consoleLine now (tag 4%nat) msg raw) c
             (Success now msg raw flag lg c).
Proof.
  intros now msg raw flag lg c tag.
  unfold Error, Warning, Info, Debug, Success, consolePrint, consolePrintRAW, consoleLine.
  destruct raw; cbn [negb]; repeat split; try apply Fprint_appended;
    destruct flag; split; reflexivity.
Qed.

(** X17: without colours (disabled by option, or a terminal without colour
    support) the level tags are [[ERROR]], [[WARN]], [[INFO]], [[DEBUG]] and
    [[SUCCESS]]. *)
Theorem plain_console_tags :
  forall (t : terminal) (opts : Options),
    DisableColor opts || asciiProfile t = true ->
    themedLevels (NewEngine t opts)
    = ["[ERROR]"; "[WARN]"; "[INFO]"; "[DEBUG]"; "[SUCCESS]"]%string.
Proof. intros t opts H. unfold NewEngine. now rewrite H. Qed.

Lemma plain_console_tags_witness :
  DisableColor (mkOptions true) || asciiProfile (mkTerminal false (fun _ s => s)) = true /\
  stderr (Error sampleTime "disk full" false
                (NewEngine (mkTerminal false (fun _ s => s)) (mkOptions true))
                (mkConsole [] []))
  = ["2024-03-05 07:08:09.000 [ERROR] disk full" ++ NL]%string.
Proof.
  split; [reflexivity|].
  unfold Error, consolePrint. cbn [negb].
  rewrite (plain_console_tags (mkTerminal false (fun _ s => s)) (mkOptions true) eq_refl).
  reflexivity.
Defined.

(** X18: with colours, the tags of errors, warnings and informational
    messages are the coloured [[ERROR]], [[WARN]] and [[INFO]]; the fourth
    slot, which [Debug] prints, is assigned twice and ends up holding the
    green [[SUCCESS]], and the fifth, which [Success] prints, is never
    assigned and stays empty. *)
Theorem coloured_console_tags :
  forall (t : terminal) (opts : Options),
    DisableColor opts = false -> asciiProfile t = false ->
    themedLevels (NewEngine t opts)
    = [colorize t [BlinkRapid; FgHiWhite; BgRed] "[ERROR]";
       colorize t [FgHiYellow] "[WARN]";
       colorize t [FgHiBlue] "[INFO]";
       colorize t [FgHiGreen] "[SUCCESS]";
       EmptyString]%string.
Proof. intros t opts H1 H2. unfold NewEngine. now rewrite H1, H2. Qed.

Lemma coloured_console_tags_witness :
  let t := mkTerminal false (fun _ s => ("*" ++ s ++ "*")%string) in
  DisableColor (mkOptions false) = false /\ asciiProfile t = false /\
  stdout (Success sampleTime "done" false false (NewEngine t (mkOptions false))
                  (mkConsole [] []))
  = ["2024-03-05 07:08:09.000  done" ++ NL]%string /\
  stdout (Debug sampleTime "step" false (NewEngine t (mkOptions false))
                (mkConsole [] []))
  = ["2024-03-05 07:08:09.000 *[SUCCESS]* step" ++ NL]%string.
Proof.
  intros t. split; [reflexivity|]. split; [reflexivity|].
  unfold Success, Debug, consolePrint. cbn [negb].
  rewrite (coloured_console_tags t (mkOptions false) eq_refl eq_refl).
  split; reflexivity.
Defined.

End ConsoleExtra.

Module LoggerExtra.
Import Logger LoggerAdmin.

Section WithEngines.
Variable Marshal : value -> option string.
Variable timeNow : Time.
Variable UTC : Time -> Time.
Context {E : Type} {EngineE : Engines.Engine E}.

(** X19: a logger at level quiet hands nothing to any engine, whatever the
    value and whatever the method; the value is not even looked at. *)
Theorem quiet_logger_is_silent :
  forall (v : value) (level : N) (lg : Logger (E := E)),
    logLevel lg = LogLevelQuiet ->
    Success Marshal timeNow UTC v lg = Some lg /\
    Error Marshal timeNow UTC v lg = Some lg /\
    Warning Marshal timeNow UTC v lg = Some lg /\
    Info Marshal timeNow UTC v lg = Some lg /\
    Debug Marshal timeNow UTC level v lg = Some lg.
Proof.
  intros v level lg H. unfold Success, Error, Warning, Info, Debug. rewrite H.
  destruct (sendSuccessAtErrorLogLevel lg); repeat split.
Qed.

(** What reaches the engines when a call goes through: every engine, in
    order, gets the same call. *)
Definition sent (f : E -> E) (lg : Logger (E := E)) : option (Logger (E := E)) :=
  Some (setEngines (List.map f (engines lg)) lg).

(** X20: a message of type [string] that passes the level test is handed to
    every engine once, in the order the engines were added, with the text
    unchanged, not raw, and all with the same timestamp; the tests are:
    error from level 1, warning from level 2, information from level 3, debug
    from level 4 and only up to the logger's debug level, success from level
    3, or from level 1 when success is treated as error-level.  A call that
    fails its test changes nothing. *)
Theorem string_message_dispatch :
  forall (s : string) (level : N) (lg : Logger (E := E)),
    let now := getTimestamp timeNow UTC lg in
    let v := VString true s in
    Error Marshal timeNow UTC v lg =
      (if (1 <=? logLevel lg)%N then sent (Engines.Error now s false) lg else Some lg) /\
    Warning Marshal timeNow UTC v lg =
      (if (2 <=? logLevel lg)%N then sent (Engines.Warning now s false) lg else Some lg) /\
    Info Marshal timeNow UTC v lg =
      (if (3 <=? logLevel lg)%N then sent (Engines.Info now s false) lg else Some lg) /\
    Debug Marshal timeNow UTC level v lg =
      (if (4 <=? logLevel lg)%N && (level <=? debugLogLevel lg)%N
       then sent (Engines.Debug now s false) lg else Some lg) /\
    Success Marshal timeNow UTC v lg =
      (if ((if sendSuccessAtErrorLogLevel lg then 1 else 3) <=? logLevel lg)%N
       then sent (Engines.Success now s false (sendSuccessAtErrorLogLevel lg)) lg
       else Some lg).
Proof.
  intros s level lg now v.
  unfold Error, Warning, Info, Debug, Success, LogLevelError, LogLevelWarning,
    LogLevelInfo, LogLevelDebug, sent, log. cbn.
  rewrite !N.leb_antisym.
  destruct (sendSuccessAtErrorLogLevel lg);
    destruct (logLevel lg <? 1)%N, (logLevel lg <? 2)%N, (logLevel lg <? 3)%N,
             (logLevel lg <? 4)%N, (debugLogLevel lg <? level)%N;
    cbn; repeat split.
Qed.

(** X21: a struct, or a pointer to a struct, that [json.Marshal] accepts and
    that passes the level test of the method it is logged with is handed to
    every engine as a raw message: the JSON text with the timestamp and the
    name of the level ([error], [warning], [info], [debug], [success]) added by
    [addPayloadToJSON].  The level tests are those of string messages, and a
    call that fails its test changes nothing. *)
Theorem struct_message_dispatch :
  forall (v : value) (js : string) (level : N) (lg : Logger (E := E)),
    marshalled v = true -> Marshal v = Some js ->
    let now := getTimestamp timeNow UTC lg in
    let json (name : string) := addPayloadToJSON js now name in
    Error Marshal timeNow UTC v lg =
      (if (1 <=? logLevel lg)%N
       then sent (Engines.Error now (json "error"%string) true) lg else Some lg) /\
    Warning Marshal timeNow UTC v lg =
      (if (2 <=? logLevel lg)%N
       then sent (Engines.Warning now (json "warning"%string) true) lg else Some lg) /\
    Info Marshal timeNow UTC v lg =
      (if (3 <=? logLevel lg)%N
       then sent (Engines.Info now (json "info"%string) true) lg else Some lg) /\
    Debug Marshal timeNow UTC level v lg =
      (if (4 <=? logLevel lg)%N && (level <=? debugLogLevel lg)%N
       then sent (Engines.Debug now (json "debug"%string) true) lg else Some lg) /\
    Success Marshal timeNow UTC v lg =
      (if ((if sendSuccessAtErrorLogLevel lg then 1 else 3) <=? logLevel lg)%N
       then sent (Engines.Success now (json "success"%string) true
                                  (sendSuccessAtErrorLogLevel lg)) lg
       else Some lg).
Proof.
  intros v js level lg Hm HM now json.
  assert (Pv : parseObj Marshal v = Some (js, true, true)).
  { destruct v as [|exact s|id| |target|k id]; try discriminate Hm.
    - unfold parseObj, marshalStruct. cbn. now rewrite HM.
    - destruct target as [|exact s|id| |target|k id]; try discriminate Hm.
      unfold parseObj, marshalStruct. cbn. now rewrite HM. }
  unfold Error, Warning, Info, Debug, Success, LogLevelError, LogLevelWarning,
    LogLevelInfo, LogLevelDebug, sent, log.
  rewrite Pv. cbn [negb]. fold now.
  rewrite !N.leb_antisym.
  destruct (sendSuccessAtErrorLogLevel lg);
    destruct (logLevel lg <? 1)%N, (logLevel lg <? 2)%N, (logLevel lg <? 3)%N,
             (logLevel lg <? 4)%N, (debugLogLevel lg <? level)%N;
    cbn; repeat split.
Qed.

(** X23: [Destroy] on a logger other than the default one destroys every
    engine once, in order, and leaves the logger without engines; from then
    on a call of any of the five log methods with a value [parseObj] can read
    changes nothing.  On the default logger [Destroy] does nothing. *)
Theorem logger_destroy_detaches_engines :
  forall (lg : Logger (E := E)) (v : value) (level : N),
    let lg' := fst (LoggerAdmin.Destroy false lg) in
    snd (LoggerAdmin.Destroy false lg) = List.map Engines.Destroy (engines lg) /\
    engines lg' = [] /\
    (parseObj Marshal v <> None ->
     Success Marshal timeNow UTC v lg' = Some lg' /\
     Error Marshal timeNow UTC v lg' = Some lg' /\
     Warning Marshal timeNow UTC v lg' = Some lg' /\
     Info Marshal timeNow UTC v lg' = Some lg' /\
     Debug Marshal timeNow UTC level v lg' = Some lg') /\
    LoggerAdmin.Destroy true lg = (lg, []).
Proof.
  intros lg v level lg'. subst lg'. unfold LoggerAdmin.Destroy. cbn [fst snd].
  split; [reflexivity|]. split; [reflexivity|]. split; [|reflexivity].
  intros Hp.
  assert (L : forall jsonLevel t,
             log Marshal timeNow UTC v jsonLevel t (setEngines [] lg)
             = Some (setEngines [] lg)).
  { intros jsonLevel t. unfold log.
    destruct (parseObj Marshal v) as [[[msg isJSON] ok]|]; [|now elim Hp].
    destruct ok; cbn [negb]; [|reflexivity].
    destruct t; reflexivity. }
  unfold Success, Error, Warning, Info, Debug. rewrite !L.
  repeat split;
    match goal with |- (if ?c then _ else _) = _ => destruct c; reflexivity end.
Qed.

(** X24: [AddEngine] refuses a nil engine with an error and leaves the logger
    as it is; any other engine is put after the ones already there: a logger
    made by [Create] and given engines one by one holds exactly those
    engines, in that order. *)
Theorem engines_are_kept_in_order :
  forall (opts : Options) (es : list E) (lg : Logger (E := E)),
    AddEngine None lg = (true, lg) /\
    engines (List.fold_left (fun l e => snd (AddEngine (Some e) l)) es (Create opts)) = es /\
    logLevel (List.fold_left (fun l e => snd (AddEngine (Some e) l)) es (Create opts))
    = Level opts.
Proof.
  intros opts es lg. split; [reflexivity|].
  assert (G : forall l0 : Logger (E := E),
             engines (List.fold_left (fun l e => snd (AddEngine (Some e) l)) es l0)
             = (engines l0 ++ es)%list /\
             logLevel (List.fold_left (fun l e => snd (AddEngine (Some e) l)) es l0)
             = logLevel l0).
  { induction es as [|e es IH]; intros l0; cbn [fold_left].
    - now rewrite app_nil_r.
    - destruct (IH (snd (AddEngine (Some e) l0))) as [I1 I2].
      rewrite I1, I2. cbn. now rewrite <- app_assoc. }
  destruct (G (Create opts)) as [G1 G2]. now rewrite G1, G2.
Qed.

End WithEngines.

(** X22: [addPayloadToJSON] leaves alone every text shorter than two bytes or
    not starting with an opening brace; in any other text it puts the
    timestamp and level fields right after the brace, followed by a comma
    unless the object is empty, and keeps the rest of the text as it was. *)
Theorem json_payload_is_inserted_after_the_brace :
  forall (s : string) (now : Time) (level : string),
    let fields :=
      (dq ++ "timestamp" ++ dq ++ ":" ++ dq ++ Format now "2006-01-02 15:04:05.000" ++
       dq ++ "," ++ dq ++ "level" ++ dq ++ ":" ++ dq ++ level ++ dq)%string in
    ((String.length s < 2)%nat \/ ~ (exists rest, s = String "{" rest) ->
     addPayloadToJSON s now level = s) /\
    (forall c rest, s = String "{" (String c rest) ->
       addPayloadToJSON s now level =
       ("{" ++ fields ++ (if Ascii.eqb c "}" then "" else ",") ++ String c rest)%string).
Proof.
  intros s now level fields. split.
  - intros [H|H].
    + destruct s as [|c0 [|c1 r]]; cbn in H; try reflexivity; lia.
    + destruct s as [|c0 [|c1 r]]; try reflexivity.
      unfold addPayloadToJSON. destruct (Ascii.eqb_spec c0 "{") as [->|N];
        [elim H; now eexists | reflexivity].
  - intros c rest ->. unfold addPayloadToJSON.
    change (Ascii.eqb "{" "{") with true. cbn [negb].
    unfold sliceFrom. cbn [String.length Nat.sub substring].
    rewrite substring_all.
    destruct (Ascii.eqb c "}"); cbn [negb]; subst fields;
      repeat rewrite FileExtra.append_assoc_r; reflexivity.
Qed.

Lemma json_payload_is_inserted_after_the_brace_witness :
  addPayloadToJSON "[1]" sampleTime "info" = "[1]"%string /\
  addPayloadToJSON "{}" sampleTime "info" =
  ("{" ++ dq ++ "timestamp" ++ dq ++ ":" ++ dq ++ "2024-03-05 07:08:09.000" ++ dq ++
   "," ++ dq ++ "level" ++ dq ++ ":" ++ dq ++ "info" ++ dq ++ "}")%string.
Proof.
  split.
  - apply (json_payload_is_inserted_after_the_brace "[1]" sampleTime "info").
    right. intros [rest H]. discriminate H.
  - exact (proj2 (json_payload_is_inserted_after_the_brace "{}" sampleTime "info")
                 "}"%char EmptyString eq_refl).
Defined.

(** A marshaller for the examples: it accepts the struct with identity 1. *)
Definition sampleMarshal (v : value) : option string :=
  match v with
  | VStruct 1 | VPtr (VStruct 1) => Some ("{" ++ dq ++ "a" ++ dq ++ ":1}")%string
  | _ => None
  end.

Lemma quiet_logger_is_silent_witness :
  Error sampleMarshal sampleTime (fun t => t) (VString false "disk full")
        (mkLogger [[]; []] LogLevelQuiet 1 false false)
  = Some (mkLogger [[]; []] LogLevelQuiet 1 false false).
Proof.
  apply (quiet_logger_is_silent sampleMarshal sampleTime (fun t => t)
           (VString false "disk full") 0 (mkLogger [[]; []] LogLevelQuiet 1 false false)).
  reflexivity.
Defined.

Lemma struct_message_dispatch_witness :
  option_map (fun lg => engines lg)
    (Warning sampleMarshal sampleTime (fun t => t) (VStruct 1) recordingLogger)
  = Some [[("Warning {" ++ dq ++ "timestamp" ++ dq ++ ":" ++ dq ++
            "2024-03-05 07:08:09.000" ++ dq ++ "," ++ dq ++ "level" ++ dq ++ ":" ++ dq ++
            "warning" ++ dq ++ "," ++ dq ++ "a" ++ dq ++ ":1}")%string];
          [("Warning {" ++ dq ++ "timestamp" ++ dq ++ ":" ++ dq ++
            "2024-03-05 07:08:09.000" ++ dq ++ "," ++ dq ++ "level" ++ dq ++ ":" ++ dq ++
            "warning" ++ dq ++ "," ++ dq ++ "a" ++ dq ++ ":1}")%string]].
Proof.
  destruct (struct_message_dispatch sampleMarshal sampleTime (fun t => t) (VStruct 1)
              ("{" ++ dq ++ "a" ++ dq ++ ":1}")%string 0 recordingLogger
              eq_refl eq_refl) as (_ & W & _).
  rewrite W. reflexivity.
Defined.

Lemma logger_destroy_detaches_engines_witness :
  snd (LoggerAdmin.Destroy false recordingLogger) = [["Destroy"]; ["Destroy"]]%string /\
  Info sampleMarshal sampleTime (fun t => t) (VString true "late")
       (fst (LoggerAdmin.Destroy false recordingLogger))
  = Some (fst (LoggerAdmin.Destroy false recordingLogger)).
Proof.
  destruct (logger_destroy_detaches_engines sampleMarshal sampleTime (fun t => t)
              recordingLogger (VString true "late") 0) as (H1 & _ & H3 & _).
  split; [exact H1|]. apply H3. discriminate.
Defined.

#[local] Existing Instance Console.consoleEngine.

(** X25: the default logger (level information, UTC timestamps, one console
    engine with colours allowed) prints a string logged as error or warning on
    the standard error and one logged as information or success on the
    standard output, each as one timestamped line with the tag of its level;
    it prints nothing for a debug call, whatever its level and value. *)
Theorem default_logger_prints_all_but_debug :
  forall (Marshal : value -> option string) (timeNow : Time) (UTC : Time -> Time)
         (t : Console.terminal) (c : Console.console) (s : string),
    let lg := Default t c in
    let eng := Console.NewEngine t (Console.mkOptions false) in
    let line i :=
      ConsoleExtra.consoleLine (UTC timeNow) (Console.at_ i (Console.themedLevels eng)) s false in
    let printed w text r :=
      exists c', r = Some (setEngines [(eng, c')] lg) /\ ConsoleExtra.appended w text c c' in
    printed Console.Stderr (line 0%nat) (Error Marshal timeNow UTC (VString true s) lg) /\
    printed Console.Stderr (line 1%nat) (Warning Marshal timeNow UTC (VString true s) lg) /\
    printed Console.Stdout (line 2%nat) (Info Marshal timeNow UTC (VString true s) lg) /\
    printed Console.Stdout (line 4%nat) (Success Marshal timeNow UTC (VString true s) lg) /\
    (forall level v, Debug Marshal timeNow UTC level v lg = Some lg).
Proof.
  intros Marshal timeNow UTC t c s lg eng line printed.
  pose proof (ConsoleExtra.Fprint_appended Console.Stderr (line 0%nat) c) as A0.
  pose proof (ConsoleExtra.Fprint_appended Console.Stderr (line 1%nat) c) as A1.
  pose proof (ConsoleExtra.Fprint_appended Console.Stdout (line 2%nat) c) as A2.
  pose proof (ConsoleExtra.Fprint_appended Console.Stdout (line 4%nat) c) as A4.
  split; [eexists; split; [reflexivity | exact A0]|].
  split; [eexists; split; [reflexivity | exact A1]|].
  split; [eexists; split; [reflexivity | exact A2]|].
  split; [eexists; split; [reflexivity | exact A4]|].
  intros level v. reflexivity.
Qed.

End LoggerExtra.

(* ===================================================================== *)
(** * The server a new syslog engine talks to *)
(* ===================================================================== *)

Module SyslogSetup.
Import Syslog.

(** The server address [NewEngine] builds from the options. *)
Definition addressOf (opts : Options) : string :=
  ((if (String.length (Host opts) =? 0)%nat then "127.0.0.1" else Host opts) ++ ":" ++
   Itoa (Z.of_N (if (Port opts =? 0)%N
                 then (if UseTcp opts then (if UseTls opts then 6514 else 1468) else 514)%N
                 else Port opts)))%string.

(** X26: [NewEngine] fails only when no application name is given and the
    executable cannot be found.  A new engine is not connected, and when it
    connects it dials once: the host of the options (the loopback address
    when none is given) and their port (when zero: 514 for UDP, 1468 for TCP,
    6514 for TCP with TLS), over TCP when [UseTcp] is set and over UDP
    otherwise, and with TLS only when both [UseTcp] and [UseTls] are set:
    [UseTls] alone gives a plain UDP engine. *)
Theorem new_engine_dials_the_configured_server :
  forall (p : process) (opts : Options),
    (NewEngine p opts = None <->
     AppName opts = EmptyString /\ Executable p = None) /\
    forall lg ctx n, NewEngine p opts = Some lg ->
      conn lg = None /\
      exists res,
        trace (snd (connect ctx lg n)) =
        (trace n ++ [EvDial (if UseTcp opts then "tcp" else "udp") (addressOf opts)
                            (UseTcp opts && UseTls opts) res])%list /\
        conn (snd (fst (connect ctx lg n))) = res.
Proof.
  intros p opts. split.
  - unfold NewEngine, defaultAppName.
    destruct (AppName opts) as [|a s]; cbn [String.length Nat.eqb].
    + destruct (Executable p); split; try discriminate; try tauto.
      intros [_ H]. discriminate H.
    + split; [discriminate | intros [H _]; discriminate H].
  - intros lg ctx n H.
    assert (Hlg : conn lg = None /\ useTcp lg = UseTcp opts /\
                  serverAddress lg = addressOf opts /\
                  (match tlsConfig lg with Some _ => true | None => false end)
                  = UseTls opts).
    { unfold NewEngine in H.
      destruct (if (String.length (AppName opts) =? 0)%nat
                then defaultAppName p else Some (AppName opts)) as [app|];
        [|discriminate H].
      injection H as <-. cbn [conn useTcp serverAddress tlsConfig].
      split; [reflexivity|]. split; [reflexivity|]. split.
      - unfold addressOf.
        destruct (Host opts) as [|a s]; reflexivity.
      - destruct (UseTls opts); [destruct (TlsConfig opts)|]; reflexivity. }
    destruct Hlg as (Hc & Ht & Ha & Hs). split; [exact Hc|].
    unfold connect, disconnect. rewrite Hc, Ht, Ha, Hs.
    pose proof (SyslogExtra.DialContext_facts ctx
                  (if UseTcp opts then "tcp" else "udp")%string (addressOf opts)
                  (UseTcp opts && UseTls opts) n) as F.
    cbv zeta in F. destruct F as [_ F].
    destruct (DialContext ctx (if UseTcp opts then "tcp" else "udp")%string
                (addressOf opts) (UseTcp opts && UseTls opts) n) as [[c|e] n1];
      cbn [fst snd] in F |- *.
    + destruct F as [_ T]. exists (Some c). split; [exact T | reflexivity].
    + destruct F as [T _]. exists None. split; [exact T | reflexivity].
Qed.

Lemma new_engine_dials_the_configured_server_witness :
  let opts := mkOptions "app" "" 0 false true false 0 None in
  let n := mkNetwork 0 (fun _ => mkOutcome true 1) 0 0 [] in
  exists lg, NewEngine sampleProcess opts = Some lg /\
    trace (snd (connect Background lg n)) = [EvDial "udp" "127.0.0.1:514" false (Some 0%nat)].
Proof.
  intros opts n. eexists. split; [reflexivity|].
  destruct (proj2 (new_engine_dials_the_configured_server sampleProcess opts)
                  _ Background n eq_refl) as (_ & res & T & R).
  rewrite T, <- R. reflexivity.
Defined.

End SyslogSetup.
